(** * resize_data.py: a shallow embedding and its properties

    The program resizes every raster image below an input directory and
    writes the result below an output directory.  This file embeds

    - [resize_image]   (resize_data.py, lines 7-48),
    - [resize_dataset] (lines 51-71),
    - the command-line block (lines 74-94, [main]),

    together with the parts of the Python runtime they rest on: true
    division and multiplication on binary64 floats, [int()], [min]/[max],
    [os.path], [os.makedirs], and the attributes of a Pillow image the
    program reads and writes.  Pixel data is not modelled. *)

From Stdlib Require Import ZArith QArith Qround Lia SpecFloat Ascii.
From stdpp Require Import gmap strings.

Local Open Scope Z_scope.

(** ** Exceptions and the error monad *)

Inductive exn :=
| ValueError (msg : string)
| ZeroDivisionError
| OverflowError
| FileNotFoundError
| FileExistsError
| NotADirectoryError
| IsADirectoryError
| UnidentifiedImageError.

Inductive result (A : Type) :=
| Ok (a : A)
| Err (e : exn).
Arguments Ok {A} a.
Arguments Err {A} e.

Global Instance result_ret : MRet result := fun _ a => Ok a.
Global Instance result_bind : MBind result := fun _ _ f m =>
  match m with
  | Ok a => f a
  | Err e => Err e
  end.

(** ** Python floats (IEEE 754 binary64) *)

Module PyFloat.

Definition prec : Z := 53.
Definition emax : Z := 1024.

Abbreviation float := spec_float.

Definition one : float := S754_finite false 4503599627370496 (-52).

(** [float(n)] for a Python int: nearest double, ties to even;
    OverflowError beyond the double range. *)
Definition of_int (n : Z) : result float :=
  match binary_normalize prec emax n 0 false with
  | S754_infinity _ => Err OverflowError
  | x => Ok x
  end.

(** [a / b] on two Python ints: the correctly rounded quotient. *)
Definition truediv_int (a b : Z) : result float :=
  if b =? 0 then Err ZeroDivisionError
  else if a =? 0 then Ok (S754_zero (b <? 0))
  else
    match SFdiv prec emax
            (S754_finite (a <? 0) (Z.to_pos (Z.abs a)) 0)
            (S754_finite (b <? 0) (Z.to_pos (Z.abs b)) 0) with
    | S754_infinity _ => Err OverflowError
    | q => Ok q
    end.

Definition mul : float -> float -> float := SFmul prec emax.

(** [n * x] with [n] an int and [x] a float: [n] is converted first. *)
Definition int_mul (n : Z) (x : float) : result float :=
  fn ← of_int n; Ok (mul fn x).

Definition ltb : float -> float -> bool := SFltb.

(** Built-in [min(a, b)] and [max(a, b)]: the first argument is kept
    unless the second compares strictly smaller (resp. greater). *)
Definition py_min (a b : float) : float := if ltb b a then b else a.
Definition py_max (a b : float) : float := if ltb a b then b else a.

(** [int(x)]: truncation toward zero. *)
Definition to_int (x : float) : result Z :=
  match x with
  | S754_zero _ => Ok 0
  | S754_finite s m e => Ok (cond_Zopp s (Z.shiftl (Zpos m) e))
  | S754_infinity _ => Err OverflowError
  | S754_nan => Err (ValueError "cannot convert float NaN to integer")
  end.

(** The rational number a float denotes (0 for the non-finite ones). *)
Definition value (x : float) : Q :=
  match x with
  | S754_finite s m (Zneg p) => Qmake (cond_Zopp s (Zpos m)) (2 ^ p)%positive
  | S754_finite s m e => inject_Z (cond_Zopp s (Zpos m) * 2 ^ e)
  | _ => 0%Q
  end.

End PyFloat.
Import PyFloat.

(** ** Strings *)

Module PyStr.

Definition is_lower (c : ascii) : bool :=
  let n := Ascii.nat_of_ascii c in (97 <=? n)%nat && (n <=? 122)%nat.
Definition is_upper (c : ascii) : bool :=
  let n := Ascii.nat_of_ascii c in (65 <=? n)%nat && (n <=? 90)%nat.

Definition upper_char (c : ascii) : ascii :=
  if is_lower c then Ascii.ascii_of_nat (Ascii.nat_of_ascii c - 32) else c.
Definition lower_char (c : ascii) : ascii :=
  if is_upper c then Ascii.ascii_of_nat (Ascii.nat_of_ascii c + 32) else c.

Fixpoint map_chars (f : ascii -> ascii) (s : string) : string :=
  match s with
  | EmptyString => EmptyString
  | String c s' => String (f c) (map_chars f s')
  end.

(** [s.upper()] and [s.lower()] on ASCII text. *)
Definition upper : string -> string := map_chars upper_char.
Definition lower : string -> string := map_chars lower_char.

(** [s.endswith(suffix)] *)
Definition endswith (s suffix : string) : bool :=
  let n := String.length s in
  let k := String.length suffix in
  (k <=? n)%nat && bool_decide (String.substring (n - k) k s = suffix).

(** [s.endswith((s1, ..., sn))] with a tuple of suffixes. *)
Definition endswith_any (s : string) (suffixes : list string) : bool :=
  existsb (endswith s) suffixes.

End PyStr.

(** ** [os.path] (POSIX flavour) *)

Module OsPath.

Definition is_sep (c : ascii) : bool := bool_decide (c = "/"%char).

(** [s.startswith('/')] and [s.endswith('/')] *)
Definition startswith_sep (s : string) : bool :=
  match s with
  | String c _ => is_sep c
  | EmptyString => false
  end.

Fixpoint endswith_sep (s : string) : bool :=
  match s with
  | EmptyString => false
  | String c EmptyString => is_sep c
  | String _ s' => endswith_sep s'
  end.

Definition isabs : string -> bool := startswith_sep.

(** [os.path.join(a, b)] *)
Definition join (a b : string) : string :=
  if startswith_sep b then b
  else if bool_decide (a = "") || endswith_sep a then a +:+ b
  else a +:+ "/" +:+ b.

(** [os.path.join(a, *p)] *)
Definition join_all (a : string) (p : list string) : string := foldl join a p.

(** [s.rfind(c)], returned as the text before and after the last [c]. *)
Fixpoint rsplit_at (c : ascii) (s : string) : option (string * string) :=
  match s with
  | EmptyString => None
  | String x s' =>
      match rsplit_at c s' with
      | Some (before, after) => Some (String x before, after)
      | None => if bool_decide (x = c) then Some (EmptyString, s') else None
      end
  end.

Fixpoint all_dots (s : string) : bool :=
  match s with
  | EmptyString => true
  | String c s' => bool_decide (c = "."%char) && all_dots s'
  end.

(** [os.path.splitext(p)]: the extension starts at the last dot of the
    last path component, unless only dots precede it there. *)
Definition splitext (p : string) : string * string :=
  let '(head, base) :=
    match rsplit_at "/" p with
    | Some (before, after) => (before +:+ "/", after)
    | None => (EmptyString, p)
    end in
  match rsplit_at "." base with
  | Some (stem, ext) =>
      if all_dots stem then (p, EmptyString)
      else (head +:+ stem, String "." ext)
  | None => (p, EmptyString)
  end.

Fixpoint all_seps (s : string) : bool :=
  match s with
  | EmptyString => true
  | String c s' => is_sep c && all_seps s'
  end.

(** [s.rstrip('/')] *)
Fixpoint rstrip_sep (s : string) : string :=
  match s with
  | EmptyString => EmptyString
  | String c s' =>
      let r := rstrip_sep s' in
      if is_sep c && bool_decide (r = "") then EmptyString else String c r
  end.

(** [os.path.dirname(p)] *)
Definition dirname (p : string) : string :=
  match rsplit_at "/" p with
  | Some (before, _) =>
      let head := before +:+ "/" in
      if all_seps head then head else rstrip_sep head
  | None => EmptyString
  end.

(** [os.path.split(p)]: the directory part, as [dirname] gives it, and
    what follows the last slash. *)
Definition split (p : string) : string * string :=
  match rsplit_at "/" p with
  | Some (before, after) =>
      let head := before +:+ "/" in
      (if all_seps head then head else rstrip_sep head, after)
  | None => (EmptyString, p)
  end.

(** [s.split('/')] *)
Fixpoint split_sep (s : string) : list string :=
  match s with
  | EmptyString => [EmptyString]
  | String c s' =>
      if is_sep c then EmptyString :: split_sep s'
      else
        match split_sep s' with
        | w :: ws => String c w :: ws
        | [] => [String c EmptyString]
        end
  end.

(** ['/'.join(cs)] *)
Fixpoint sep_join (cs : list string) : string :=
  match cs with
  | [] => EmptyString
  | c :: cs' =>
      match cs' with
      | [] => c
      | _ :: _ => c +:+ "/" +:+ sep_join cs'
      end
  end.

(** The number of leading slashes [normpath] keeps: two are kept, one
    or at least three count as one. *)
Definition initial_slashes (path : string) : nat :=
  match path with
  | String c0 rest0 =>
      if is_sep c0 then
        match rest0 with
        | String c1 rest1 =>
            if is_sep c1 && negb (startswith_sep rest1) then 2%nat else 1%nat
        | EmptyString => 1%nat
        end
      else 0%nat
  | EmptyString => 0%nat
  end.

(** One turn of the loop of [normpath] over the components. *)
Definition norm_step (rooted : bool) (new_comps : list string) (comp : string)
  : list string :=
  if bool_decide (comp = "") || bool_decide (comp = ".") then new_comps
  else if negb (bool_decide (comp = ".."))
          || (negb rooted && bool_decide (new_comps = []))
          || bool_decide (last new_comps = Some "..")
  then new_comps ++ [comp]
  else removelast new_comps.

Fixpoint slashes (n : nat) : string :=
  match n with
  | O => EmptyString
  | S n' => String "/" (slashes n')
  end.

(** [os.path.normpath(path)] *)
Definition normpath (path : string) : string :=
  if bool_decide (path = "") then "."
  else
    let k := initial_slashes path in
    let comps := foldl (norm_step (negb (Nat.eqb k 0))) [] (split_sep path) in
    let path' := slashes k +:+ sep_join comps in
    if bool_decide (path' = "") then "." else path'.

(** [os.path.abspath(path)], with the current directory as a parameter. *)
Definition abspath (cwd path : string) : string :=
  normpath (if isabs path then path else join cwd path).

(** [len(os.path.commonprefix([l1, l2]))] for two lists of components. *)
Fixpoint common_prefix_len (l1 l2 : list string) : nat :=
  match l1, l2 with
  | x :: l1', y :: l2' =>
      if bool_decide (x = y) then S (common_prefix_len l1' l2') else O
  | _, _ => O
  end.

(** [[x for x in s.split('/') if x]] *)
Definition components (s : string) : list string :=
  filter (fun x => x <> EmptyString) (split_sep s).

(** [os.path.relpath(path, start)] *)
Definition relpath (cwd path start : string) : result string :=
  if bool_decide (path = "") then Err (ValueError "no path specified")
  else
    let start_list := components (abspath cwd start) in
    let path_list := components (abspath cwd path) in
    let i := common_prefix_len start_list path_list in
    let rel_list :=
      replicate (length start_list - i) ".." ++ drop i path_list in
    match rel_list with
    | [] => Ok "."
    | a :: p => Ok (join_all a p)
    end.

(** A directory as [os.walk] sees it: the names of its regular files
    and its sub-directories. *)
#[warnings="-register-all"] Inductive dir_tree :=
| Dir (files : list string) (subdirs : list (string * dir_tree)).

(** [os.walk(top)], top-down: one triple (root, dirs, files) per
    directory. *)
Fixpoint walk (top : string) (t : dir_tree)
  : list (string * list string * list string) :=
  match t with
  | Dir files subdirs =>
      (top, map fst subdirs, files) ::
      (fix walk_subdirs (l : list (string * dir_tree)) :=
         match l with
         | [] => []
         | (d, t') :: l' => walk (join top d) t' ++ walk_subdirs l'
         end) subdirs
  end.

End OsPath.

(** ** Pillow images *)

Module PIL.

(** The attributes of [PIL.Image.Image] the program touches. *)
Record Image := {
  format : option string;
  mode : string;
  width : Z;
  height : Z;
  info : gmap string string
}.

Inductive param :=
| PBool (b : bool)
| PInt (n : Z)
| PStr (s : string).

(** A regular file.  [Encoded img params] is an image file: [img] gives
    the format of the file, the pixel mode and the size it stores, and the
    metadata stored with the pixels (EXIF, ICC profile, text chunks);
    [params] are the options it was written with.  Entries a decoder adds
    to [info] from the container itself (the density of a JFIF header, the
    version of a GIF) are left out: the program never reads them.
    [Undecodable] is a file that is not an image. *)
Inductive file :=
| Encoded (img : Image) (params : gmap string param)
| Undecodable.

Inductive resampling := NEAREST | BILINEAR | BICUBIC | LANCZOS.

(** [Image.open(path)] *)
Definition Image_open (files : gmap string file) (path : string)
  : result Image :=
  match files !! path with
  | Some (Encoded img _) => Ok img
  | Some Undecodable => Err UnidentifiedImageError
  | None => Err FileNotFoundError
  end.

(** [img.convert(m)]: a new image; images made by the library have no
    [format]. *)
Definition convert (img : Image) (m : string) : Image :=
  {| format := None; mode := m;
     width := width img; height := height img; info := info img |}.

(** A Python int that fits a C [int]. *)
Definition c_int (n : Z) : bool := (- 2 ^ 31 <=? n) && (n <? 2 ^ 31).

(** [img.resize(size, resample)]: the size is handed to C as two [int]s
    (OverflowError beyond their range), and a size below 1x1 is rejected
    ("height and width must be > 0").  The new pixel buffer is taken to
    fit in memory: where it does not, the call raises MemoryError and this
    function still returns an image. *)
Definition resize (img : Image) (size : Z * Z) (r : resampling)
  : result Image :=
  if negb (c_int size.1 && c_int size.2) then Err OverflowError
  else if (size.1 <? 1) || (size.2 <? 1)
  then Err (ValueError "height and width must be > 0")
  else Ok {| format := None; mode := mode img;
             width := size.1; height := size.2; info := info img |}.

(** [img.info = d] *)
Definition set_info (img : Image) (d : gmap string string) : Image :=
  {| format := format img; mode := mode img;
     width := width img; height := height img; info := d |}.

(** The pixel mode in which a format stores an image of mode [m]: a GIF
    holds at most 256 colours, and an RGB image is stored in it as a
    palette image (mode P); PNG, JPEG and BMP store RGB pixels as they
    are. *)
Definition stored_mode (fmt : option string) (m : string) : string :=
  if bool_decide (fmt = Some "GIF") && bool_decide (m = "RGB") then "P"
  else m.

(** The file an encoder makes of [img] under the options [params]: it has
    the format named by the [format] option and carries the metadata found
    in [img.info].  The limits of the encoders themselves (65500 pixels a
    side for JPEG, 65535 for GIF) are not modelled. *)
Definition encode (img : Image) (params : gmap string param) : file :=
  let fmt :=
    match params !! "format" with
    | Some (PStr f) => Some f
    | _ => None
    end in
  Encoded {| format := fmt; mode := stored_mode fmt (mode img);
             width := width img; height := height img;
             info := info img |} params.

End PIL.

(** ** The file system *)

(** Regular files by path, and the directories that exist, by path
    without trailing slashes.  The root and the current directory (the
    empty directory part of a relative name) always exist.  Apart from
    trailing slashes, paths are told apart by their text: the model is of
    a file system in which the program meets each file and directory
    under one spelling (no symbolic links, no [.] or [..] inside the paths
    it builds).  Permissions and a full disk are not modelled. *)
Record fsys := {
  files : gmap string PIL.file;
  dirs : gset string
}.

(** How an action on the file system ends: normally, or with an exception
    that leaves in place what was created or written before it. *)
Inductive ended :=
| Done (fs : fsys)
| Raised (e : exn) (fs : fsys).

Definition final_fs (r : ended) : fsys :=
  match r with
  | Done fs => fs
  | Raised _ fs => fs
  end.

(** [os.path.isdir(p)] *)
Definition isdir (fs : fsys) (p : string) : bool :=
  negb (bool_decide (p = "")) &&
  (OsPath.all_seps p || bool_decide (OsPath.rstrip_sep p ∈ dirs fs)).

(** [os.path.exists(p)] *)
Definition path_exists (fs : fsys) (p : string) : bool :=
  negb (bool_decide (p = "")) &&
  (isdir fs p || bool_decide (is_Some (files fs !! p))).

(** [d], [dirname d], [dirname (dirname d)], ... up to the empty path. *)
Fixpoint ancestors_upto (n : nat) (d : string) : list string :=
  match n with
  | O => []
  | S n' =>
      if bool_decide (d = "") then []
      else d :: ancestors_upto n' (OsPath.dirname d)
  end.

Definition ancestors (d : string) : list string :=
  ancestors_upto (String.length d) d.

(** What a system call finds when it looks for the directory [d] to put
    an entry into: the current directory (empty [d]) or an existing
    directory; else ENOTDIR when [d] or a path above it is a regular file,
    and ENOENT when nothing is there. *)
Definition dir_check (fs : fsys) (d : string) : result unit :=
  if bool_decide (d = "") || isdir fs d then Ok tt
  else if existsb (fun a => bool_decide (is_Some (files fs !! a)))
            (ancestors d)
  then Err NotADirectoryError
  else Err FileNotFoundError.

(** [os.mkdir(p)] *)
Definition mkdir (fs : fsys) (p : string) : result fsys :=
  if bool_decide (p = "") then Err FileNotFoundError
  else
    _ ← dir_check fs (OsPath.dirname (OsPath.rstrip_sep p));
    if path_exists fs p
       || bool_decide (is_Some (files fs !! OsPath.rstrip_sep p))
    then Err FileExistsError
    else Ok {| files := files fs;
               dirs := {[OsPath.rstrip_sep p]} ∪ dirs fs |}.

(** [os.makedirs(name)] (with [exist_ok=False]): the directories above
    [name] that are missing are made first, from the top down.  [n]
    bounds the depth of the recursion; the length of [name] is enough
    ([makedirs_upto_enough]). *)
Fixpoint makedirs_upto (n : nat) (fs : fsys) (name : string) : ended :=
  let '(head, tail) := OsPath.split name in
  let '(head, tail) :=
    if bool_decide (tail = "") then OsPath.split head else (head, tail) in
  let leaf (fs : fsys) : ended :=
    match mkdir fs name with
    | Ok fs' => Done fs'
    | Err e => Raised e fs
    end in
  if negb (bool_decide (head = "")) && negb (bool_decide (tail = ""))
     && negb (path_exists fs head)
  then
    match n with
    | O => leaf fs
    | S n' =>
        match makedirs_upto n' fs head with
        | Done fs1 => if bool_decide (tail = ".") then Done fs1 else leaf fs1
        | Raised FileExistsError fs1 =>
            if bool_decide (tail = ".") then Done fs1 else leaf fs1
        | Raised e fs1 => Raised e fs1
        end
    end
  else leaf fs.

Definition makedirs (fs : fsys) (name : string) : ended :=
  makedirs_upto (String.length name) fs name.

Definition write_files (fs : fsys) (m : gmap string PIL.file) : fsys :=
  {| files := m; dirs := dirs fs |}.

(** [img.save(path, **params)]: the file is opened for writing
    (IsADirectoryError on a directory, FileNotFoundError or
    NotADirectoryError when the directory of [path] is missing or is not a
    directory), and the encoded image replaces what the file held. *)
Definition save (fs : fsys) (img : PIL.Image) (path : string)
    (params : gmap string PIL.param) : result fsys :=
  if isdir fs path then Err IsADirectoryError
  else
    _ ← dir_check fs (OsPath.dirname path);
    Ok (write_files fs (<[path := PIL.encode img params]> (files fs))).

(** ** resize_data.py *)

Import PyStr OsPath PIL.

(** Line 10: [img.format.upper() if img.format else None] *)
Definition original_format_of (img : Image) : option string :=
  match format img with
  | Some f => if bool_decide (f = "") then None else Some (upper f)
  | None => None
  end.

(** Lines 16-21: the scale ratio. *)
Definition scale_ratio (width height : Z) (max_size min_size : option Z)
  : result float :=
  match max_size, min_size with
  | Some M, _ =>
      a ← truediv_int M width;
      b ← truediv_int M height;
      Ok (py_min a b)
  | None, Some m =>
      a ← truediv_int m width;
      b ← truediv_int m height;
      Ok (py_max a b)
  | None, None =>
      Err (ValueError "Either max_size or min_size must be specified.")
  end.

(** Line 23: [(int(img.width * ratio), int(img.height * ratio))] *)
Definition new_size (width height : Z) (ratio : float) : result (Z * Z) :=
  pw ← int_mul width ratio;
  nw ← to_int pw;
  ph ← int_mul height ratio;
  nh ← to_int ph;
  Ok (nw, nh).

(** Lines 16-23 as one step: the size handed to [resize]. *)
Definition target_size (width height : Z) (max_size min_size : option Z)
  : result (Z * Z) :=
  ratio ← scale_ratio width height max_size min_size;
  new_size width height ratio.

(** Line 30 *)
Definition valid_formats : gmap string string :=
  <["JPEG" := "jpg"]> (<["PNG" := "png"]> (<["BMP" := "bmp"]>
    (<["GIF" := "gif"]> ∅))).

(** Lines 33-38: the pair (extension, save_format). *)
Definition select_format (keep_format : bool) (original_format : option string)
  : string * string :=
  let fallback := ("png", "PNG") in
  if keep_format then
    match original_format with
    | Some f =>
        match valid_formats !! f with
        | Some ext => (ext, f)
        | None => fallback
        end
    | None => fallback
    end
  else fallback.

(** Lines 42-46 *)
Definition save_params_for (extension save_format : string)
  : gmap string param :=
  let save_params : gmap string param := {[ "format" := PStr save_format ]} in
  if bool_decide (extension = "png")
  then <["compress_level" := PInt 9]> (<["optimize" := PBool true]> save_params)
  else if bool_decide (extension = "jpg")
  then <["quality" := PInt 95]> save_params
  else save_params.

(** Lines 7-48 *)
Definition resize_image (fs : fsys) (image_path output_path : string)
    (max_size min_size : option Z) (keep_format : bool) : result fsys :=
  img ← Image_open (files fs) image_path;
  let original_format := original_format_of img in
  let img := convert img "RGB" in
  size ← target_size (width img) (height img) max_size min_size;
  resized_img ← resize img size BILINEAR;
  let resized_img := set_info resized_img ∅ in
  let '(extension, save_format) := select_format keep_format original_format in
  let output_path := (splitext output_path).1 +:+ "." +:+ extension in
  let save_params := save_params_for extension save_format in
  save fs resized_img output_path save_params.

(** Line 59: the suffixes that make a file name an image. *)
Definition image_suffixes : list string := ["png"; "jpg"; "jpeg"; "bmp"; "gif"].

Definition is_image_name (file : string) : bool :=
  endswith_any (lower file) image_suffixes.

(** Lines 56-61 *)
Definition all_image_paths (input_dir : string) (tree : dir_tree) : list string :=
  flat_map
    (fun '(root, _, fnames) => map (join root) (filter is_image_name fnames))
    (walk input_dir tree).

(** Lines 52-53 and 68-69: [if not os.path.exists(d): os.makedirs(d)] *)
Definition ensure_dir (fs : fsys) (d : string) : ended :=
  if path_exists fs d then Done fs else makedirs fs d.

(** Lines 64-71: the loop over the collected paths. *)
Fixpoint resize_all (cwd : string) (fs : fsys) (paths : list string)
    (input_dir output_dir : string)
    (max_size min_size : option Z) (keep_format : bool) : ended :=
  match paths with
  | [] => Done fs
  | input_path :: rest =>
      match relpath cwd input_path input_dir with
      | Err e => Raised e fs
      | Ok rel =>
          let output_path := join output_dir rel in
          let output_subdir := dirname output_path in
          match ensure_dir fs output_subdir with
          | Raised e fs => Raised e fs
          | Done fs =>
              match resize_image fs input_path output_path
                      max_size min_size keep_format with
              | Err e => Raised e fs
              | Ok fs' =>
                  resize_all cwd fs' rest input_dir output_dir
                    max_size min_size keep_format
              end
          end
      end
  end.

(** Lines 51-71.  [tree] is the directory found at [input_dir] and [cwd]
    the current directory of the process. *)
Definition resize_dataset (cwd : string) (tree : dir_tree) (fs : fsys)
    (input_dir output_dir : string)
    (max_size min_size : option Z) (keep_format : bool) : ended :=
  match ensure_dir fs output_dir with
  | Raised e fs => Raised e fs
  | Done fs =>
      resize_all cwd fs (all_image_paths input_dir tree) input_dir output_dir
        max_size min_size keep_format
  end.

(** The parsed command line (lines 75-85). *)
Record args := {
  input_directory : string;
  output_directory : string;
  max_size : option Z;
  min_size : option Z;
  keep_format : bool
}.

(** What a run of the script ends in: [parser.error] (usage message,
    exit status 2) or the end of [resize_dataset]. *)
Inductive outcome :=
| UsageError (msg : string)
| Finished (r : ended).

(** Truth value of an optional int: [None] and [0] are false. *)
Definition truthy (o : option Z) : bool :=
  match o with
  | Some n => negb (n =? 0)
  | None => false
  end.

(** Lines 87-94 *)
Definition main (cwd : string) (tree : dir_tree) (fs : fsys) (a : args)
  : outcome :=
  if truthy (max_size a) && truthy (min_size a)
  then UsageError "Specify either --max_size or --min_size, not both."
  else if negb (truthy (max_size a)) && negb (truthy (min_size a))
  then UsageError "Either --max_size or --min_size must be specified."
  else Finished (resize_dataset cwd tree fs (input_directory a)
                   (output_directory a) (max_size a) (min_size a)
                   (keep_format a)).

(** ** The format policy as the specification words it *)

Definition supported_formats : list string := ["JPEG"; "PNG"; "BMP"; "GIF"].

Definition canonical_extension (f : string) : string :=
  if bool_decide (f = "JPEG") then "jpg"
  else if bool_decide (f = "PNG") then "png"
  else if bool_decide (f = "BMP") then "bmp"
  else "gif".

(** Keep the recorded format, with its canonical extension, when
    retention is requested and the format is a supported one; otherwise
    PNG with extension png.  The result is (extension, format). *)
Definition format_policy (keep_format : bool) (recorded : option string)
  : string * string :=
  match recorded with
  | Some f =>
      if keep_format && bool_decide (f ∈ supported_formats)
      then (canonical_extension f, f)
      else ("png", "PNG")
  | None => ("png", "PNG")
  end.

(** ** Sample inputs *)

(** A file system holding one image file, in mode [m], and no directory
    besides the current one. *)
Definition single_image_fs (path fmt m : string) (w h : Z) : fsys :=
  {| files := {[ path := Encoded {| format := Some fmt; mode := m;
                                    width := w; height := h;
                                    info := {[ "exif" := "Exif" ]} |} ∅ ]};
     dirs := ∅ |}.


(** A CMYK JPEG of 4000x2000 at [in/c.jpg] beside an empty directory
    [OUT], and the file system after the image is resized into [OUT] with
    [max_size=800] and [keep_format]. *)
Definition sample_fs : fsys :=
  {| files := files (single_image_fs "in/c.jpg" "JPEG" "CMYK" 4000 2000);
     dirs := {[ "in"; "OUT" ]} |}.

Definition sample_image : Image :=
  {| format := Some "JPEG"; mode := "CMYK"; width := 4000; height := 2000;
     info := {[ "exif" := "Exif" ]} |}.

Definition sample_resized_fs : fsys :=
  write_files sample_fs
    (<["OUT/c.jpg" :=
         Encoded {| format := Some "JPEG"; mode := "RGB";
                    width := 800; height := 400; info := ∅ |}
                 (save_params_for "jpg" "JPEG")]> (files sample_fs)).

(** ** Directory entries *)

Fixpoint no_sep (s : string) : bool :=
  match s with
  | EmptyString => true
  | String c s' => negb (is_sep c) && no_sep s'
  end.

(** A name [os.walk] can report: not empty, not [.] or [..], no slash. *)
Definition is_entry_name (x : string) : bool :=
  negb (bool_decide (x = "")) && negb (bool_decide (x = "."))
  && negb (bool_decide (x = "..")) && no_sep x.

Fixpoint tree_names_ok (t : dir_tree) : bool :=
  match t with
  | Dir fnames subdirs =>
      forallb is_entry_name fnames
      && (fix subdirs_ok (l : list (string * dir_tree)) : bool :=
            match l with
            | [] => true
            | (d, t') :: l' =>
                is_entry_name d && tree_names_ok t' && subdirs_ok l'
            end) subdirs
  end.

(** What [join a b] puts in front of a relative [b]. *)
Definition dir_prefix (a : string) : string :=
  if bool_decide (a = "") || endswith_sep a then a else a +:+ "/".

(** The extensions [resize_image] can give to an output file. *)
Definition output_extensions : list string := ["jpg"; "png"; "bmp"; "gif"].

(** Components are never empty and never hold a slash. *)
Definition clean (x : string) : Prop := x <> "" /\ no_sep x = true.

(** The components [abspath] normalises. *)
Definition abs_components (cwd p : string) : list string :=
  if isabs p then components p else components cwd ++ components p.

(** A small dataset: [in/x.PNG], [in/notes.txt] and [in/a/b/c.jpg]. *)
Definition sample_tree : dir_tree :=
  Dir ["x.PNG"; "notes.txt"] [("a", Dir [] [("b", Dir ["c.jpg"] [])])].

Definition sample_dataset_fs : fsys :=
  {| files :=
       {[ "in/x.PNG" := Encoded {| format := Some "PNG"; mode := "P";
                                   width := 300; height := 600;
                                   info := ∅ |} ∅;
          "in/notes.txt" := Undecodable;
          "in/a/b/c.jpg" := Encoded sample_image ∅ ]};
     dirs := {[ "in"; "in/a"; "in/a/b" ]} |}.

(** The same after [resize_dataset] from [in] to [OUT] with
    [max_size=800]. *)
Definition sample_dataset_out : fsys :=
  {| files :=
       <["OUT/a/b/c.png" :=
           Encoded {| format := Some "PNG"; mode := "RGB";
                      width := 800; height := 400; info := ∅ |}
                   (save_params_for "png" "PNG")]>
       (<["OUT/x.png" :=
           Encoded {| format := Some "PNG"; mode := "RGB";
                      width := 400; height := 800; info := ∅ |}
                   (save_params_for "png" "PNG")]>
        (files sample_dataset_fs));
     dirs := {[ "OUT"; "OUT/a"; "OUT/a/b" ]} ∪ dirs sample_dataset_fs |}.

(** ** Sizes computed in floats *)

(** The float [m * 2^-E] lies within one unit in the last place of the
    quotient [a / b]. *)
Definition near (a b : Z) (m : positive) (E : Z) : Prop :=
  (Z.pos m - 1) * b <= a * 2 ^ E <= (Z.pos m + 1) * b.

(** [n] is the quotient [u / d] rounded down, or one less than it where
    [d] divides [u]: what a dimension computed in floats can be when the
    exact scaled dimension is [u / d]. *)
Definition exact_or_one_less (u d n : Z) : Prop :=
  u / d - 1 <= n <= u / d /\ (u mod d <> 0 -> n = u / d).

(** The bound [b] that lines 16-19 apply to a [w] x [h] image, and the
    side [d] they apply it to: [max_size] and the longer side, or, with
    [max_size] unset, [min_size] and the shorter side. *)
Definition bound_in_force (max_size min_size : option Z) (w h b d : Z)
  : Prop :=
  (max_size = Some b /\ d = Z.max w h) \/
  (max_size = None /\ min_size = Some b /\ d = Z.min w h).

(** A float that is not a positive number: a zero, a negative number, an
    infinity or a NaN. *)
Definition not_positive (x : float) : Prop :=
  match x with
  | S754_finite false _ _ => False
  | _ => True
  end.

(** ** File systems and directory trees *)

(** No image stored in the file system has a negative width or height. *)
Definition sizes_nonneg (fs : fsys) : Prop :=
  forall (p : string) (img : Image) (params : gmap string param),
    files fs !! p = Some (Encoded img params) ->
    0 <= width img /\ 0 <= height img.


(** The names of all regular files in a directory tree. *)
Fixpoint file_names (t : dir_tree) : list string :=
  match t with
  | Dir fnames subdirs =>
      fnames ++
      (fix subdir_names (l : list (string * dir_tree)) : list string :=
         match l with
         | [] => []
         | (_, t') :: l' => file_names t' ++ subdir_names l'
         end) subdirs
  end.

(** ** The files the program writes *)

(** The options each format is saved with (lines 42-46), written out. *)
Definition png_options : gmap string param :=
  {[ "format" := PStr "PNG"; "optimize" := PBool true;
     "compress_level" := PInt 9 ]}.
Definition jpeg_options : gmap string param :=
  {[ "format" := PStr "JPEG"; "quality" := PInt 95 ]}.
Definition bmp_options : gmap string param := {[ "format" := PStr "BMP" ]}.
Definition gif_options : gmap string param := {[ "format" := PStr "GIF" ]}.

(** The file at [p] is an output of [resize_image]: an image of at least
    1x1 without metadata, in one of four formats, under the extension and
    with the options of that format; the pixels are RGB in a PNG, JPEG or
    BMP file and palette indices (mode P) in a GIF file. *)
Definition output_at (p : string) (f : PIL.file) : Prop :=
  exists (stem : string) (nw nh : Z),
    1 <= nw /\ 1 <= nh /\
    ((p = stem +:+ ".png" /\
      f = Encoded {| format := Some "PNG"; mode := "RGB";
                     width := nw; height := nh; info := ∅ |} png_options) \/
     (p = stem +:+ ".jpg" /\
      f = Encoded {| format := Some "JPEG"; mode := "RGB";
                     width := nw; height := nh; info := ∅ |} jpeg_options) \/
     (p = stem +:+ ".bmp" /\
      f = Encoded {| format := Some "BMP"; mode := "RGB";
                     width := nw; height := nh; info := ∅ |} bmp_options) \/
     (p = stem +:+ ".gif" /\
      f = Encoded {| format := Some "GIF"; mode := "P";
                     width := nw; height := nh; info := ∅ |} gif_options)).


(** * Properties *)

(** One step of the error monad. *)
Tactic Notation "simpl_bind" := cbn [mbind result_bind].
Tactic Notation "simpl_bind" "in" hyp(H) := cbn [mbind result_bind] in H.

(** ** The runtime model on known values *)

(** Values as CPython 3 prints them: [(1/3).hex()] is
    [0x1.5555555555555p-2], [0 / -5] is [-0.0]. *)
Example truediv_one_third :
  truediv_int 1 3 = Ok (S754_finite false 6004799503160661 (-54)).
Proof. vm_compute. reflexivity. Qed.

Example truediv_negative_zero : truediv_int 0 (-5) = Ok (S754_zero true).
Proof. reflexivity. Qed.

Example truediv_by_zero : truediv_int 5 0 = Err ZeroDivisionError.
Proof. reflexivity. Qed.

Example to_int_truncates_toward_zero :
  (x ← truediv_int (-7) 2; to_int x) = Ok (-3) /\
  (x ← truediv_int 7 2; to_int x) = Ok 3.
Proof. split; vm_compute; reflexivity. Qed.

Example upper_lower : upper "jpeg" = "JPEG" /\ lower "A.JpG" = "a.jpg".
Proof. split; reflexivity. Qed.

Example is_image_name_examples :
  is_image_name "x.PNG" = true /\ is_image_name "png" = true /\
  is_image_name "notes.txt" = false.
Proof. repeat split; reflexivity. Qed.

Example splitext_examples :
  splitext "a/b/c.jpg" = ("a/b/c", ".jpg") /\
  splitext "foo.tar.gz" = ("foo.tar", ".gz") /\
  splitext ".bashrc" = (".bashrc", "") /\
  splitext "a.b/c" = ("a.b/c", "") /\
  splitext "a.b/..png" = ("a.b/..png", "").
Proof. repeat split; reflexivity. Qed.

Example join_examples :
  join "a" "b" = "a/b" /\ join "a/" "b" = "a/b" /\
  join "" "b" = "b" /\ join "a" "/b" = "/b".
Proof. repeat split; reflexivity. Qed.

Example dirname_examples :
  dirname "OUT/a/b/c.jpg" = "OUT/a/b" /\ dirname "c.jpg" = "" /\
  dirname "/c.jpg" = "/" /\ dirname "//a//b" = "//a".
Proof. repeat split; reflexivity. Qed.

Example normpath_examples :
  normpath "a/./b/../c//d/" = "a/c/d" /\ normpath "//a/../../b" = "//b" /\
  normpath "///a" = "/a" /\ normpath "../a/../../b" = "../../b" /\
  normpath "" = ".".
Proof. repeat split; reflexivity. Qed.

Example relpath_examples :
  relpath "/home/u" "data/in/a/b/c.jpg" "data/in/" = Ok "a/b/c.jpg" /\
  relpath "/home/u" "/x/y" "data/in" = Ok "../../../../x/y" /\
  relpath "/home/u" "data" "data" = Ok ".".
Proof. repeat split; reflexivity. Qed.

Example walk_sample :
  walk "in" sample_tree
  = [("in", ["a"], ["x.PNG"; "notes.txt"]); ("in/a", ["b"], []);
     ("in/a/b", [], ["c.jpg"])].
Proof. reflexivity. Qed.

Example resize_examples :
  resize sample_image (800, 400) BILINEAR
  = Ok {| format := None; mode := "CMYK"; width := 800; height := 400;
          info := {[ "exif" := "Exif" ]} |} /\
  resize sample_image (100, 0) BILINEAR
  = Err (ValueError "height and width must be > 0") /\
  resize sample_image (2 ^ 48, 2 ^ 48) BILINEAR = Err OverflowError.
Proof. repeat split. Qed.

Example path_exists_examples :
  path_exists sample_dataset_fs "in/a" = true /\
  path_exists sample_dataset_fs "in/a/" = true /\
  path_exists sample_dataset_fs "in/notes.txt" = true /\
  isdir sample_dataset_fs "in/notes.txt" = false /\
  path_exists sample_dataset_fs "OUT" = false /\
  path_exists sample_dataset_fs "" = false /\
  path_exists sample_dataset_fs "/" = true.
Proof. vm_compute. repeat split. Qed.

(** [os.makedirs] makes the directories on the way, and raises on the
    empty path, on a path that exists and below a regular file. *)
Example makedirs_examples :
  makedirs sample_dataset_fs "OUT/a/b"
  = Done {| files := files sample_dataset_fs;
            dirs := {[ "OUT"; "OUT/a"; "OUT/a/b" ]} ∪ dirs sample_dataset_fs |}
  /\
  makedirs sample_dataset_fs "" = Raised FileNotFoundError sample_dataset_fs /\
  makedirs sample_dataset_fs "in/a" = Raised FileExistsError sample_dataset_fs
  /\
  makedirs sample_dataset_fs "in/notes.txt/sub"
  = Raised NotADirectoryError sample_dataset_fs /\
  makedirs sample_dataset_fs "in/notes.txt/sub/deeper"
  = Raised NotADirectoryError sample_dataset_fs.
Proof. vm_compute. repeat split. Qed.

(** [save] needs the directory of the file: it does not make it. *)
Example save_examples :
  save sample_dataset_fs sample_image "OUT/x.png" ∅ = Err FileNotFoundError /\
  save sample_dataset_fs sample_image "in/notes.txt/x.png" ∅
  = Err NotADirectoryError /\
  save sample_dataset_fs sample_image "in/a" ∅ = Err IsADirectoryError /\
  save sample_dataset_fs sample_image "x.png" ∅
  = Ok (write_files sample_dataset_fs
          (<["x.png" := encode sample_image ∅]> (files sample_dataset_fs))).
Proof. vm_compute. repeat split. Qed.

(** A call that finds no directory for its output raises after the
    image was resized, and writes nothing. *)
Example resize_image_missing_directory :
  resize_image sample_dataset_fs "in/x.PNG" "OUT/x.PNG" (Some 800) None false
  = Err FileNotFoundError.
Proof. vm_compute. reflexivity. Qed.

(** ** Facts about floats *)

Lemma binary_round_aux_cases (s : bool) (m e : Z) (l : location) :
  let r := binary_round_aux prec emax s m e l in
  r = S754_zero s \/ r = S754_infinity s \/ r = S754_nan \/
  exists m' e', r = S754_finite s m' e'.
Proof.
  cbv zeta. unfold binary_round_aux.
  destruct (shr_fexp prec emax m e l) as [mrs1 e1].
  destruct (shr_fexp prec emax _ e1 loc_Exact) as [mrs2 e2].
  destruct (shr_m mrs2) as [|m2|m2]; auto.
  destruct (e2 <=? emax - prec); eauto 8.
Qed.

Lemma value_unsigned_nonneg (m : positive) (e : Z) :
  (0 <= value (S754_finite false m e))%Q.
Proof.
  destruct e as [|p|p]; simpl; unfold Qle; simpl; lia.
Qed.

Lemma value_negative (m : positive) (e : Z) :
  ~ (0 <= value (S754_finite true m e))%Q.
Proof.
  destruct e as [|p|p]; simpl; unfold Qle; simpl; lia.
Qed.

Lemma value_round_nonneg (m e : Z) (l : location) :
  (0 <= value (binary_round_aux prec emax false m e l))%Q.
Proof.
  destruct (binary_round_aux_cases false m e l) as [H|[H|[H|(m' & e' & H)]]];
    rewrite H; try apply value_unsigned_nonneg; simpl; apply Qle_refl.
Qed.

(** [int()] is the floor on non-negative floats ... *)
Lemma to_int_floor (x : float) (z : Z) :
  to_int x = Ok z -> (0 <= value x)%Q -> z = Qfloor (value x).
Proof.
  destruct x as [s|s| |s m e]; unfold to_int; try discriminate.
  - intros [= <-] _. reflexivity.
  - intros [= <-] Hpos. destruct s.
    + exfalso. exact (value_negative m e Hpos).
    + clear Hpos. unfold value, cond_Zopp. destruct e as [|p|p].
      * rewrite Qfloor_Z. apply Z.shiftl_mul_pow2. lia.
      * rewrite Qfloor_Z. apply Z.shiftl_mul_pow2. lia.
      * unfold Qfloor. rewrite Pos2Z.inj_pow.
        apply (Z.shiftl_div_pow2 (Z.pos m) (Z.neg p)). lia.
Qed.

(** ... and the ceiling on non-positive ones: truncation toward zero. *)
Lemma to_int_ceiling (x : float) (z : Z) :
  to_int x = Ok z -> (value x <= 0)%Q -> z = Qceiling (value x).
Proof.
  destruct x as [s|s| |s m e]; unfold to_int; try discriminate.
  - intros [= <-] _. reflexivity.
  - intros [= <-] Hneg. destruct s.
    + clear Hneg. unfold Qceiling, value, cond_Zopp. destruct e as [|p|p].
      * change (- inject_Z (- Z.pos m * 2 ^ 0))%Q
          with (inject_Z (- (- Z.pos m * 2 ^ 0))).
        rewrite Qfloor_Z, Z.shiftl_mul_pow2 by lia. lia.
      * change (- inject_Z (- Z.pos m * 2 ^ Z.pos p))%Q
          with (inject_Z (- (- Z.pos m * 2 ^ Z.pos p))).
        rewrite Qfloor_Z, Z.shiftl_mul_pow2 by lia. lia.
      * unfold Qfloor, Qopp, Qnum, Qden. rewrite Pos2Z.inj_pow.
        rewrite (Z.shiftl_div_pow2 (Z.pos m) (Z.neg p)) by lia.
        rewrite Z.opp_involutive. reflexivity.
    + exfalso. apply (value_negative m e).
      pose proof (value_unsigned_nonneg m e) as Hp.
      assert (Heq : (value (S754_finite false m e) == 0)%Q)
        by (apply Qle_antisym; assumption).
      destruct e as [|p|p]; unfold value, cond_Zopp, Qeq in Heq;
        simpl in Heq; lia.
Qed.

Lemma of_int_nonneg (n : Z) (x : float) :
  0 <= n -> of_int n = Ok x ->
  x = S754_zero false \/ x = S754_nan \/
  exists m e, x = S754_finite false m e.
Proof.
  intros Hn. unfold of_int, binary_normalize.
  destruct n as [|p|p]; try lia.
  - intros [= <-]. auto.
  - unfold binary_round.
    destruct (shl_align _ _ _) as [mz ez].
    destruct (binary_round_aux_cases false (Z.pos mz) ez loc_Exact)
      as [H|[H|[H|(m' & e' & H)]]]; rewrite H; simpl; intros [= <-]; eauto.
Qed.

Lemma int_mul_nonneg (n : Z) (r p : float) :
  0 <= n -> (0 <= value r)%Q -> int_mul n r = Ok p -> (0 <= value p)%Q.
Proof.
  intros Hn Hr. unfold int_mul.
  destruct (of_int n) as [fn|] eqn:Hfn; [|discriminate].
  intros [= <-].
  destruct (of_int_nonneg n fn Hn Hfn) as [->|[->|(m & e & ->)]].
  - destruct r as [s|s| |s m' e']; simpl; apply Qle_refl.
  - apply Qle_refl.
  - destruct r as [s|s| |s m' e']; simpl; try apply Qle_refl.
    destruct s.
    + exfalso. exact (value_negative m' e' Hr).
    + apply value_round_nonneg.
Qed.

(** C3: for a source of non-negative width and height and a non-negative
    scale ratio, the new dimensions are the floors of the float products
    [width * ratio] and [height * ratio]: [int] truncates and never
    rounds to nearest. *)
Theorem C3_new_size_truncates (width height : Z) (ratio : float) (nw nh : Z) :
  0 <= width -> 0 <= height -> (0 <= value ratio)%Q ->
  new_size width height ratio = Ok (nw, nh) ->
  exists pw ph : float,
    int_mul width ratio = Ok pw /\ int_mul height ratio = Ok ph /\
    nw = Qfloor (value pw) /\ nh = Qfloor (value ph).
Proof.
  intros Hw Hh Hr. unfold new_size.
  destruct (int_mul width ratio) as [pw|] eqn:Hpw; [|discriminate].
  simpl_bind.
  destruct (to_int pw) as [nw'|] eqn:Hnw; [|discriminate].
  simpl_bind.
  destruct (int_mul height ratio) as [ph|] eqn:Hph; [|discriminate].
  simpl_bind.
  destruct (to_int ph) as [nh'|] eqn:Hnh; [|discriminate].
  simpl_bind. intros [= <- <-].
  exists pw, ph. repeat split.
  - apply to_int_floor; [exact Hnw|]. exact (int_mul_nonneg _ _ _ Hw Hr Hpw).
  - apply to_int_floor; [exact Hnh|]. exact (int_mul_nonneg _ _ _ Hh Hr Hph).
Qed.

Lemma C3_new_size_truncates_witness :
  exists pw ph : float,
    int_mul 644 (S754_finite false 5594533698596889 (-52)) = Ok pw /\
    int_mul 483 (S754_finite false 5594533698596889 (-52)) = Ok ph /\
    799 = Qfloor (value pw) /\ 600 = Qfloor (value ph).
Proof.
  apply (C3_new_size_truncates 644 483
           (S754_finite false 5594533698596889 (-52)) 799 600).
  - lia.
  - lia.
  - unfold Qle. simpl. lia.
  - vm_compute. reflexivity.
Defined.

(** ** Sizes that miss the bound, and sizes of zero *)

(** C1, at a failing input: a 644x483 image with max_size 800 is resized
    to 799x600, so the longer edge of the output is 799 and not 800
    (800 / 644 rounds down as a double, 644 times it is just below 800,
    and [int] truncates). *)
Theorem C1_longer_edge_one_short :
  target_size 644 483 (Some 800) None = Ok (799, 600) /\
  exists fs',
    resize_image (single_image_fs "a.png" "PNG" "RGB" 644 483) "a.png" "b.png"
                 (Some 800) None false = Ok fs' /\
    exists out params,
      files fs' !! "b.png" = Some (Encoded out params) /\
      width out = 799 /\ height out = 600.
Proof.
  split; [vm_compute; reflexivity|].
  eexists. split; [vm_compute; reflexivity|].
  eexists _, _. split; [vm_compute; reflexivity|]. split; reflexivity.
Qed.

(** C2, at a failing input: a 3264x2448 image with min_size 224 is resized
    to 298x223, so the shorter edge of the output is 223 and not 224. *)
Theorem C2_shorter_edge_one_short :
  target_size 3264 2448 None (Some 224) = Ok (298, 223) /\
  exists fs',
    resize_image (single_image_fs "a.png" "PNG" "RGB" 3264 2448) "a.png" "b.png"
                 None (Some 224) false = Ok fs' /\
    exists out params,
      files fs' !! "b.png" = Some (Encoded out params) /\
      width out = 298 /\ height out = 223.
Proof.
  split; [vm_compute; reflexivity|].
  eexists. split; [vm_compute; reflexivity|].
  eexists _, _. split; [vm_compute; reflexivity|]. split; reflexivity.
Qed.

(** The two examples of the specification do come out as stated. *)
Example target_size_300x600_min_500 :
  target_size 300 600 None (Some 500) = Ok (500, 1000).
Proof. vm_compute. reflexivity. Qed.

Example target_size_4000x2000_max_800 :
  target_size 4000 2000 (Some 800) None = Ok (800, 400).
Proof. vm_compute. reflexivity. Qed.

(** C10: a 1000x1 image with max_size 100 gets the size 100x0; nothing in
    [resize_image] stops it before [resize], which is the call that
    raises. *)
Theorem C10_zero_dimension_reaches_resize :
  exists w h M : Z,
    0 < w /\ 0 < h /\ 0 < M /\
    target_size w h (Some M) None = Ok (M, 0) /\
    resize_image (single_image_fs "in.png" "PNG" "RGB" w h) "in.png" "out.png"
                 (Some M) None false
    = Err (ValueError "height and width must be > 0").
Proof.
  exists 1000, 1, 100. repeat split; try lia; vm_compute; reflexivity.
Qed.

(** ** Rounding of 53- and 54-bit mantissas *)

Lemma digits2_pos_bounds (p : positive) :
  2 ^ (Z.pos (digits2_pos p) - 1) <= Z.pos p < 2 ^ Z.pos (digits2_pos p).
Proof.
  induction p as [p IH|p IH|]; cbn [digits2_pos].
  - rewrite Pos2Z.inj_succ, (Pos2Z.inj_xI p).
    replace (Z.succ (Z.pos (digits2_pos p)) - 1)
      with (Z.succ (Z.pos (digits2_pos p) - 1)) by lia.
    rewrite !Z.pow_succ_r by lia.
    revert IH. generalize (2 ^ (Z.pos (digits2_pos p) - 1)) (2 ^ Z.pos (digits2_pos p)). lia.
  - rewrite Pos2Z.inj_succ, (Pos2Z.inj_xO p).
    replace (Z.succ (Z.pos (digits2_pos p)) - 1)
      with (Z.succ (Z.pos (digits2_pos p) - 1)) by lia.
    rewrite !Z.pow_succ_r by lia.
    revert IH. generalize (2 ^ (Z.pos (digits2_pos p) - 1)) (2 ^ Z.pos (digits2_pos p)). lia.
  - simpl. lia.
Qed.

Lemma Zdigits2_unique (q d : Z) :
  2 ^ (d - 1) <= q < 2 ^ d -> 0 < d -> Zdigits2 q = d.
Proof.
  intros [Hlo Hhi] Hd.
  assert (0 < q) by (pose proof (Z.pow_pos_nonneg 2 (d - 1)); lia).
  destruct q as [|p|p]; try lia.
  cbn [Zdigits2].
  pose proof (digits2_pos_bounds p) as [Hlo' Hhi'].
  set (d' := Z.pos (digits2_pos p)) in *.
  destruct (Z.lt_trichotomy d' d) as [Hlt|[Heq|Hgt]]; [|exact Heq|].
  - pose proof (Z.pow_le_mono_r 2 d' (d - 1)). lia.
  - pose proof (Z.pow_le_mono_r 2 d (d' - 1)). lia.
Qed.

Lemma fexp_normal (d : Z) : -1021 <= d -> fexp prec emax d = d - 53.
Proof. unfold fexp, emin, prec, emax. lia. Qed.

Lemma round_nearest_even_bounds (m : Z) (l : location) :
  m <= round_nearest_even m l <= m + 1.
Proof.
  destruct l as [|[]]; cbn [round_nearest_even]; try lia.
  destruct (Z.even m); lia.
Qed.

Lemma loc_of_shr_record_of_loc (m : Z) (l : location) :
  loc_of_shr_record (shr_record_of_loc m l) = l.
Proof. destruct l as [|[]]; reflexivity. Qed.

Lemma shr_m_of_loc (m : Z) (l : location) : shr_m (shr_record_of_loc m l) = m.
Proof. destruct l as [|[]]; reflexivity. Qed.

(** A 53-bit mantissa is kept as it is. *)
Lemma shr_fexp_53 (q e : Z) (l : location) :
  2 ^ 52 <= q < 2 ^ 53 -> -1074 <= e ->
  shr_fexp prec emax q e l = (shr_record_of_loc q l, e).
Proof.
  intros Hq He. unfold shr_fexp.
  rewrite (Zdigits2_unique q 53) by (simpl; lia).
  rewrite fexp_normal by lia.
  replace (53 + e - 53 - e) with 0 by lia. reflexivity.
Qed.

(** A 54-bit mantissa loses its last bit. *)
Lemma shr_fexp_54 (q e : Z) (l : location) :
  2 ^ 53 <= q < 2 ^ 54 -> -1074 <= e ->
  shr_fexp prec emax q e l = (shr_1 (shr_record_of_loc q l), e + 1).
Proof.
  intros Hq He. unfold shr_fexp.
  rewrite (Zdigits2_unique q 54) by (simpl; lia).
  rewrite fexp_normal by lia.
  replace (54 + e - 53 - e) with 1 by lia. reflexivity.
Qed.

Lemma shr_1_halves (q : Z) (l : location) :
  2 <= q ->
  2 * shr_m (shr_1 (shr_record_of_loc q l)) <= q
    < 2 * shr_m (shr_1 (shr_record_of_loc q l)) + 2.
Proof.
  intros Hq. destruct q as [|p|p]; try lia.
  destruct l as [|[]]; destruct p; cbn [shr_record_of_loc shr_1 shr_m]; lia.
Qed.

(** Rounding a mantissa of 53 or 54 bits: the result is a normal float
    whose exponent moves up by at most one step past the alignment. *)
Lemma binary_round_aux_shape (s : bool) (q e : Z) (l : location) :
  2 ^ 52 <= q < 2 ^ 54 -> -1074 <= e <= 960 ->
  exists (m2 : positive) (e2 : Z),
    binary_round_aux prec emax s q e l = S754_finite s m2 e2 /\
    2 ^ 52 <= Z.pos m2 < 2 ^ 53 /\
    (let e1 := if q <? 2 ^ 53 then e else e + 1 in
     e2 = e1 \/ (e2 = e1 + 1 /\ Z.pos m2 = 2 ^ 52)) /\
    (q < 2 ^ 53 -> l = loc_Exact -> Z.pos m2 = q /\ e2 = e).
Proof.
  intros Hq He. unfold binary_round_aux.
  assert (Hstage1 : exists mrs1 e1,
             shr_fexp prec emax q e l = (mrs1, e1) /\
             e1 = (if q <? 2 ^ 53 then e else e + 1) /\
             2 ^ 52 <= shr_m mrs1 < 2 ^ 53 /\
             (q < 2 ^ 53 -> mrs1 = shr_record_of_loc q l)).
  { destruct (Z.ltb_spec q (2 ^ 53)) as [Hlt|Hge].
    - eexists _, _. split; [apply shr_fexp_53; lia|].
      rewrite shr_m_of_loc. repeat split; lia || auto.
    - eexists _, _. split; [apply shr_fexp_54; lia|].
      pose proof (shr_1_halves q l). repeat split; lia. }
  destruct Hstage1 as (mrs1 & e1 & -> & He1 & Hm1 & Hexact).
  pose proof (round_nearest_even_bounds (shr_m mrs1) (loc_of_shr_record mrs1))
    as Hrne.
  remember (round_nearest_even (shr_m mrs1) (loc_of_shr_record mrs1)) as q1
    eqn:Hq1def.
  assert (He1' : -1074 <= e1 <= 961) by (destruct (q <? 2 ^ 53); lia).
  destruct (Z.eq_dec q1 (2 ^ 53)) as [Hcarry|Hnocarry].
  - rewrite Hcarry, (shr_fexp_54 (2 ^ 53) e1 loc_Exact) by lia.
    cbn [shr_record_of_loc shr_1 shr_m Z.pow Z.pow_pos Pos.iter Z.mul Pos.mul].
    replace (e1 + 1 <=? emax - prec) with true
      by (symmetry; apply Z.leb_le; unfold emax, prec; lia).
    eexists _, _. split; [reflexivity|]. rewrite <- He1.
    split; [simpl; lia|]. split; [right; split; [reflexivity|simpl; lia]|].
    intros Hlt ->. exfalso. rewrite (Hexact Hlt) in Hq1def.
    cbn [shr_record_of_loc loc_of_shr_record round_nearest_even shr_m]
      in Hq1def.
    lia.
  - rewrite (shr_fexp_53 q1 e1 loc_Exact) by lia.
    cbn [shr_record_of_loc shr_m].
    destruct q1 as [|m2|m2]; try lia.
    replace (e1 <=? emax - prec) with true
      by (symmetry; apply Z.leb_le; unfold emax, prec; lia).
    eexists _, _. split; [reflexivity|]. rewrite <- He1.
    split; [lia|]. split; [left; reflexivity|].
    intros Hlt ->. rewrite (Hexact Hlt) in Hq1def.
    cbn [shr_record_of_loc loc_of_shr_record round_nearest_even shr_m]
      in Hq1def.
    split; [lia|]. rewrite He1.
    destruct (Z.ltb_spec q (2 ^ 53)); [reflexivity|lia].
Qed.

(** ** Division of ints below 2^53 *)

Lemma digits_small (p : positive) :
  Z.pos p < 2 ^ 53 -> 1 <= Z.pos (digits2_pos p) <= 53.
Proof.
  intros Hp. split; [lia|].
  pose proof (digits2_pos_bounds p) as [Hlo _].
  destruct (Z_le_gt_dec (Z.pos (digits2_pos p)) 53) as [|Hgt]; [assumption|].
  pose proof (Z.pow_le_mono_r 2 53 (Z.pos (digits2_pos p) - 1)). lia.
Qed.

Lemma digits_mono (p q : positive) :
  Z.pos p <= Z.pos q -> Z.pos (digits2_pos p) <= Z.pos (digits2_pos q).
Proof.
  intros Hpq.
  pose proof (digits2_pos_bounds p) as [Hlo _].
  pose proof (digits2_pos_bounds q) as [_ Hhi].
  destruct (Z_le_gt_dec (Z.pos (digits2_pos p)) (Z.pos (digits2_pos q)))
    as [|Hgt]; [assumption|].
  pose proof (Z.pow_le_mono_r 2 (Z.pos (digits2_pos q))
                (Z.pos (digits2_pos p) - 1)). lia.
Qed.

Lemma div_eucl_div_mod (a b : Z) : Z.div_eucl a b = (a / b, a mod b).
Proof. unfold Z.div, Z.modulo. destruct (Z.div_eucl a b). reflexivity. Qed.

(** The quotient of the core division carries 53 or 54 bits. *)
Lemma SFdiv_core_small (a b : positive) :
  Z.pos a < 2 ^ 53 -> Z.pos b < 2 ^ 53 ->
  let e' := Z.pos (digits2_pos a) - Z.pos (digits2_pos b) - 53 in
  let q := (Z.pos a * 2 ^ (- e')) / Z.pos b in
  SFdiv_core_binary prec emax (Z.pos a) 0 (Z.pos b) 0
    = (q, e', new_location (Z.pos b) ((Z.pos a * 2 ^ (- e')) mod Z.pos b)) /\
  2 ^ 52 <= q < 2 ^ 54.
Proof.
  intros Ha Hb e' q.
  pose proof (digits_small a Ha) as Hda.
  pose proof (digits_small b Hb) as Hdb.
  pose proof (digits2_pos_bounds a) as [Halo Hahi].
  pose proof (digits2_pos_bounds b) as [Hblo Hbhi].
  split.
  - unfold SFdiv_core_binary. cbn [Zdigits2].
    rewrite !Z.add_0_r, fexp_normal by lia.
    replace (Z.min (Z.pos (digits2_pos a) - Z.pos (digits2_pos b) - 53) (0 - 0))
      with e' by (subst e'; lia).
    replace (0 - 0 - e') with (- e') by lia.
    subst q. destruct (- e') as [|s|s] eqn:Hs; try (subst e'; lia).
    rewrite Z.shiftl_mul_pow2 by lia.
    rewrite div_eucl_div_mod. reflexivity.
  - assert (Hs : 0 <= - e') by (subst e'; lia).
    assert (Hpow_lo : 2 ^ 52 * 2 ^ Z.pos (digits2_pos b)
                      = 2 ^ (Z.pos (digits2_pos a) - 1) * 2 ^ (- e')).
    { rewrite <- !Z.pow_add_r by lia. f_equal. subst e'. lia. }
    assert (Hpow_hi : 2 ^ 54 * 2 ^ (Z.pos (digits2_pos b) - 1)
                      = 2 ^ Z.pos (digits2_pos a) * 2 ^ (- e')).
    { rewrite <- !Z.pow_add_r by lia. f_equal. subst e'. lia. }
    assert (Hp : 0 < 2 ^ (- e')) by (apply Z.pow_pos_nonneg; lia).
    subst q. split.
    + apply Z.div_le_lower_bound; [lia|]. nia.
    + apply Z.div_lt_upper_bound; [lia|]. nia.
Qed.

Lemma truediv_small (a b : positive) :
  Z.pos a < 2 ^ 53 -> Z.pos b < 2 ^ 53 ->
  exists (m2 : positive) (e2 : Z),
    truediv_int (Z.pos a) (Z.pos b) = Ok (S754_finite false m2 e2) /\
    2 ^ 52 <= Z.pos m2 < 2 ^ 53 /\
    (let e' := Z.pos (digits2_pos a) - Z.pos (digits2_pos b) - 53 in
     let e1 := if (Z.pos a * 2 ^ (- e')) / Z.pos b <? 2 ^ 53
               then e' else e' + 1 in
     e2 = e1 \/ (e2 = e1 + 1 /\ Z.pos m2 = 2 ^ 52)).
Proof.
  intros Ha Hb.
  destruct (SFdiv_core_small a b Ha Hb) as [Hcore Hq].
  pose proof (digits_small a Ha) as Hda.
  pose proof (digits_small b Hb) as Hdb.
  cbv zeta in Hcore, Hq.
  set (e' := Z.pos (digits2_pos a) - Z.pos (digits2_pos b) - 53) in *.
  set (q := Z.pos a * 2 ^ (- e') / Z.pos b) in *.
  destruct (binary_round_aux_shape false q e'
              (new_location (Z.pos b) ((Z.pos a * 2 ^ (- e')) mod Z.pos b)))
    as (m2 & e2 & Hround & Hm2 & Hshape & _); [lia|subst e'; lia|].
  exists m2, e2. split; [|split; [exact Hm2|exact Hshape]].
  unfold truediv_int. cbn [Z.eqb Z.ltb Z.compare SFdiv xorb].
  change (Z.to_pos (Z.abs (Z.pos a))) with a.
  change (Z.to_pos (Z.abs (Z.pos b))) with b.
  rewrite Hcore, Hround. reflexivity.
Qed.

(** [a / a] is exactly 1.0. *)
Lemma truediv_self (a : positive) :
  Z.pos a < 2 ^ 53 -> truediv_int (Z.pos a) (Z.pos a) = Ok one.
Proof.
  intros Ha.
  destruct (SFdiv_core_small a a Ha Ha) as [Hcore _].
  cbv zeta in Hcore.
  replace (Z.pos (digits2_pos a) - Z.pos (digits2_pos a) - 53) with (-53)
    in Hcore by lia.
  rewrite (Z.mul_comm (Z.pos a)), Z.div_mul, Z.mod_mul in Hcore by lia.
  unfold truediv_int. cbn [Z.eqb Z.ltb Z.compare SFdiv xorb].
  change (Z.to_pos (Z.abs (Z.pos a))) with a.
  rewrite Hcore. unfold new_location, new_location_even, new_location_odd.
  destruct (Z.even (Z.pos a)); reflexivity.
Qed.

(** A quotient of at least one is a float that is not below 1.0 ... *)
Lemma truediv_ge_one (a b : positive) :
  Z.pos b <= Z.pos a < 2 ^ 53 ->
  exists (m2 : positive) (e2 : Z),
    truediv_int (Z.pos a) (Z.pos b) = Ok (S754_finite false m2 e2) /\
    2 ^ 52 <= Z.pos m2 /\ -52 <= e2.
Proof.
  intros [Hba Ha].
  destruct (truediv_small a b) as (m2 & e2 & Hdiv & Hm2 & Hshape);
    [lia|lia|].
  exists m2, e2. split; [exact Hdiv|]. split; [lia|].
  pose proof (digits_mono b a Hba) as Hd.
  cbv zeta in Hshape.
  destruct (Z.eq_dec (Z.pos (digits2_pos a)) (Z.pos (digits2_pos b)))
    as [Heq|Hne].
  - rewrite Heq in Hshape.
    replace (Z.pos (digits2_pos b) - Z.pos (digits2_pos b) - 53) with (-53)
      in Hshape by lia.
    assert (Hq : 2 ^ 53 <= Z.pos a * 2 ^ (- -53) / Z.pos b).
    { apply Z.div_le_lower_bound; [lia|]. simpl. nia. }
    destruct (Z.ltb_spec (Z.pos a * 2 ^ (- -53) / Z.pos b) (2 ^ 53)); lia.
  - destruct (_ <? _); lia.
Qed.

(** ... and a quotient below one is a float that is not above 1.0. *)
Lemma truediv_lt_one (a b : positive) :
  Z.pos a < Z.pos b < 2 ^ 53 ->
  exists (m2 : positive) (e2 : Z),
    truediv_int (Z.pos a) (Z.pos b) = Ok (S754_finite false m2 e2) /\
    (e2 <= -53 \/ (e2 = -52 /\ Z.pos m2 = 2 ^ 52)).
Proof.
  intros [Hab Hb].
  destruct (truediv_small a b) as (m2 & e2 & Hdiv & Hm2 & Hshape);
    [lia|lia|].
  exists m2, e2. split; [exact Hdiv|].
  assert (Hd : Z.pos (digits2_pos a) <= Z.pos (digits2_pos b))
    by (apply digits_mono; lia).
  cbv zeta in Hshape.
  destruct (Z.eq_dec (Z.pos (digits2_pos a)) (Z.pos (digits2_pos b)))
    as [Heq|Hne].
  - rewrite Heq in Hshape.
    replace (Z.pos (digits2_pos b) - Z.pos (digits2_pos b) - 53) with (-53)
      in Hshape by lia.
    assert (Hq : Z.pos a * 2 ^ (- -53) / Z.pos b < 2 ^ 53).
    { apply Z.div_lt_upper_bound; [lia|]. simpl. nia. }
    destruct (Z.ltb_spec (Z.pos a * 2 ^ (- -53) / Z.pos b) (2 ^ 53)); lia.
  - destruct (_ <? _); lia.
Qed.

(** ** Comparisons with 1.0 *)

Lemma ltb_finite (m1 m2 : positive) (e1 e2 : Z) :
  ltb (S754_finite false m1 e1) (S754_finite false m2 e2) = true <->
  e1 < e2 \/ (e1 = e2 /\ Z.pos m1 < Z.pos m2).
Proof.
  unfold ltb, SFltb, SFcompare.
  rewrite Pos.compare_cont_spec. cbn [Pos.switch_Eq].
  destruct (Z.compare_spec e1 e2) as [Heq|Hlt|Hgt].
  - rewrite (Pos2Z.inj_compare m1 m2).
    destruct (Z.compare_spec (Z.pos m1) (Z.pos m2)); split;
      try discriminate; try reflexivity; try lia.
  - split; [intros _; left; exact Hlt|reflexivity].
  - split; [discriminate|lia].
Qed.

Lemma ltb_finite_false (m1 m2 : positive) (e1 e2 : Z) :
  ltb (S754_finite false m1 e1) (S754_finite false m2 e2) = false <->
  e2 < e1 \/ (e1 = e2 /\ Z.pos m2 <= Z.pos m1).
Proof.
  pose proof (ltb_finite m1 m2 e1 e2) as H.
  destruct (ltb _ _); split; intros H'; try discriminate; try reflexivity.
  - exfalso. destruct H as [H _]. specialize (H eq_refl). lia.
  - destruct (Z.lt_trichotomy e1 e2) as [Hlt|[Heq|Hgt]].
    + destruct H as [_ H]. discriminate H. left. exact Hlt.
    + right. split; [exact Heq|].
      destruct (Z_lt_le_dec (Z.pos m1) (Z.pos m2)) as [Hm|Hm]; [|exact Hm].
      destruct H as [_ H]. discriminate H. right. split; assumption.
    + left. exact Hgt.
Qed.

Lemma py_min_one_above (m2 : positive) (e2 : Z) :
  2 ^ 52 <= Z.pos m2 -> -52 <= e2 ->
  py_min one (S754_finite false m2 e2) = one /\
  py_min (S754_finite false m2 e2) one = one.
Proof.
  intros Hm He. unfold py_min, one. split.
  - replace (ltb (S754_finite false m2 e2)
               (S754_finite false 4503599627370496 (-52))) with false;
      [reflexivity|].
    symmetry. apply ltb_finite_false. lia.
  - destruct (ltb (S754_finite false 4503599627370496 (-52))
                (S754_finite false m2 e2)) eqn:Hlt; [reflexivity|].
    apply ltb_finite_false in Hlt.
    assert (He2 : e2 = -52) by lia.
    assert (Hm2 : Z.pos m2 = Z.pos 4503599627370496) by lia.
    injection Hm2 as ->. subst e2. reflexivity.
Qed.

Lemma py_max_one_below (m2 : positive) (e2 : Z) :
  e2 <= -53 \/ (e2 = -52 /\ Z.pos m2 = 2 ^ 52) ->
  py_max one (S754_finite false m2 e2) = one /\
  py_max (S754_finite false m2 e2) one = one.
Proof.
  intros H. unfold py_max, one. split.
  - replace (ltb (S754_finite false 4503599627370496 (-52))
               (S754_finite false m2 e2)) with false;
      [reflexivity|].
    symmetry. apply ltb_finite_false. lia.
  - destruct (ltb (S754_finite false m2 e2)
                (S754_finite false 4503599627370496 (-52))) eqn:Hlt;
      [reflexivity|].
    apply ltb_finite_false in Hlt.
    assert (He2 : e2 = -52) by lia.
    assert (Hm2 : Z.pos m2 = Z.pos 4503599627370496) by lia.
    injection Hm2 as ->. subst e2. reflexivity.
Qed.

(** ** Multiplying an int below 2^53 by 1.0 *)

Lemma iter_xO_pow2 (p k : positive) :
  Z.pos (Pos.iter xO p k) = Z.pos p * 2 ^ Z.pos k.
Proof.
  change (Pos.iter xO p k) with (shift (Z.pos k) p).
  rewrite shift_equiv, Z.shiftl_mul_pow2 by lia. reflexivity.
Qed.

(** [float(w)] is exact: a 53-bit mantissa holding [w] shifted left. *)
Lemma of_int_small (p : positive) :
  Z.pos p < 2 ^ 53 ->
  exists (mz : positive) (ez : Z),
    of_int (Z.pos p) = Ok (S754_finite false mz ez) /\
    2 ^ 52 <= Z.pos mz < 2 ^ 53 /\ -52 <= ez <= 0 /\
    Z.pos mz = Z.pos p * 2 ^ (- ez).
Proof.
  intros Hp.
  pose proof (digits_small p Hp) as Hd.
  pose proof (digits2_pos_bounds p) as [Hlo Hhi].
  unfold of_int, binary_normalize, binary_round, shl_align.
  rewrite Z.add_0_r, fexp_normal by lia.
  set (d := Z.pos (digits2_pos p)) in *.
  assert (Hshift : exists mz,
             (match d - 53 - 0 with
              | Z.neg k => (Pos.iter xO p k, d - 53)
              | _ => (p, 0)
              end) = (mz, d - 53) /\ Z.pos mz = Z.pos p * 2 ^ (53 - d)).
  { destruct (d - 53 - 0) as [|k|k] eqn:Hk; try lia.
    - exists p. replace (d - 53) with 0 by lia.
      replace (53 - d) with 0 by lia. split; [reflexivity|lia].
    - exists (Pos.iter xO p k). split; [reflexivity|].
      rewrite iter_xO_pow2. f_equal. f_equal. lia. }
  destruct Hshift as (mz & -> & Hmz).
  assert (Hbounds : 2 ^ 52 <= Z.pos mz < 2 ^ 53).
  { assert (Hp52 : 2 ^ (d - 1) * 2 ^ (53 - d) = 2 ^ 52)
      by (rewrite <- Z.pow_add_r by lia; f_equal; lia).
    assert (Hp53 : 2 ^ d * 2 ^ (53 - d) = 2 ^ 53)
      by (rewrite <- Z.pow_add_r by lia; f_equal; lia).
    assert (0 < 2 ^ (53 - d)) by (apply Z.pow_pos_nonneg; lia).
    rewrite Hmz. nia. }
  destruct (binary_round_aux_shape false (Z.pos mz) (d - 53) loc_Exact)
    as (m2 & e2 & Hround & _ & _ & Hexact); [lia|lia|].
  destruct Hexact as [Hm2 He2]; [lia|reflexivity|].
  injection Hm2 as ->. subst e2.
  exists mz, (d - 53). rewrite Hround.
  split; [reflexivity|]. split; [exact Hbounds|]. split; [lia|].
  rewrite Hmz. f_equal. f_equal. lia.
Qed.

(** [x * 1.0] is [x] for a normal float [x]. *)
Lemma mul_one (mz : positive) (ez : Z) :
  2 ^ 52 <= Z.pos mz < 2 ^ 53 -> -1000 <= ez <= 900 ->
  mul (S754_finite false mz ez) one = S754_finite false mz ez.
Proof.
  intros Hm He. unfold mul, SFmul, one, binary_round_aux. cbn [xorb].
  assert (Hprod : Z.pos (mz * 4503599627370496) = Z.pos mz * 2 ^ 52)
    by (rewrite Pos2Z.inj_mul; reflexivity).
  assert (Hstage1 :
            shr_fexp prec emax (Z.pos (mz * 4503599627370496)) (ez + -52)
              loc_Exact
            = ({| shr_m := Z.pos mz; shr_r := false; shr_s := false |}, ez)).
  { unfold shr_fexp.
    rewrite (Zdigits2_unique (Z.pos (mz * 4503599627370496)) 105)
      by (try rewrite Hprod; simpl; lia).
    rewrite fexp_normal by lia.
    replace (105 + (ez + -52) - 53 - (ez + -52)) with 52 by lia.
    rewrite Pos.mul_comm. cbn [shr shr_record_of_loc].
    replace (ez + -52 + 52) with ez by lia.
    reflexivity. }
  rewrite Hstage1. cbn [shr_m loc_of_shr_record round_nearest_even].
  rewrite (shr_fexp_53 (Z.pos mz) ez loc_Exact) by lia.
  cbn [shr_record_of_loc shr_m].
  replace (ez <=? emax - prec) with true
    by (symmetry; apply Z.leb_le; unfold emax, prec; lia).
  reflexivity.
Qed.

Lemma target_dimension_fixed (w : Z) :
  0 < w < 2 ^ 53 ->
  exists pw : float, int_mul w one = Ok pw /\ to_int pw = Ok w.
Proof.
  intros Hw. destruct w as [|p|p]; try lia.
  destruct (of_int_small p) as (mz & ez & Hconv & Hmz & Hez & Hval); [lia|].
  exists (S754_finite false mz ez). unfold int_mul. rewrite Hconv.
  simpl_bind. rewrite mul_one by lia.
  split; [reflexivity|].
  unfold to_int, cond_Zopp. f_equal.
  rewrite Z.shiftl_div_pow2 by lia. rewrite Hval.
  apply Z.div_mul. apply Z.pow_nonzero; lia.
Qed.

Lemma new_size_one (w h : Z) :
  0 < w < 2 ^ 53 -> 0 < h < 2 ^ 53 -> new_size w h one = Ok (w, h).
Proof.
  intros Hw Hh. unfold new_size.
  destruct (target_dimension_fixed w Hw) as (pw & -> & Hiw).
  simpl_bind. rewrite Hiw. simpl_bind.
  destruct (target_dimension_fixed h Hh) as (ph & -> & Hih).
  simpl_bind. rewrite Hih. reflexivity.
Qed.

(** ** An image that already meets its bound *)

Lemma scale_ratio_max_met (w h : Z) (min_size : option Z) :
  0 < w < 2 ^ 53 -> 0 < h < 2 ^ 53 ->
  scale_ratio w h (Some (Z.max w h)) min_size = Ok one.
Proof.
  intros Hw Hh. unfold scale_ratio.
  destruct w as [|a|a]; try lia. destruct h as [|b|b]; try lia.
  destruct (Z.max_spec (Z.pos a) (Z.pos b)) as [[Hlt ->]|[Hle ->]].
  - destruct (truediv_ge_one b a) as (m2 & e2 & -> & Hm2 & He2); [lia|].
    rewrite truediv_self by lia. simpl_bind.
    f_equal. apply py_min_one_above; assumption.
  - rewrite truediv_self by lia.
    destruct (truediv_ge_one a b) as (m2 & e2 & -> & Hm2 & He2); [lia|].
    simpl_bind.
    f_equal. apply py_min_one_above; assumption.
Qed.

Lemma scale_ratio_min_met (w h : Z) :
  0 < w < 2 ^ 53 -> 0 < h < 2 ^ 53 ->
  scale_ratio w h None (Some (Z.min w h)) = Ok one.
Proof.
  intros Hw Hh. unfold scale_ratio.
  destruct w as [|a|a]; try lia. destruct h as [|b|b]; try lia.
  destruct (Z.min_spec (Z.pos a) (Z.pos b)) as [[Hlt ->]|[Hle ->]].
  - rewrite truediv_self by lia.
    destruct (truediv_lt_one a b) as (m2 & e2 & -> & Hshape); [lia|].
    simpl_bind.
    f_equal. apply py_max_one_below; assumption.
  - destruct (Z.eq_dec (Z.pos b) (Z.pos a)) as [Heq|Hne].
    + injection Heq as ->. rewrite truediv_self by lia. reflexivity.
    + destruct (truediv_lt_one b a) as (m2 & e2 & -> & Hshape); [lia|].
      rewrite truediv_self by lia. simpl_bind.
      f_equal. apply py_max_one_below; assumption.
Qed.

(** C8: when the longer edge of an image already equals [max_size], or
    its shorter edge already equals [min_size] (with [max_size] unset),
    the size computed for it is its own size, exactly.  Dimensions are
    those a double holds exactly (below 2^53). *)
Theorem C8_size_unchanged_when_bound_met (w h : Z)
    (max_size min_size : option Z) :
  0 < w < 2 ^ 53 -> 0 < h < 2 ^ 53 ->
  max_size = Some (Z.max w h) \/
  (max_size = None /\ min_size = Some (Z.min w h)) ->
  target_size w h max_size min_size = Ok (w, h).
Proof.
  intros Hw Hh Hbound. unfold target_size.
  destruct Hbound as [->|[-> ->]].
  - rewrite scale_ratio_max_met by assumption.
    simpl_bind. apply new_size_one; assumption.
  - rewrite scale_ratio_min_met by assumption.
    simpl_bind. apply new_size_one; assumption.
Qed.

Lemma C8_size_unchanged_witness :
  target_size 800 600 (Some 800) None = Ok (800, 600) /\
  target_size 300 500 None (Some 300) = Ok (300, 500).
Proof.
  split.
  - apply (C8_size_unchanged_when_bound_met 800 600 (Some 800) None);
      [lia|lia|left; reflexivity].
  - apply (C8_size_unchanged_when_bound_met 300 500 None (Some 300));
      [lia|lia|right; split; reflexivity].
Defined.

(** ** Facts about [resize_image] *)

Lemma save_params_format (extension save_format : string) :
  save_params_for extension save_format !! "format" = Some (PStr save_format).
Proof.
  unfold save_params_for.
  repeat case_bool_decide;
    repeat (rewrite lookup_insert_ne by discriminate);
    apply lookup_singleton_eq.
Qed.

(** What [save] has done when it returns. *)
Lemma save_Ok (fs : fsys) (img : Image) (path : string)
    (params : gmap string param) (fs' : fsys) :
  save fs img path params = Ok fs' ->
  isdir fs path = false /\
  dir_check fs (dirname path) = Ok tt /\
  fs' = write_files fs (<[path := encode img params]> (files fs)).
Proof.
  unfold save. destruct (isdir fs path); [discriminate|].
  destruct (dir_check fs (dirname path)) as [[]|e]; simpl_bind;
    [|discriminate].
  intros [= <-]. auto.
Qed.

(** The file written for an RGB image without metadata. *)
Lemma encode_rgb (nw nh : Z) (extension save_format : string) :
  encode {| format := None; mode := "RGB"; width := nw; height := nh;
            info := ∅ |} (save_params_for extension save_format)
  = Encoded {| format := Some save_format;
               mode := stored_mode (Some save_format) "RGB";
               width := nw; height := nh; info := ∅ |}
            (save_params_for extension save_format).
Proof. unfold encode. rewrite save_params_format. reflexivity. Qed.

(** The call on a readable image, given the size computed for it. *)
Lemma resize_image_of_size (fs : fsys) (image_path output_path : string)
    (max_size min_size : option Z) (keep_format : bool)
    (img : Image) (params0 : gmap string param) (nw nh : Z) :
  files fs !! image_path = Some (Encoded img params0) ->
  target_size (width img) (height img) max_size min_size = Ok (nw, nh) ->
  resize_image fs image_path output_path max_size min_size keep_format
  = if negb (c_int nw && c_int nh) then Err OverflowError
    else if (nw <? 1) || (nh <? 1)
    then Err (ValueError "height and width must be > 0")
    else
      let ext := (select_format keep_format (original_format_of img)).1 in
      let fmt := (select_format keep_format (original_format_of img)).2 in
      save fs {| format := None; mode := "RGB";
                 width := nw; height := nh; info := ∅ |}
           ((splitext output_path).1 +:+ "." +:+ ext)
           (save_params_for ext fmt).
Proof.
  intros Hfile Hsize. unfold resize_image, Image_open. rewrite Hfile.
  cbn [mbind result_bind convert width height]. rewrite Hsize.
  simpl_bind. unfold resize. cbn [fst snd].
  destruct (negb (c_int nw && c_int nh)); [reflexivity|].
  destruct ((nw <? 1) || (nh <? 1)); [reflexivity|].
  simpl_bind.
  destruct (select_format keep_format (original_format_of img))
    as [extension save_format].
  reflexivity.
Qed.

(** What a successful call has done: it read an image at [image_path],
    found a size of at least 1x1 that fits C ints, and wrote one file,
    into a directory that exists. *)
Lemma resize_image_Ok (fs : fsys) (image_path output_path : string)
    (max_size min_size : option Z) (keep_format : bool) (fs' : fsys) :
  resize_image fs image_path output_path max_size min_size keep_format = Ok fs' ->
  exists (img : Image) (params0 : gmap string param) (nw nh : Z),
    files fs !! image_path = Some (Encoded img params0) /\
    target_size (width img) (height img) max_size min_size = Ok (nw, nh) /\
    1 <= nw /\ 1 <= nh /\
    let ext := (select_format keep_format (original_format_of img)).1 in
    let fmt := (select_format keep_format (original_format_of img)).2 in
    save fs {| format := None; mode := "RGB";
               width := nw; height := nh; info := ∅ |}
         ((splitext output_path).1 +:+ "." +:+ ext)
         (save_params_for ext fmt) = Ok fs' /\
    fs' = write_files fs
            (<[(splitext output_path).1 +:+ "." +:+ ext :=
                 Encoded {| format := Some fmt;
                            mode := stored_mode (Some fmt) "RGB";
                            width := nw; height := nh; info := ∅ |}
                         (save_params_for ext fmt)]> (files fs)).
Proof.
  intros Hrun.
  assert (Hopen : exists img params0,
             files fs !! image_path = Some (Encoded img params0)).
  { unfold resize_image, Image_open in Hrun.
    destruct (files fs !! image_path) as [[img params0|]|];
      [eauto|discriminate|discriminate]. }
  destruct Hopen as (img & params0 & Hfile).
  assert (Hsize : exists nw nh,
             target_size (width img) (height img) max_size min_size
             = Ok (nw, nh)).
  { unfold resize_image, Image_open in Hrun. rewrite Hfile in Hrun.
    cbn [mbind result_bind convert width height] in Hrun.
    destruct (target_size _ _ _ _) as [[nw nh]|]; [eauto|discriminate]. }
  destruct Hsize as (nw & nh & Hsize).
  rewrite (resize_image_of_size _ _ _ _ _ _ img params0 nw nh Hfile Hsize)
    in Hrun.
  destruct (negb (c_int nw && c_int nh)); [discriminate|].
  destruct (nw <? 1) eqn:Hw; [discriminate|].
  destruct (nh <? 1) eqn:Hh; [discriminate|].
  cbn [orb] in Hrun. cbn zeta in Hrun.
  exists img, params0, nw, nh.
  split; [exact Hfile|]. split; [exact Hsize|].
  split; [lia|]. split; [lia|]. cbn zeta. split; [exact Hrun|].
  apply save_Ok in Hrun as (_ & _ & ->). by rewrite encode_rgb.
Qed.

Lemma valid_formats_lookup (f : string) :
  valid_formats !! f =
    if bool_decide (f ∈ supported_formats) then Some (canonical_extension f)
    else None.
Proof.
  unfold valid_formats, supported_formats, canonical_extension.
  destruct (decide (f = "JPEG")) as [->|H1]; [reflexivity|].
  rewrite lookup_insert_ne by congruence.
  destruct (decide (f = "PNG")) as [->|H2]; [reflexivity|].
  rewrite lookup_insert_ne by congruence.
  destruct (decide (f = "BMP")) as [->|H3]; [reflexivity|].
  rewrite lookup_insert_ne by congruence.
  destruct (decide (f = "GIF")) as [->|H4]; [reflexivity|].
  rewrite lookup_insert_ne by congruence.
  rewrite lookup_empty, bool_decide_eq_false_2; [reflexivity|].
  rewrite !elem_of_cons, elem_of_nil. intuition.
Qed.

Lemma select_format_policy (keep_format : bool) (recorded : option string) :
  select_format keep_format recorded = format_policy keep_format recorded.
Proof.
  unfold select_format, format_policy.
  destruct recorded as [f|]; [|destruct keep_format; reflexivity].
  rewrite valid_formats_lookup.
  destruct keep_format, (bool_decide (f ∈ supported_formats)); reflexivity.
Qed.

(** The format has to be read before the conversion: the converted image
    has none. *)
Lemma original_format_after_convert (img : Image) (m : string) :
  original_format_of (convert img m) = None.
Proof. reflexivity. Qed.

Lemma sample_resize :
  resize_image sample_fs "in/c.jpg" "OUT/c.jpg" (Some 800) None true
  = Ok sample_resized_fs.
Proof. vm_compute. reflexivity. Qed.

(** C4: when [resize_image] succeeds on a source image, the file it
    writes follows the format policy: with [keep_format] and a recorded
    format (the upper-cased format of the image as opened, before the RGB
    conversion) among JPEG, PNG, BMP, GIF, the written file has that
    format and the extension jpg, png, bmp or gif; in every other case it
    is a PNG file with extension png. *)
Theorem C4_output_format (fs : fsys) (image_path output_path : string)
    (max_size min_size : option Z) (keep_format : bool) (fs' : fsys)
    (img : Image) :
  Image_open (files fs) image_path = Ok img ->
  resize_image fs image_path output_path max_size min_size keep_format = Ok fs' ->
  exists (out : Image) (params : gmap string param),
    files fs' !! ((splitext output_path).1 +:+ "." +:+
                  (format_policy keep_format (original_format_of img)).1)
      = Some (Encoded out params) /\
    format out = Some (format_policy keep_format (original_format_of img)).2 /\
    params !! "format"
      = Some (PStr (format_policy keep_format (original_format_of img)).2).
Proof.
  intros Hopen Hrun.
  destruct (resize_image_Ok _ _ _ _ _ _ _ Hrun)
    as (img' & params0 & nw & nh & Hfile & _ & _ & _ & _ & ->).
  unfold Image_open in Hopen. rewrite Hfile in Hopen.
  injection Hopen as ->.
  rewrite select_format_policy.
  eexists _, _. split; [|split].
  - cbn [files write_files]. apply lookup_insert_eq.
  - reflexivity.
  - apply save_params_format.
Qed.

Lemma C4_output_format_witness :
  exists (out : Image) (params : gmap string param),
    files sample_resized_fs !! "OUT/c.jpg" = Some (Encoded out params) /\
    format out = Some "JPEG" /\
    params !! "format" = Some (PStr "JPEG").
Proof.
  apply (C4_output_format sample_fs "in/c.jpg" "OUT/c.jpg" (Some 800) None
           true sample_resized_fs sample_image).
  - reflexivity.
  - vm_compute. reflexivity.
Defined.

(** The format [select_format] picks is GIF only with [keep_format] on a
    source recorded as GIF. *)
Lemma select_format_gif (keep_format : bool) (recorded : option string) :
  (select_format keep_format recorded).2 = "GIF" ->
  keep_format = true /\ recorded = Some "GIF".
Proof.
  unfold select_format.
  destruct keep_format; [|discriminate].
  destruct recorded as [f|]; [|discriminate].
  destruct (valid_formats !! f); cbn [snd]; [|discriminate].
  by intros ->.
Qed.

(** A 640x480 GIF at [a.gif]. *)
Lemma sample_gif_resize :
  resize_image (single_image_fs "a.gif" "GIF" "P" 640 480) "a.gif" "b.gif"
               (Some 320) None true
  = Ok (write_files (single_image_fs "a.gif" "GIF" "P" 640 480)
          (<["b.gif" :=
               Encoded {| format := Some "GIF"; mode := "P";
                          width := 320; height := 240; info := ∅ |}
                       (save_params_for "gif" "GIF")]>
             (files (single_image_fs "a.gif" "GIF" "P" 640 480)))).
Proof. vm_compute. reflexivity. Qed.

(** C7, at a counterexample: a GIF resized with [keep_format] is written
    as a GIF, and a GIF file holds a palette image.  The image was
    converted to RGB on line 13 and handed to [save] in that mode, but the
    file written is in mode P, not RGB. *)
Lemma C7_kept_gif_is_not_rgb :
  exists (fs' : fsys) (out : Image) (params : gmap string param),
    resize_image (single_image_fs "a.gif" "GIF" "P" 640 480) "a.gif" "b.gif"
                 (Some 320) None true = Ok fs' /\
    files fs' !! "b.gif" = Some (Encoded out params) /\
    format out = Some "GIF" /\ mode out = "P" /\ mode out <> "RGB".
Proof.
  eexists _, _, _. split; [exact sample_gif_resize|].
  split; [vm_compute; reflexivity|]. cbn [format mode].
  split; [reflexivity|]. split; [reflexivity|]. discriminate.
Qed.

(** C7, as amended: when [resize_image] succeeds, the image it hands to
    [save] is in mode RGB, whatever the mode of the source (an RGB source
    included), and has an empty metadata dictionary, so that the file
    written carries no metadata.  The file stores RGB pixels unless it is
    a GIF, which holds a palette image (mode P); it is a GIF only with
    [keep_format] on a source recorded as GIF. *)
Theorem C7_output_rgb_without_metadata (fs : fsys)
    (image_path output_path : string) (max_size min_size : option Z)
    (keep_format : bool) (fs' : fsys) :
  resize_image fs image_path output_path max_size min_size keep_format = Ok fs' ->
  exists (img resized : Image) (path : string) (params : gmap string param)
         (out : Image),
    Image_open (files fs) image_path = Ok img /\
    save fs resized path params = Ok fs' /\
    mode resized = "RGB" /\ info resized = ∅ /\
    files fs' !! path = Some (Encoded out params) /\
    info out = ∅ /\
    (format out <> Some "GIF" -> mode out = "RGB") /\
    (format out = Some "GIF" ->
     mode out = "P" /\ keep_format = true /\
     original_format_of img = Some "GIF").
Proof.
  intros Hrun.
  destruct (resize_image_Ok _ _ _ _ _ _ _ Hrun)
    as (img & params0 & nw & nh & Hfile & _ & _ & _ & Hsave & Hfs').
  cbn zeta in Hsave, Hfs'.
  eexists img, _, _, _, _.
  split; [unfold Image_open; by rewrite Hfile|].
  split; [exact Hsave|]. split; [reflexivity|]. split; [reflexivity|].
  split; [rewrite Hfs'; cbn [files write_files]; apply lookup_insert_eq|].
  split; [reflexivity|]. cbn [format mode]. unfold stored_mode.
  split.
  - intros Hfmt. rewrite bool_decide_eq_false_2 by exact Hfmt. reflexivity.
  - intros Hfmt. rewrite bool_decide_eq_true_2 by exact Hfmt.
    split; [reflexivity|]. apply select_format_gif. congruence.
Qed.

Lemma C7_output_rgb_without_metadata_witness :
  exists (img resized : Image) (path : string) (params : gmap string param)
         (out : Image),
    Image_open (files sample_fs) "in/c.jpg" = Ok img /\
    save sample_fs resized path params = Ok sample_resized_fs /\
    mode resized = "RGB" /\ info resized = ∅ /\
    files sample_resized_fs !! path = Some (Encoded out params) /\
    info out = ∅ /\
    (format out <> Some "GIF" -> mode out = "RGB") /\
    (format out = Some "GIF" ->
     mode out = "P" /\ true = true /\
     original_format_of img = Some "GIF").
Proof.
  apply (C7_output_rgb_without_metadata sample_fs "in/c.jpg" "OUT/c.jpg"
           (Some 800) None true sample_resized_fs).
  vm_compute. reflexivity.
Defined.

Lemma truediv_int_error (a b : Z) (e : exn) :
  truediv_int a b = Err e -> e = ZeroDivisionError \/ e = OverflowError.
Proof.
  unfold truediv_int.
  destruct (b =? 0); [intros [= <-]; auto|].
  destruct (a =? 0); [discriminate|].
  destruct (SFdiv _ _ _ _); try discriminate. intros [= <-]. auto.
Qed.

Lemma scale_ratio_error (w h : Z) (max_size min_size : option Z) (e : exn) :
  scale_ratio w h max_size min_size = Err e ->
  e = ZeroDivisionError \/ e = OverflowError \/
  (e = ValueError "Either max_size or min_size must be specified." /\
   max_size = None /\ min_size = None).
Proof.
  unfold scale_ratio.
  destruct max_size as [M|]; [|destruct min_size as [m|]].
  - destruct (truediv_int M w) eqn:Ha; simpl_bind.
    + destruct (truediv_int M h) eqn:Hb; simpl_bind;
        [discriminate|].
      intros [= <-]. destruct (truediv_int_error _ _ _ Hb); auto.
    + intros [= <-]. destruct (truediv_int_error _ _ _ Ha); auto.
  - destruct (truediv_int m w) eqn:Ha; simpl_bind.
    + destruct (truediv_int m h) eqn:Hb; simpl_bind;
        [discriminate|].
      intros [= <-]. destruct (truediv_int_error _ _ _ Hb); auto.
    + intros [= <-]. destruct (truediv_int_error _ _ _ Ha); auto.
  - intros [= <-]. auto.
Qed.

Lemma to_int_error (x : float) (e : exn) :
  to_int x = Err e ->
  e = OverflowError \/ e = ValueError "cannot convert float NaN to integer".
Proof. destruct x; simpl; try discriminate; intros [= <-]; auto. Qed.

Lemma int_mul_error (n : Z) (x : float) (e : exn) :
  int_mul n x = Err e -> e = OverflowError.
Proof.
  unfold int_mul, of_int.
  destruct (binary_normalize _ _ _ _ _); simpl_bind;
    try discriminate.
  intros [= <-]. reflexivity.
Qed.

Lemma new_size_error (w h : Z) (r : float) (e : exn) :
  new_size w h r = Err e ->
  e = OverflowError \/ e = ValueError "cannot convert float NaN to integer".
Proof.
  unfold new_size.
  destruct (int_mul w r) as [pw|e1] eqn:H1; simpl_bind;
    [|intros [= <-]; left; exact (int_mul_error _ _ _ H1)].
  destruct (to_int pw) as [nw|e2] eqn:H2; simpl_bind;
    [|intros [= <-]; exact (to_int_error _ _ H2)].
  destruct (int_mul h r) as [ph|e3] eqn:H3; simpl_bind;
    [|intros [= <-]; left; exact (int_mul_error _ _ _ H3)].
  destruct (to_int ph) as [nh|e4] eqn:H4; simpl_bind;
    [discriminate|intros [= <-]; exact (to_int_error _ _ H4)].
Qed.

(** ** The command line *)

Lemma main_neither_given (cwd : string) (tree : dir_tree) (fs : fsys)
    (input output : string) (keep : bool) :
  main cwd tree fs {| input_directory := input; output_directory := output;
                      max_size := None; min_size := None;
                      keep_format := keep |}
  = UsageError "Either --max_size or --min_size must be specified.".
Proof. reflexivity. Qed.

Lemma main_both_nonzero (cwd : string) (tree : dir_tree) (fs : fsys)
    (input output : string) (M m : Z) (keep : bool) :
  M <> 0 -> m <> 0 ->
  main cwd tree fs {| input_directory := input; output_directory := output;
                      max_size := Some M; min_size := Some m;
                      keep_format := keep |}
  = UsageError "Specify either --max_size or --min_size, not both.".
Proof.
  intros HM Hm. unfold main, truthy. cbn [max_size min_size].
  destruct (Z.eqb_spec M 0); [contradiction|].
  destruct (Z.eqb_spec m 0); [contradiction|]. reflexivity.
Qed.

(** C5, at a failing input: with [--max_size 5 --min_size 0] both options
    are given, yet no usage error is raised: lines 87 and 90 test the
    truth value of the options, and 0 is false.  The script goes on to
    [resize_dataset] with both bounds, and on the sample dataset it writes
    the resized files. *)
Theorem C5_both_given_with_zero_runs :
  (forall (cwd : string) (tree : dir_tree) (fs : fsys)
          (input output : string) (keep : bool),
      main cwd tree fs {| input_directory := input; output_directory := output;
                          max_size := Some 5; min_size := Some 0;
                          keep_format := keep |}
      = Finished (resize_dataset cwd tree fs input output
                    (Some 5) (Some 0) keep)) /\
  exists fs' : fsys,
    main "/home/u" sample_tree sample_dataset_fs
         {| input_directory := "in"; output_directory := "OUT";
            max_size := Some 5; min_size := Some 0; keep_format := false |}
    = Finished (Done fs') /\
    files sample_dataset_fs !! "OUT/x.png" = None /\
    is_Some (files fs' !! "OUT/x.png").
Proof.
  split; [reflexivity|].
  eexists. split; [vm_compute; reflexivity|].
  split; [reflexivity|]. vm_compute. eauto.
Qed.

(** ** Strings and path components *)

Lemma str_app_cons (c : ascii) (a b : string) :
  String c a +:+ b = String c (a +:+ b).
Proof. reflexivity. Qed.

Lemma str_app_nil_r (s : string) : s +:+ "" = s.
Proof. induction s as [|c s IH]; [reflexivity|]. by rewrite str_app_cons, IH. Qed.

Lemma str_app_assoc (a b c : string) : (a +:+ b) +:+ c = a +:+ b +:+ c.
Proof. induction a as [|x a IH]; [reflexivity|]. by rewrite !str_app_cons, IH. Qed.

Lemma str_app_eq_nil (a b : string) : a +:+ b = "" -> a = "" /\ b = "".
Proof. destruct a; [auto|discriminate]. Qed.

Lemma str_length_app (a b : string) :
  String.length (a +:+ b) = (String.length a + String.length b)%nat.
Proof. induction a as [|x a IH]; [reflexivity|]. rewrite str_app_cons. cbn. by rewrite IH. Qed.

Lemma no_sep_app (a b : string) : no_sep (a +:+ b) = no_sep a && no_sep b.
Proof.
  induction a as [|x a IH]; [reflexivity|].
  rewrite str_app_cons. cbn. rewrite IH. by rewrite andb_assoc.
Qed.

Lemma split_sep_not_nil (s : string) : split_sep s <> [].
Proof.
  induction s as [|c s IH]; [discriminate|].
  cbn. destruct (is_sep c); [discriminate|].
  destruct (split_sep s); discriminate.
Qed.

Lemma split_sep_app_sep (a b : string) :
  split_sep (a +:+ String "/" b) = split_sep a ++ split_sep b.
Proof.
  induction a as [|c a IH]; [reflexivity|].
  rewrite str_app_cons. cbn. rewrite IH. destruct (is_sep c); [reflexivity|].
  pose proof (split_sep_not_nil a).
  destruct (split_sep a); [contradiction|reflexivity].
Qed.

Lemma split_sep_no_sep (x : string) : no_sep x = true -> split_sep x = [x].
Proof.
  induction x as [|c x IH]; [reflexivity|].
  cbn. destruct (is_sep c); [discriminate|]. cbn.
  intros Hx. by rewrite IH.
Qed.

Lemma split_sep_parts (s : string) : Forall (fun x => no_sep x = true) (split_sep s).
Proof.
  induction s as [|c s IH]; [repeat constructor|].
  cbn. destruct (is_sep c) eqn:Hc; [constructor; [reflexivity|exact IH]|].
  destruct (split_sep s) as [|w ws]; [repeat constructor; cbn; by rewrite Hc|].
  inversion IH; subst. constructor; [cbn; by rewrite Hc|assumption].
Qed.

Lemma components_app_sep (a b : string) :
  components (a +:+ String "/" b) = components a ++ components b.
Proof. unfold components. by rewrite split_sep_app_sep, filter_app. Qed.

Lemma components_nil : components "" = [].
Proof. reflexivity. Qed.

Lemma components_slash (s : string) : components (String "/" s) = components s.
Proof. exact (components_app_sep "" s). Qed.

Lemma components_name (x : string) :
  x <> "" -> no_sep x = true -> components x = [x].
Proof.
  intros Hne Hx. unfold components. rewrite split_sep_no_sep by assumption.
  cbn. rewrite decide_True by assumption. reflexivity.
Qed.

Lemma components_clean (s : string) : Forall clean (components s).
Proof.
  unfold components. pose proof (split_sep_parts s) as H.
  induction H as [|x l Hx Hl IH]; [constructor|].
  cbn. destruct (decide (x <> "")); [constructor; [split|]|]; assumption.
Qed.

Lemma entry_name_inv (x : string) :
  is_entry_name x = true ->
  x <> "" /\ x <> "." /\ x <> ".." /\ no_sep x = true.
Proof.
  unfold is_entry_name. rewrite !andb_true_iff, !negb_true_iff.
  intros [[[H1 H2] H3] H4].
  apply bool_decide_eq_false in H1, H2, H3. auto.
Qed.

Lemma entry_name_clean (x : string) : is_entry_name x = true -> clean x.
Proof. intros H. apply entry_name_inv in H. split; tauto. Qed.

Lemma entry_names_clean (l : list string) :
  Forall (fun x => is_entry_name x = true) l -> Forall clean l.
Proof. intros H. eapply Forall_impl; [exact H|]. apply entry_name_clean. Qed.

Lemma sep_join_cons (x : string) (y : string) (l : list string) :
  sep_join (x :: y :: l) = x +:+ "/" +:+ sep_join (y :: l).
Proof. reflexivity. Qed.

Lemma components_sep_join (l : list string) :
  Forall clean l -> components (sep_join l) = l.
Proof.
  induction 1 as [|x l [Hne Hx] Hl IH]; [reflexivity|].
  destruct l as [|y l].
  - cbn. by apply components_name.
  - rewrite sep_join_cons.
    change (x +:+ "/" +:+ sep_join (y :: l))
      with (x +:+ String "/" (sep_join (y :: l))).
    rewrite components_app_sep, IH, components_name by assumption.
    reflexivity.
Qed.

Lemma startswith_sep_no_sep (x : string) :
  no_sep x = true -> startswith_sep x = false.
Proof.
  destruct x as [|c x]; [reflexivity|]. cbn.
  destruct (is_sep c); [discriminate|reflexivity].
Qed.

Lemma startswith_sep_app (a b : string) :
  a <> "" -> startswith_sep (a +:+ b) = startswith_sep a.
Proof. destruct a; [contradiction|reflexivity]. Qed.

Lemma startswith_sep_sep_join (l : list string) :
  Forall clean l -> startswith_sep (sep_join l) = false.
Proof.
  destruct 1 as [|x l [Hne Hx] Hl]; [reflexivity|].
  destruct l as [|y l].
  - by apply startswith_sep_no_sep.
  - rewrite sep_join_cons, startswith_sep_app by assumption.
    by apply startswith_sep_no_sep.
Qed.

Lemma sep_join_not_nil (x : string) (l : list string) :
  x <> "" -> sep_join (x :: l) <> "".
Proof.
  intros Hx. destruct l as [|y l]; [exact Hx|].
  rewrite sep_join_cons. intros H. apply str_app_eq_nil in H. tauto.
Qed.

Lemma endswith_sep_inv (a : string) :
  endswith_sep a = true -> exists a', a = a' +:+ "/".
Proof.
  induction a as [|c a IH]; [discriminate|].
  destruct a as [|c' a].
  - cbn. unfold is_sep. intros H. apply bool_decide_eq_true in H. subst c.
    by exists "".
  - intros H. destruct (IH H) as [a' Ha']. exists (String c a').
    by rewrite str_app_cons, <- Ha'.
Qed.

Lemma endswith_sep_app (a b : string) :
  b <> "" -> endswith_sep (a +:+ b) = endswith_sep b.
Proof.
  intros Hb. induction a as [|c a IH]; [reflexivity|].
  rewrite str_app_cons. cbn. destruct (a +:+ b) eqn:Hab.
  - apply str_app_eq_nil in Hab. tauto.
  - exact IH.
Qed.

Lemma endswith_sep_no_sep (x : string) :
  no_sep x = true -> endswith_sep x = false.
Proof.
  induction x as [|c x IH]; [reflexivity|].
  cbn. destruct (is_sep c); [discriminate|]. cbn. intros Hx.
  destruct x; [reflexivity|]. by apply IH.
Qed.

(** ** [join] *)

Lemma join_relative (a b : string) :
  startswith_sep b = false -> join a b = dir_prefix a +:+ b.
Proof.
  intros Hb. unfold join, dir_prefix. rewrite Hb.
  destruct (bool_decide (a = "") || endswith_sep a); [reflexivity|].
  by rewrite str_app_assoc.
Qed.

Lemma dir_prefix_cases (a : string) :
  dir_prefix a = "" \/ exists a', dir_prefix a = a' +:+ "/".
Proof.
  unfold dir_prefix. case_bool_decide as Ha; cbn [orb].
  - left. exact Ha.
  - right. destruct (endswith_sep a) eqn:He.
    + by apply endswith_sep_inv.
    + by exists a.
Qed.

Lemma components_dir_prefix (a : string) :
  components (dir_prefix a) = components a.
Proof.
  unfold dir_prefix.
  destruct (bool_decide (a = "") || endswith_sep a); [reflexivity|].
  change (a +:+ "/") with (a +:+ String "/" "").
  by rewrite components_app_sep, components_nil, List.app_nil_r.
Qed.

Lemma components_prefix_app (a b : string) :
  components (dir_prefix a +:+ b) = components a ++ components b.
Proof.
  rewrite <- (components_dir_prefix a).
  destruct (dir_prefix_cases a) as [->|[a' ->]]; [reflexivity|].
  rewrite str_app_assoc. change ("/" +:+ b) with (String "/" b).
  rewrite components_app_sep.
  change (a' +:+ "/") with (a' +:+ String "/" "").
  by rewrite components_app_sep, components_nil, List.app_nil_r.
Qed.

Lemma components_join (a b : string) :
  startswith_sep b = false ->
  components (join a b) = components a ++ components b.
Proof. intros Hb. rewrite join_relative by assumption. apply components_prefix_app. Qed.

Lemma isabs_join (a b : string) :
  startswith_sep b = false -> isabs (join a b) = isabs a.
Proof.
  intros Hb. rewrite join_relative by assumption. unfold isabs, dir_prefix.
  case_bool_decide as Ha; cbn [orb].
  - subst a. exact Hb.
  - destruct (endswith_sep a); [|rewrite str_app_assoc];
      by apply startswith_sep_app.
Qed.

(** ** [normpath], [abspath] and [relpath] *)

Lemma norm_step_empty (rooted : bool) (acc : list string) :
  norm_step rooted acc "" = acc.
Proof. reflexivity. Qed.

Lemma foldl_norm_step_components (rooted : bool) (s : string) (acc : list string) :
  foldl (norm_step rooted) acc (split_sep s)
  = foldl (norm_step rooted) acc (components s).
Proof.
  unfold components. revert acc.
  induction (split_sep s) as [|x l IH]; intros acc; [reflexivity|].
  cbn. destruct (decide (x <> "")) as [Hx|Hx].
  - cbn. apply IH.
  - assert (x = "") as -> by (destruct (decide (x = "")); tauto).
    rewrite norm_step_empty. apply IH.
Qed.

Lemma norm_step_name (rooted : bool) (acc : list string) (x : string) :
  is_entry_name x = true -> norm_step rooted acc x = acc ++ [x].
Proof.
  intros Hx. apply entry_name_inv in Hx as (H1 & H2 & H3 & _).
  unfold norm_step.
  rewrite (bool_decide_eq_false_2 (x = "")) by assumption.
  rewrite (bool_decide_eq_false_2 (x = ".")) by assumption.
  rewrite (bool_decide_eq_false_2 (x = "..")) by assumption.
  reflexivity.
Qed.

Lemma foldl_norm_step_names (rooted : bool) (acc names : list string) :
  Forall (fun x => is_entry_name x = true) names ->
  foldl (norm_step rooted) acc names = acc ++ names.
Proof.
  intros H. revert acc.
  induction H as [|x l Hx Hl IH]; intros acc;
    [by rewrite List.app_nil_r|].
  cbn. rewrite norm_step_name by assumption.
  rewrite IH, <- List.app_assoc. reflexivity.
Qed.

Lemma norm_step_clean (rooted : bool) (acc : list string) (x : string) :
  Forall clean acc -> clean x -> Forall clean (norm_step rooted acc x).
Proof.
  intros Hacc Hx. unfold norm_step.
  destruct (_ || _); [exact Hacc|].
  destruct (_ || _).
  - apply Forall_app. split; [exact Hacc|]. by constructor.
  - clear Hx. induction Hacc as [|y l Hy Hl IH]; [constructor|].
    cbn. destruct l; [constructor|]. constructor; assumption.
Qed.

Lemma foldl_norm_step_clean (rooted : bool) (acc l : list string) :
  Forall clean acc -> Forall clean l ->
  Forall clean (foldl (norm_step rooted) acc l).
Proof.
  intros Hacc Hl. revert acc Hacc.
  induction Hl as [|x l Hx Hl IH]; intros acc Hacc; [exact Hacc|].
  cbn. apply IH. by apply norm_step_clean.
Qed.

Lemma components_slashes (k : nat) (s : string) :
  components (slashes k +:+ s) = components s.
Proof.
  induction k as [|k IH]; [reflexivity|].
  cbn [slashes]. rewrite str_app_cons, components_slash. exact IH.
Qed.

Lemma initial_slashes_abs (s : string) :
  isabs s = true -> exists k, initial_slashes s = S k.
Proof.
  destruct s as [|c s]; [discriminate|].
  unfold isabs. cbn. intros ->.
  destruct s as [|c' s]; [by exists O|].
  destruct (is_sep c' && negb (startswith_sep s)); eauto.
Qed.

(** The components of a normalised absolute path. *)
Lemma components_normpath (s : string) :
  isabs s = true ->
  components (normpath s) = foldl (norm_step true) [] (components s).
Proof.
  intros Habs. unfold normpath.
  destruct (initial_slashes_abs s Habs) as [k Hk].
  rewrite bool_decide_eq_false_2 by (destruct s; [discriminate|congruence]).
  rewrite Hk. cbn [Nat.eqb negb].
  rewrite foldl_norm_step_components.
  rewrite bool_decide_eq_false_2 by discriminate.
  rewrite components_slashes.
  apply components_sep_join.
  apply foldl_norm_step_clean; [constructor|apply components_clean].
Qed.

Lemma common_prefix_len_app (l1 l2 : list string) :
  common_prefix_len l1 (l1 ++ l2) = length l1.
Proof.
  induction l1 as [|x l1 IH]; [by destruct l2|].
  cbn. rewrite bool_decide_eq_true_2 by reflexivity. by rewrite IH.
Qed.

Lemma join_all_names (acc : string) (names : list string) :
  acc <> "" -> endswith_sep acc = false ->
  Forall (fun x => is_entry_name x = true) names ->
  join_all acc names
  = match names with
    | [] => acc
    | _ :: _ => acc +:+ "/" +:+ sep_join names
    end.
Proof.
  intros Hne Hend Hnames. revert acc Hne Hend. unfold join_all.
  induction Hnames as [|x l Hx Hl IH]; intros acc Hne Hend; [reflexivity|].
  cbn [foldl].
  apply entry_name_inv in Hx as Hx'. destruct Hx' as (Hx1 & _ & _ & Hx4).
  assert (Hjoin : join acc x = acc +:+ "/" +:+ x).
  { rewrite join_relative by (by apply startswith_sep_no_sep).
    unfold dir_prefix. rewrite bool_decide_eq_false_2, Hend by assumption.
    cbn [orb]. by rewrite str_app_assoc. }
  rewrite Hjoin, IH.
  - destruct l as [|y l]; [reflexivity|].
    rewrite sep_join_cons. by rewrite !str_app_assoc.
  - intros H. apply str_app_eq_nil in H. tauto.
  - rewrite <- str_app_assoc, endswith_sep_app by assumption.
    by apply endswith_sep_no_sep.
Qed.

Lemma join_all_sep_join (x : string) (names : list string) :
  Forall (fun y => is_entry_name y = true) (x :: names) ->
  join_all x names = sep_join (x :: names).
Proof.
  intros H. inversion H as [|? ? Hx Hnames]; subst.
  apply entry_name_inv in Hx as (Hx1 & _ & _ & Hx4).
  rewrite join_all_names; try assumption.
  - by destruct names.
  - by apply endswith_sep_no_sep.
Qed.

Section AbsoluteCwd.

(** The current directory of a process is an absolute path. *)
Variable cwd : string.
Hypothesis cwd_abs : isabs cwd = true.

Lemma components_abspath (p : string) :
  components (abspath cwd p)
  = foldl (norm_step true) [] (abs_components cwd p).
Proof.
  unfold abspath, abs_components.
  destruct (isabs p) eqn:Hp.
  - by apply components_normpath.
  - rewrite components_normpath by (by rewrite isabs_join).
    by rewrite components_join.
Qed.

Lemma abs_components_join (a b : string) :
  startswith_sep b = false ->
  abs_components cwd (join a b) = abs_components cwd a ++ components b.
Proof.
  intros Hb. unfold abs_components.
  rewrite isabs_join, components_join by assumption.
  destruct (isabs a); [reflexivity|]. by rewrite List.app_assoc.
Qed.

(** A path built by joining names onto [a] lies below [a], and its path
    relative to [a] is those names. *)
Lemma relpath_join (a : string) (names : list string) :
  names <> [] ->
  Forall (fun x => is_entry_name x = true) names ->
  relpath cwd (join a (sep_join names)) a = Ok (sep_join names).
Proof.
  intros Hne Hnames.
  assert (Hclean : Forall clean names)
    by (by apply entry_names_clean).
  assert (Hrel : startswith_sep (sep_join names) = false)
    by (by apply startswith_sep_sep_join).
  unfold relpath.
  rewrite bool_decide_eq_false_2.
  2:{ rewrite join_relative by assumption. intros H.
      apply str_app_eq_nil in H as [_ H].
      destruct names as [|x l]; [contradiction|].
      inversion Hclean as [|? ? [Hx _] _]; subst.
      by apply (sep_join_not_nil x l). }
  rewrite !components_abspath by assumption.
  rewrite abs_components_join, components_sep_join by assumption.
  rewrite foldl_app, (foldl_norm_step_names true _ names) by assumption.
  set (start_list := foldl (norm_step true) [] (abs_components cwd a)).
  rewrite common_prefix_len_app, Nat.sub_diag, drop_app_length.
  cbn [replicate app].
  destruct names as [|x l]; [contradiction|].
  by rewrite join_all_sep_join.
Qed.

End AbsoluteCwd.

(** ** [splitext] *)

Lemma rsplit_at_spec (c : ascii) (s before after : string) :
  rsplit_at c s = Some (before, after) -> s = before +:+ String c after.
Proof.
  revert before after. induction s as [|x s IH]; intros before after;
    [discriminate|].
  cbn. destruct (rsplit_at c s) as [[b a]|].
  - intros [= <- <-]. rewrite str_app_cons. f_equal. by apply IH.
  - case_bool_decide as Hx; [|discriminate]. intros [= <- <-]. by subst.
Qed.

Lemma rsplit_at_app_char (c : ascii) (a b : string) :
  rsplit_at c (a +:+ String c b)
  = match rsplit_at c b with
    | Some (b1, b2) => Some (a +:+ String c b1, b2)
    | None => Some (a, b)
    end.
Proof.
  induction a as [|x a IH].
  - change ("" +:+ String c b) with (String c b). cbn [rsplit_at].
    destruct (rsplit_at c b) as [[b1 b2]|]; [reflexivity|].
    by rewrite bool_decide_eq_true_2.
  - rewrite str_app_cons. cbn [rsplit_at]. rewrite IH.
    destruct (rsplit_at c b) as [[b1 b2]|]; reflexivity.
Qed.

Lemma splitext_whole (p : string) : (splitext p).1 +:+ (splitext p).2 = p.
Proof.
  unfold splitext.
  destruct (rsplit_at "/" p) as [[before after]|] eqn:Hsep.
  - apply rsplit_at_spec in Hsep.
    destruct (rsplit_at "." after) as [[stem ext]|] eqn:Hdot;
      [|apply str_app_nil_r].
    destruct (all_dots stem); [apply str_app_nil_r|].
    apply rsplit_at_spec in Hdot. cbn [fst snd].
    by rewrite Hsep, Hdot, !str_app_assoc.
  - destruct (rsplit_at "." p) as [[stem ext]|] eqn:Hdot;
      [|apply str_app_nil_r].
    destruct (all_dots stem); [apply str_app_nil_r|].
    apply rsplit_at_spec in Hdot. cbn [fst snd]. by rewrite Hdot.
Qed.

(** [splitext] only looks past the last slash. *)
Lemma splitext_app_sep (a b : string) :
  splitext (a +:+ String "/" b)
  = (a +:+ String "/" (splitext b).1, (splitext b).2).
Proof.
  unfold splitext. rewrite rsplit_at_app_char.
  destruct (rsplit_at "/" b) as [[b1 b2]|].
  - destruct (rsplit_at "." b2) as [[stem ext]|]; [|reflexivity].
    destruct (all_dots stem); [reflexivity|].
    cbn [fst snd]. by rewrite !str_app_assoc, ?str_app_cons, ?str_app_assoc.
  - destruct (rsplit_at "." b) as [[stem ext]|]; [|reflexivity].
    destruct (all_dots stem); [reflexivity|].
    cbn [fst snd]. by rewrite ?str_app_assoc.
Qed.

Lemma splitext_dir_prefix (a b : string) :
  splitext (dir_prefix a +:+ b)
  = (dir_prefix a +:+ (splitext b).1, (splitext b).2).
Proof.
  destruct (dir_prefix_cases a) as [->|[a' ->]].
  - change ("" +:+ b) with b. by destruct (splitext b).
  - rewrite !str_app_assoc. apply splitext_app_sep.
Qed.

Lemma sep_join_snoc_app (l : list string) (x y : string) :
  sep_join (l ++ [x]) +:+ y = sep_join (l ++ [x +:+ y]).
Proof.
  induction l as [|z l IH]; [reflexivity|].
  cbn [app]. destruct l as [|z' l].
  - cbn [app]. rewrite !sep_join_cons. cbn [sep_join].
    by rewrite !str_app_assoc.
  - cbn [app] in *. rewrite (sep_join_cons z z'), (sep_join_cons z z').
    by rewrite !str_app_assoc, IH.
Qed.

Lemma splitext_sep_join (l : list string) (f : string) :
  splitext (sep_join (l ++ [f]))
  = (sep_join (l ++ [(splitext f).1]), (splitext f).2).
Proof.
  induction l as [|z l IH]; [cbn [app sep_join]; by destruct (splitext f)|].
  cbn [app]. destruct l as [|z' l].
  - cbn [app]. rewrite !sep_join_cons. cbn [sep_join].
    apply splitext_app_sep.
  - cbn [app] in *. rewrite (sep_join_cons z z'), (sep_join_cons z z').
    change (z +:+ "/" +:+ sep_join (z' :: l ++ [f]))
      with (z +:+ String "/" (sep_join (z' :: l ++ [f]))).
    by rewrite splitext_app_sep, IH.
Qed.

Lemma no_sep_stem (f : string) : no_sep f = true -> no_sep (splitext f).1 = true.
Proof.
  intros Hf. rewrite <- (splitext_whole f), no_sep_app in Hf.
  by apply andb_true_iff in Hf as [? _].
Qed.

(** The name of an output file is again an entry name. *)
Lemma output_name_ok (f ext : string) :
  no_sep f = true -> ext ∈ output_extensions ->
  is_entry_name ((splitext f).1 +:+ "." +:+ ext) = true.
Proof.
  intros Hf Hext.
  assert (Hlen : (4 <= String.length ((splitext f).1 +:+ "." +:+ ext))%nat).
  { rewrite !str_length_app. unfold output_extensions in Hext.
    rewrite !elem_of_cons, elem_of_nil in Hext.
    destruct Hext as [->|[->|[->|[->|[]]]]]; cbn; lia. }
  assert (Hno : no_sep ((splitext f).1 +:+ "." +:+ ext) = true).
  { rewrite !no_sep_app, no_sep_stem by assumption.
    unfold output_extensions in Hext.
    rewrite !elem_of_cons, elem_of_nil in Hext.
    destruct Hext as [->|[->|[->|[->|[]]]]]; reflexivity. }
  unfold is_entry_name. rewrite Hno.
  rewrite !bool_decide_eq_false_2; [reflexivity|..];
    intros H; rewrite H in Hlen; cbn in Hlen; lia.
Qed.

(** ** The walk *)

Lemma dir_tree_nested_ind (P : dir_tree -> Prop) :
  (forall fnames subdirs,
      Forall (fun dt => P dt.2) subdirs -> P (Dir fnames subdirs)) ->
  forall t, P t.
Proof.
  intros HDir. fix IH 1. intros [fnames subdirs]. apply HDir.
  induction subdirs as [|[d t'] l IHl]; constructor; [apply IH|exact IHl].
Qed.

Lemma join_join_names (top d : string) (names : list string) :
  is_entry_name d = true -> names <> [] -> Forall clean names ->
  join (join top d) (sep_join names) = join top (sep_join (d :: names)).
Proof.
  intros Hd Hne Hnames.
  apply entry_name_inv in Hd as (Hd1 & _ & _ & Hd4).
  assert (Hrel : startswith_sep (sep_join names) = false)
    by (by apply startswith_sep_sep_join).
  assert (Hrel' : startswith_sep (sep_join (d :: names)) = false).
  { apply startswith_sep_sep_join. constructor; [by split|assumption]. }
  rewrite (join_relative (join top d)), (join_relative top d),
    (join_relative top (sep_join (d :: names)));
    try assumption; [|by apply startswith_sep_no_sep].
  destruct names as [|x l]; [contradiction|]. rewrite sep_join_cons.
  unfold dir_prefix at 1.
  rewrite bool_decide_eq_false_2
    by (intros H; apply str_app_eq_nil in H; tauto).
  rewrite endswith_sep_app, endswith_sep_no_sep by assumption.
  cbn [orb]. by rewrite !str_app_assoc.
Qed.

(** Every collected path is [input_dir] joined with the names of the
    sub-directories on the way down and the name of the file. *)
Lemma all_image_paths_below (t : dir_tree) :
  forall (top p : string),
    tree_names_ok t = true -> p ∈ all_image_paths top t ->
    exists (ds : list string) (f : string),
      Forall (fun x => is_entry_name x = true) ds /\
      is_entry_name f = true /\
      p = join top (sep_join (ds ++ [f])).
Proof.
  induction t as [fnames subdirs IH] using dir_tree_nested_ind.
  intros top p Hok Hin. unfold all_image_paths in Hin.
  cbn [walk flat_map tree_names_ok] in Hin, Hok.
  apply andb_true_iff in Hok as [Hfiles Hsubs].
  apply elem_of_app in Hin as [Hin|Hin].
  - apply list_elem_of_In, in_map_iff in Hin as (f & <- & Hf).
    apply list_elem_of_In, list_elem_of_filter in Hf as [_ Hf].
    exists [], f. split; [constructor|]. split; [|reflexivity].
    rewrite forallb_forall in Hfiles. apply Hfiles. by apply list_elem_of_In.
  - revert Hin Hsubs. induction IH as [|[d t'] l Ht' Hl IHl]; intros Hin Hsubs.
    + by apply elem_of_nil in Hin.
    + rewrite !andb_true_iff in Hsubs. destruct Hsubs as [[Hd Hokt'] Hokl].
      rewrite flat_map_app in Hin. apply elem_of_app in Hin as [Hin|Hin].
      * destruct (Ht' (join top d) p Hokt' Hin) as (ds & f & Hds & Hf & ->).
        exists (d :: ds), f. split; [by constructor|]. split; [exact Hf|].
        cbn [app]. apply join_join_names; [exact Hd|by destruct ds|].
        apply Forall_app. split.
        -- by apply entry_names_clean.
        -- constructor; [by apply entry_name_clean|constructor].
      * by apply IHl.
Qed.

(** ** Directories *)

Lemma dir_check_error (fs : fsys) (d : string) (e : exn) :
  dir_check fs d = Err e -> e = NotADirectoryError \/ e = FileNotFoundError.
Proof.
  unfold dir_check. destruct (_ || _); [discriminate|].
  destruct (existsb _ _); intros [= <-]; auto.
Qed.

Lemma dir_check_Ok (fs : fsys) (d : string) :
  dir_check fs d = Ok tt -> d = "" \/ isdir fs d = true.
Proof.
  unfold dir_check. case_bool_decide as Hd; [auto|]. cbn [orb].
  destruct (isdir fs d); [auto|]. destruct (existsb _ _); discriminate.
Qed.

Lemma mkdir_Ok (fs : fsys) (p : string) (fs' : fsys) :
  mkdir fs p = Ok fs' ->
  files fs' = files fs /\ dirs fs' = {[rstrip_sep p]} ∪ dirs fs.
Proof.
  unfold mkdir. case_bool_decide; [discriminate|].
  destruct (dir_check _ _) as [[]|e]; simpl_bind; [|discriminate].
  destruct (_ || _); [discriminate|]. intros [= <-]. auto.
Qed.

Lemma mkdir_error (fs : fsys) (p : string) (e : exn) :
  mkdir fs p = Err e ->
  e = FileNotFoundError \/ e = FileExistsError \/ e = NotADirectoryError.
Proof.
  unfold mkdir. case_bool_decide; [intros [= <-]; auto|].
  destruct (dir_check _ _) as [[]|e0] eqn:Hparent; simpl_bind.
  - destruct (_ || _); [|discriminate]. intros [= <-]. auto.
  - intros [= <-]. destruct (dir_check_error _ _ _ Hparent) as [->| ->]; auto.
Qed.

(** [os.makedirs] writes no file and removes no directory, also when it
    raises, and it raises one of three exceptions. *)
Lemma makedirs_upto_spec (n : nat) :
  forall (fs : fsys) (name : string),
    let r := makedirs_upto n fs name in
    files (final_fs r) = files fs /\
    dirs fs ⊆ dirs (final_fs r) /\
    forall e fs', r = Raised e fs' ->
      e = FileNotFoundError \/ e = FileExistsError \/ e = NotADirectoryError.
Proof.
  assert (Hleaf : forall (fs : fsys) (name : string),
             let r := match mkdir fs name with
                      | Ok fs' => Done fs'
                      | Err e => Raised e fs
                      end in
             files (final_fs r) = files fs /\
             dirs fs ⊆ dirs (final_fs r) /\
             forall e fs', r = Raised e fs' ->
               e = FileNotFoundError \/ e = FileExistsError \/
               e = NotADirectoryError).
  { intros fs name. cbn zeta.
    destruct (mkdir fs name) as [fs'|e] eqn:Hmk; cbn [final_fs].
    - apply mkdir_Ok in Hmk as [Hf Hd]. rewrite Hf, Hd.
      split; [reflexivity|]. split; [apply union_subseteq_r|]. discriminate.
    - split; [reflexivity|]. split; [reflexivity|].
      intros e' fs' [= <- _]. exact (mkdir_error _ _ _ Hmk). }
  induction n as [|n IH]; intros fs name; cbn zeta; cbn [makedirs_upto].
  - destruct (split name) as [head tail].
    destruct (if bool_decide (tail = "") then split head else (head, tail))
      as [head' tail'].
    destruct (_ && _); apply Hleaf.
  - destruct (split name) as [head tail].
    destruct (if bool_decide (tail = "") then split head else (head, tail))
      as [head' tail'].
    destruct (_ && _); [|apply Hleaf].
    destruct (IH fs head') as (Hf & Hd & He).
    destruct (makedirs_upto n fs head') as [fs1|e fs1]; cbn [final_fs] in *.
    + destruct (bool_decide (tail' = ".")); cbn [final_fs].
      * split; [exact Hf|]. split; [exact Hd|]. discriminate.
      * destruct (Hleaf fs1 name) as (Hf' & Hd' & He').
        split; [congruence|]. split; [by etrans|]. exact He'.
    + assert (Hpass :
        let r := if bool_decide (tail' = ".") then Done fs1
                 else match mkdir fs1 name with
                      | Ok fs' => Done fs'
                      | Err e => Raised e fs1
                      end in
        files (final_fs r) = files fs /\
        dirs fs ⊆ dirs (final_fs r) /\
        forall e fs', r = Raised e fs' ->
          e = FileNotFoundError \/ e = FileExistsError \/
          e = NotADirectoryError).
      { cbn zeta. destruct (bool_decide (tail' = ".")); cbn [final_fs].
        - split; [exact Hf|]. split; [exact Hd|]. discriminate.
        - destruct (Hleaf fs1 name) as (Hf' & Hd' & He').
          split; [congruence|]. split; [by etrans|]. exact He'. }
      destruct e; try exact Hpass; cbn [final_fs];
        (split; [exact Hf|]; split; [exact Hd|];
         intros e' fs' [= <- _]; eapply He; reflexivity).
Qed.

Lemma ensure_dir_spec (fs : fsys) (d : string) :
  let r := ensure_dir fs d in
  files (final_fs r) = files fs /\
  dirs fs ⊆ dirs (final_fs r) /\
  forall e fs', r = Raised e fs' ->
    e = FileNotFoundError \/ e = FileExistsError \/ e = NotADirectoryError.
Proof.
  cbn zeta. unfold ensure_dir.
  destruct (path_exists fs d); [|apply makedirs_upto_spec].
  cbn [final_fs]. split; [reflexivity|]. split; [reflexivity|]. discriminate.
Qed.

Lemma ensure_dir_files (fs : fsys) (d : string) :
  files (final_fs (ensure_dir fs d)) = files fs.
Proof. apply ensure_dir_spec. Qed.

Lemma ensure_dir_dirs (fs : fsys) (d : string) :
  dirs fs ⊆ dirs (final_fs (ensure_dir fs d)).
Proof. apply ensure_dir_spec. Qed.

(** *** The recursion of [os.makedirs] ends *)

Lemma rstrip_sep_length (s : string) :
  (String.length (rstrip_sep s) <= String.length s)%nat.
Proof.
  induction s as [|c s IH]; [reflexivity|]. cbn [rstrip_sep].
  destruct (is_sep c && bool_decide (rstrip_sep s = "")); cbn [String.length];
    lia.
Qed.

Lemma split_length (p : string) :
  (String.length (split p).1 + String.length (split p).2
   <= String.length p)%nat.
Proof.
  unfold split.
  destruct (rsplit_at "/" p) as [[before after]|] eqn:Hsep;
    [|cbn [fst snd String.length]; lia].
  apply rsplit_at_spec in Hsep. subst p. cbn [fst snd].
  rewrite str_length_app. cbn [String.length].
  assert (Hhead : (String.length (if all_seps (before +:+ "/")
                                  then before +:+ "/"
                                  else rstrip_sep (before +:+ "/"))
                   <= String.length before + 1)%nat).
  { destruct (all_seps _).
    - rewrite str_length_app. cbn [String.length]. lia.
    - etrans; [apply rstrip_sep_length|].
      rewrite str_length_app. cbn [String.length]. lia. }
  lia.
Qed.

(** The directory [os.makedirs] recurses on is shorter than the name. *)
Lemma makedirs_head_shorter (name : string) :
  let '(head, tail) := split name in
  let '(head', tail') :=
    if bool_decide (tail = "") then split head else (head, tail) in
  tail' <> "" -> (String.length head' < String.length name)%nat.
Proof.
  pose proof (split_length name) as Hname.
  destruct (split name) as [head tail]. cbn [fst snd] in Hname.
  case_bool_decide as Htail.
  - pose proof (split_length head) as Hhead.
    destruct (split head) as [head' tail']. cbn [fst snd] in Hhead.
    intros Hne. destruct tail'; [contradiction|]. cbn [String.length] in Hhead.
    lia.
  - intros _. destruct tail; [contradiction|]. cbn [String.length] in Hname.
    lia.
Qed.

(** A bound of at least the length of the name gives the same result as
    any larger one: [makedirs] is [os.makedirs] run to its end. *)
Lemma makedirs_upto_enough (n : nat) :
  forall (m : nat) (fs : fsys) (name : string),
    (String.length name <= n)%nat -> (String.length name <= m)%nat ->
    makedirs_upto n fs name = makedirs_upto m fs name.
Proof.
  induction n as [|n IH]; intros m fs name Hn Hm.
  - destruct name; [|cbn [String.length] in Hn; lia].
    destruct m; reflexivity.
  - destruct m as [|m].
    + destruct name; [|cbn [String.length] in Hm; lia]. reflexivity.
    + cbn [makedirs_upto].
      pose proof (makedirs_head_shorter name) as Hshort.
      destruct (split name) as [head tail].
      destruct (if bool_decide (tail = "") then split head else (head, tail))
        as [head' tail'].
      destruct (bool_decide (head' = "")); [reflexivity|].
      case_bool_decide as Htail; [reflexivity|]. cbn [negb andb].
      destruct (path_exists fs head'); [reflexivity|]. cbn [negb].
      rewrite (IH m fs head') by (specialize (Hshort Htail); lia).
      reflexivity.
Qed.

Lemma makedirs_enough (n : nat) (fs : fsys) (name : string) :
  (String.length name <= n)%nat ->
  makedirs_upto n fs name = makedirs fs name.
Proof. intros Hn. by apply makedirs_upto_enough. Qed.

(** ** What [resize_image] and the loop write *)

Lemma select_format_extension (keep : bool) (recorded : option string) :
  (select_format keep recorded).1 ∈ output_extensions.
Proof.
  rewrite select_format_policy. unfold format_policy, output_extensions.
  destruct recorded as [f|]; [|set_solver].
  destruct (keep && bool_decide (f ∈ supported_formats)); [|set_solver].
  cbn [fst]. unfold canonical_extension.
  repeat case_bool_decide; set_solver.
Qed.

(** The four pairs [select_format] can return. *)
Lemma select_format_cases (keep : bool) (recorded : option string) :
  select_format keep recorded = ("png", "PNG") \/
  select_format keep recorded = ("jpg", "JPEG") \/
  select_format keep recorded = ("bmp", "BMP") \/
  select_format keep recorded = ("gif", "GIF").
Proof.
  rewrite select_format_policy. unfold format_policy.
  destruct recorded as [f|]; [|auto].
  destruct keep; [|auto]. cbn [andb].
  case_bool_decide as Hf; [|auto].
  unfold supported_formats in Hf.
  rewrite !elem_of_cons, elem_of_nil in Hf.
  destruct Hf as [->|[->|[->|[->|[]]]]]; auto.
Qed.

(** A successful call changes one file, an output in the sense of
    [output_at], and no directory. *)
Lemma resize_image_writes (fs : fsys) (image_path output_path : string)
    (max_size min_size : option Z) (keep : bool) (fs' : fsys) :
  resize_image fs image_path output_path max_size min_size keep = Ok fs' ->
  exists (ext : string) (file : PIL.file),
    ext ∈ output_extensions /\
    files fs' = <[(splitext output_path).1 +:+ "." +:+ ext := file]> (files fs) /\
    dirs fs' = dirs fs /\
    output_at ((splitext output_path).1 +:+ "." +:+ ext) file.
Proof.
  intros Hrun.
  destruct (resize_image_Ok _ _ _ _ _ _ _ Hrun)
    as (img & params0 & nw & nh & _ & _ & Hnw & Hnh & _ & ->).
  cbn zeta. eexists _, _. split; [apply select_format_extension|].
  split; [reflexivity|]. split; [reflexivity|].
  exists (splitext output_path).1, nw, nh.
  split; [exact Hnw|]. split; [exact Hnh|].
  destruct (select_format_cases keep (original_format_of img))
    as [H|[H|[H|H]]]; rewrite H; cbn [fst snd].
  - left. split; reflexivity.
  - right. left. split; reflexivity.
  - right. right. left. split; reflexivity.
  - right. right. right. split; reflexivity.
Qed.

Section Loop.

Variables (cwd input_dir output_dir : string).
Variables (max_size min_size : option Z) (keep : bool).

(** Induction over a run of the loop: the ways one turn can go. *)
Lemma resize_all_run_ind (P : fsys -> list string -> ended -> Prop) :
  (forall fs, P fs [] (Done fs)) ->
  (forall fs ip rest e,
      relpath cwd ip input_dir = Err e -> P fs (ip :: rest) (Raised e fs)) ->
  (forall fs ip rest rel e fs0,
      relpath cwd ip input_dir = Ok rel ->
      ensure_dir fs (dirname (join output_dir rel)) = Raised e fs0 ->
      P fs (ip :: rest) (Raised e fs0)) ->
  (forall fs ip rest rel fs0 e,
      relpath cwd ip input_dir = Ok rel ->
      ensure_dir fs (dirname (join output_dir rel)) = Done fs0 ->
      resize_image fs0 ip (join output_dir rel) max_size min_size keep
      = Err e ->
      P fs (ip :: rest) (Raised e fs0)) ->
  (forall fs ip rest rel fs0 fs1,
      relpath cwd ip input_dir = Ok rel ->
      ensure_dir fs (dirname (join output_dir rel)) = Done fs0 ->
      resize_image fs0 ip (join output_dir rel) max_size min_size keep
      = Ok fs1 ->
      P fs1 rest (resize_all cwd fs1 rest input_dir output_dir
                    max_size min_size keep) ->
      P fs (ip :: rest) (resize_all cwd fs1 rest input_dir output_dir
                           max_size min_size keep)) ->
  forall (paths : list string) (fs : fsys),
    P fs paths (resize_all cwd fs paths input_dir output_dir
                  max_size min_size keep).
Proof.
  intros Hnil Hrel Hdir Herr Hok.
  induction paths as [|ip rest IH]; intros fs; [apply Hnil|].
  cbn [resize_all].
  destruct (relpath cwd ip input_dir) as [rel|e] eqn:Hr; [|by apply Hrel].
  destruct (ensure_dir fs (dirname (join output_dir rel))) as [fs0|e fs0]
    eqn:Hd; [|by apply (Hdir fs ip rest rel)].
  destruct (resize_image fs0 ip _ _ _ _) as [fs1|e] eqn:Hstep;
    [|by apply (Herr fs ip rest rel)].
  apply (Hok fs ip rest rel fs0 fs1); auto.
Qed.

(** A run removes no file and no directory, and every path whose content
    it changes is the output path of a collected path. *)
Lemma resize_all_spec (paths : list string) (fs : fsys) :
  let r := resize_all cwd fs paths input_dir output_dir
             max_size min_size keep in
  (forall p, is_Some (files fs !! p) -> is_Some (files (final_fs r) !! p)) /\
  dirs fs ⊆ dirs (final_fs r) /\
  (forall p, files (final_fs r) !! p <> files fs !! p ->
     exists input_path rel ext,
       input_path ∈ paths /\
       relpath cwd input_path input_dir = Ok rel /\
       ext ∈ output_extensions /\
       p = (splitext (join output_dir rel)).1 +:+ "." +:+ ext).
Proof.
  cbn zeta. revert paths fs.
  apply (resize_all_run_ind (fun fs paths r =>
    (forall p, is_Some (files fs !! p) -> is_Some (files (final_fs r) !! p)) /\
    dirs fs ⊆ dirs (final_fs r) /\
    (forall p, files (final_fs r) !! p <> files fs !! p ->
       exists input_path rel ext,
         input_path ∈ paths /\
         relpath cwd input_path input_dir = Ok rel /\
         ext ∈ output_extensions /\
         p = (splitext (join output_dir rel)).1 +:+ "." +:+ ext))).
  - intros fs. cbn [final_fs]. split; [auto|]. split; [reflexivity|].
    intros p Hp. contradiction.
  - intros fs ip rest e _. cbn [final_fs]. split; [auto|].
    split; [reflexivity|]. intros p Hp. contradiction.
  - intros fs ip rest rel e fs0 _ Hd.
    pose proof (ensure_dir_files fs (dirname (join output_dir rel))) as Hf.
    pose proof (ensure_dir_dirs fs (dirname (join output_dir rel))) as Hs.
    rewrite Hd in Hf, Hs. cbn [final_fs] in *. rewrite Hf.
    split; [auto|]. split; [exact Hs|]. intros p Hp. contradiction.
  - intros fs ip rest rel fs0 e _ Hd _.
    pose proof (ensure_dir_files fs (dirname (join output_dir rel))) as Hf.
    pose proof (ensure_dir_dirs fs (dirname (join output_dir rel))) as Hs.
    rewrite Hd in Hf, Hs. cbn [final_fs] in *. rewrite Hf.
    split; [auto|]. split; [exact Hs|]. intros p Hp. contradiction.
  - intros fs ip rest rel fs0 fs1 Hrel Hd Hstep (Hkeep & Hdirs & Hchanged).
    pose proof (ensure_dir_files fs (dirname (join output_dir rel))) as Hf.
    pose proof (ensure_dir_dirs fs (dirname (join output_dir rel))) as Hs.
    rewrite Hd in Hf, Hs. cbn [final_fs] in Hf, Hs.
    apply resize_image_writes in Hstep
      as (ext & file & Hext & Hfiles & Hdirs1 & _).
    rewrite Hf in Hfiles.
    set (r := resize_all cwd fs1 rest input_dir output_dir
                max_size min_size keep) in *.
    set (out := (splitext (join output_dir rel)).1 +:+ "." +:+ ext) in *.
    split; [|split].
    + intros p Hp. apply Hkeep. rewrite Hfiles.
      destruct (decide (out = p)) as [->|Hne];
        [rewrite lookup_insert_eq; eauto|by rewrite lookup_insert_ne].
    + etrans; [exact Hs|]. by rewrite <- Hdirs1.
    + intros p Hp.
      destruct (decide (out = p)) as [<-|Hne].
      * exists ip, rel, ext. split; [apply list_elem_of_here|].
        split; [exact Hrel|]. split; [exact Hext|reflexivity].
      * assert (Hp1 : files (final_fs r) !! p <> files fs1 !! p)
          by (by rewrite Hfiles, lookup_insert_ne).
        destruct (Hchanged p Hp1) as (ip' & rel' & ext' & Hip & H1 & H2 & H3).
        exists ip', rel', ext'. split; [by apply list_elem_of_further|auto].
Qed.

(** A property [P] of the files that every successful call of
    [resize_image] keeps, and a property [G] of the file such a call
    writes, given [P] before the call. *)
Variable P : fsys -> Prop.
Variable G : string -> PIL.file -> Prop.
Hypothesis P_files : forall fs fs', files fs' = files fs -> P fs -> P fs'.
Hypothesis P_step :
  forall fs image_path output_path fs',
    P fs ->
    resize_image fs image_path output_path max_size min_size keep = Ok fs' ->
    P fs' /\
    exists out file,
      files fs' = <[out := file]> (files fs) /\ G out file.

Lemma resize_all_invariant (paths : list string) (fs : fsys) :
  P fs ->
  let r := resize_all cwd fs paths input_dir output_dir
             max_size min_size keep in
  P (final_fs r) /\
  forall p,
    files (final_fs r) !! p = files fs !! p \/
    exists file, files (final_fs r) !! p = Some file /\ G p file.
Proof.
  cbn zeta. revert paths fs.
  apply (resize_all_run_ind (fun fs paths r =>
    P fs ->
    P (final_fs r) /\
    forall p,
      files (final_fs r) !! p = files fs !! p \/
      exists file, files (final_fs r) !! p = Some file /\ G p file)).
  - intros fs HP. cbn [final_fs]. auto.
  - intros fs ip rest e _ HP. cbn [final_fs]. auto.
  - intros fs ip rest rel e fs0 _ Hd HP.
    pose proof (ensure_dir_files fs (dirname (join output_dir rel))) as Hf.
    rewrite Hd in Hf. cbn [final_fs] in *. rewrite Hf.
    split; [by apply (P_files fs)|auto].
  - intros fs ip rest rel fs0 e _ Hd _ HP.
    pose proof (ensure_dir_files fs (dirname (join output_dir rel))) as Hf.
    rewrite Hd in Hf. cbn [final_fs] in *. rewrite Hf.
    split; [by apply (P_files fs)|auto].
  - intros fs ip rest rel fs0 fs1 _ Hd Hstep IH HP.
    pose proof (ensure_dir_files fs (dirname (join output_dir rel))) as Hf.
    rewrite Hd in Hf. cbn [final_fs] in Hf.
    assert (HP0 : P fs0) by (by apply (P_files fs)).
    destruct (P_step _ _ _ _ HP0 Hstep) as (HP1 & out & file & Hfiles & HG).
    destruct (IH HP1) as (HPr & Hrest).
    split; [exact HPr|].
    intros p. destruct (Hrest p) as [Hsame|Hgood]; [|right; exact Hgood].
    rewrite Hsame, Hfiles.
    destruct (decide (out = p)) as [<-|Hne].
    + right. rewrite lookup_insert_eq. eauto.
    + left. by rewrite lookup_insert_ne, Hf.
Qed.


End Loop.

(** After a run that completes, every collected path was resized by a
    call that returned, and its output path holds an output. *)
Lemma resize_all_done (cwd input_dir output_dir : string)
    (max_size min_size : option Z) (keep : bool)
    (paths : list string) (fs : fsys) :
  forall fs',
    resize_all cwd fs paths input_dir output_dir max_size min_size keep
    = Done fs' ->
    forall input_path, input_path ∈ paths ->
      exists (rel ext : string) (fs0 fs1 : fsys) (file file' : PIL.file),
        relpath cwd input_path input_dir = Ok rel /\
        ext ∈ output_extensions /\
        resize_image fs0 input_path (join output_dir rel)
                     max_size min_size keep = Ok fs1 /\
        files fs1
        = <[(splitext (join output_dir rel)).1 +:+ "." +:+ ext := file]>
            (files fs0) /\
        files fs' !! ((splitext (join output_dir rel)).1 +:+ "." +:+ ext)
        = Some file' /\
        output_at ((splitext (join output_dir rel)).1 +:+ "." +:+ ext) file'.
Proof.
  revert paths fs.
  apply (resize_all_run_ind cwd input_dir output_dir max_size min_size keep
           (fun fs paths r =>
    forall fs', r = Done fs' ->
    forall input_path, input_path ∈ paths ->
      exists (rel ext : string) (fs0 fs1 : fsys) (file file' : PIL.file),
        relpath cwd input_path input_dir = Ok rel /\
        ext ∈ output_extensions /\
        resize_image fs0 input_path (join output_dir rel)
                     max_size min_size keep = Ok fs1 /\
        files fs1
        = <[(splitext (join output_dir rel)).1 +:+ "." +:+ ext := file]>
            (files fs0) /\
        files fs' !! ((splitext (join output_dir rel)).1 +:+ "." +:+ ext)
        = Some file' /\
        output_at ((splitext (join output_dir rel)).1 +:+ "." +:+ ext)
                  file')); try discriminate.
  - intros fs fs' _ ip Hip. by apply elem_of_nil in Hip.
  - intros fs ip rest rel fs0 fs1 Hrel Hd Hstep IH fs' Hdone input_path Hin.
    apply elem_of_cons in Hin as [->|Hin]; [|by apply IH].
    destruct (resize_image_writes _ _ _ _ _ _ _ Hstep)
      as (ext & file & Hext & Hfiles & _ & Hout).
    set (out := (splitext (join output_dir rel)).1 +:+ "." +:+ ext) in *.
    destruct (resize_all_invariant cwd input_dir output_dir
                max_size min_size keep (fun _ => True) output_at
                ltac:(auto)
                ltac:(intros fsa ipa opa fsb _ Hrun; split; [exact I|];
                      destruct (resize_image_writes _ _ _ _ _ _ _ Hrun)
                        as (ext' & file' & _ & Hf' & _ & Hout');
                      eauto)
                rest fs1 I) as [_ Hrest].
    rewrite Hdone in Hrest. cbn [final_fs] in Hrest.
    assert (Hfinal : exists file',
               files fs' !! out = Some file' /\ output_at out file').
    { destruct (Hrest out) as [Hsame|Hgood]; [|exact Hgood].
      exists file. by rewrite Hsame, Hfiles, lookup_insert_eq. }
    destruct Hfinal as (file' & Hfile' & Hout').
    exists rel, ext, fs0, fs1, file, file'. auto 10.
Qed.

(** ** Mirroring *)

Lemma output_path_mirrors (cwd output_dir : string) (ds : list string)
    (f ext : string) :
  isabs cwd = true ->
  Forall (fun x => is_entry_name x = true) ds -> is_entry_name f = true ->
  ext ∈ output_extensions ->
  let rel := sep_join (ds ++ [f]) in
  let rel' := (splitext rel).1 +:+ "." +:+ ext in
  (splitext (join output_dir rel)).1 +:+ "." +:+ ext = join output_dir rel' /\
  relpath cwd (join output_dir rel') output_dir = Ok rel'.
Proof.
  intros Hcwd Hds Hf Hext rel rel'.
  apply entry_name_inv in Hf as Hf'. destruct Hf' as (_ & _ & _ & Hfsep).
  assert (Hname : is_entry_name ((splitext f).1 +:+ "." +:+ ext) = true)
    by (by apply output_name_ok).
  assert (Hrel' : rel' = sep_join (ds ++ [(splitext f).1 +:+ "." +:+ ext])).
  { subst rel' rel. rewrite splitext_sep_join. cbn [fst].
    apply sep_join_snoc_app. }
  assert (Hnames : Forall (fun x => is_entry_name x = true)
                     (ds ++ [(splitext f).1 +:+ "." +:+ ext]))
    by (apply Forall_app; split; [exact Hds|by constructor]).
  assert (Hclean : Forall clean (ds ++ [f])).
  { apply Forall_app. split.
    - by apply entry_names_clean.
    - constructor; [by apply entry_name_clean|constructor]. }
  split.
  - rewrite (join_relative output_dir rel)
      by (by apply startswith_sep_sep_join).
    rewrite splitext_dir_prefix. cbn [fst].
    rewrite join_relative.
    + by rewrite !str_app_assoc.
    + rewrite Hrel'. apply startswith_sep_sep_join.
      by apply entry_names_clean.
  - rewrite Hrel'. apply relpath_join; [exact Hcwd| |exact Hnames].
    by destruct ds.
Qed.

(** The path of a collected file relative to the input directory is made
    of the entry names on the way down to it. *)
Lemma collected_relpath (cwd input_dir : string) (tree : dir_tree)
    (input_path rel : string) :
  isabs cwd = true -> tree_names_ok tree = true ->
  input_path ∈ all_image_paths input_dir tree ->
  relpath cwd input_path input_dir = Ok rel ->
  exists ds f,
    Forall (fun x => is_entry_name x = true) ds /\
    is_entry_name f = true /\ rel = sep_join (ds ++ [f]).
Proof.
  intros Hcwd Hok Hip Hr.
  destruct (all_image_paths_below tree input_dir input_path Hok Hip)
    as (ds & f & Hds & Hf & ->).
  rewrite relpath_join in Hr.
  - injection Hr as <-. eauto.
  - exact Hcwd.
  - by destruct ds.
  - apply Forall_app. split; [exact Hds|by constructor].
Qed.

(** C6: whatever [resize_dataset] changes in the file system, also in a
    run that an exception ends, is an output whose path relative to the
    output root is the path of a discovered source relative to the input
    root with the suffix replaced by one of the output extensions: no file
    is written anywhere else.  And after a run that completes, every
    discovered file was resized by a call of [resize_image] that returned
    and wrote the file at that mirrored path, where an output of the
    program (see [output_at]) is found at the end.  The names in the tree
    are directory entry names and the current directory is absolute. *)
Theorem C6_output_tree_mirrors_input (cwd : string) (tree : dir_tree)
    (fs : fsys) (input_dir output_dir : string)
    (max_size min_size : option Z) (keep : bool) :
  isabs cwd = true -> tree_names_ok tree = true ->
  let r := resize_dataset cwd tree fs input_dir output_dir
             max_size min_size keep in
  (forall p, files (final_fs r) !! p <> files fs !! p ->
     exists input_path rel ext,
       input_path ∈ all_image_paths input_dir tree /\
       relpath cwd input_path input_dir = Ok rel /\
       ext ∈ output_extensions /\
       p = join output_dir ((splitext rel).1 +:+ "." +:+ ext) /\
       relpath cwd p output_dir = Ok ((splitext rel).1 +:+ "." +:+ ext)) /\
  (forall fs', r = Done fs' ->
     forall input_path, input_path ∈ all_image_paths input_dir tree ->
       exists (rel ext : string) (fs0 fs1 : fsys) (file file' : PIL.file),
         relpath cwd input_path input_dir = Ok rel /\
         ext ∈ output_extensions /\
         relpath cwd (join output_dir ((splitext rel).1 +:+ "." +:+ ext))
                 output_dir
         = Ok ((splitext rel).1 +:+ "." +:+ ext) /\
         resize_image fs0 input_path (join output_dir rel)
                      max_size min_size keep = Ok fs1 /\
         files fs1
         = <[join output_dir ((splitext rel).1 +:+ "." +:+ ext) := file]>
             (files fs0) /\
         files fs' !! join output_dir ((splitext rel).1 +:+ "." +:+ ext)
         = Some file' /\
         output_at (join output_dir ((splitext rel).1 +:+ "." +:+ ext))
                   file').
Proof.
  intros Hcwd Hok. cbn zeta. unfold resize_dataset.
  pose proof (ensure_dir_files fs output_dir) as Hf.
  destruct (ensure_dir fs output_dir) as [fs0|e fs0]; cbn [final_fs] in *.
  2:{ split; [intros p Hp; rewrite Hf in Hp; contradiction|discriminate]. }
  split.
  - destruct (resize_all_spec cwd input_dir output_dir max_size min_size keep
                (all_image_paths input_dir tree) fs0)
      as (_ & _ & Hchanged).
    rewrite Hf in Hchanged.
    intros p Hp.
    destruct (Hchanged p Hp) as (ip & rel & ext & Hip & Hr & Hext & ->).
    destruct (collected_relpath cwd input_dir tree ip rel Hcwd Hok Hip Hr)
      as (ds & f & Hds & Hfn & ->).
    destruct (output_path_mirrors cwd output_dir ds f ext Hcwd Hds Hfn Hext)
      as [Hout Hmirror].
    exists ip, (sep_join (ds ++ [f])), ext. rewrite Hout. auto.
  - intros fs' Hdone ip Hip.
    destruct (resize_all_done cwd input_dir output_dir max_size min_size keep
                _ fs0 fs' Hdone ip Hip)
      as (rel & ext & fsa & fsb & file & file' & Hr & Hext & Hstep & Hfiles
          & Hfile' & Hout').
    destruct (collected_relpath cwd input_dir tree ip rel Hcwd Hok Hip Hr)
      as (ds & f & Hds & Hfn & ->).
    destruct (output_path_mirrors cwd output_dir ds f ext Hcwd Hds Hfn Hext)
      as [Hout Hmirror].
    rewrite Hout in Hfiles, Hfile', Hout'.
    exists (sep_join (ds ++ [f])), ext, fsa, fsb, file, file'. auto 10.
Qed.

Lemma sample_dataset_run :
  resize_dataset "/home/u" sample_tree sample_dataset_fs "in" "OUT"
                 (Some 800) None false
  = Done sample_dataset_out.
Proof. vm_compute. reflexivity. Qed.

Example sample_dataset_paths :
  all_image_paths "in" sample_tree = ["in/x.PNG"; "in/a/b/c.jpg"].
Proof. reflexivity. Qed.

Lemma C6_output_tree_mirrors_input_witness :
  (forall p, files sample_dataset_out !! p <> files sample_dataset_fs !! p ->
     exists input_path rel ext,
       input_path ∈ all_image_paths "in" sample_tree /\
       relpath "/home/u" input_path "in" = Ok rel /\
       ext ∈ output_extensions /\
       p = join "OUT" ((splitext rel).1 +:+ "." +:+ ext) /\
       relpath "/home/u" p "OUT" = Ok ((splitext rel).1 +:+ "." +:+ ext)) /\
  (forall input_path, input_path ∈ ["in/x.PNG"; "in/a/b/c.jpg"] ->
     exists (rel ext : string) (fs0 fs1 : fsys) (file file' : PIL.file),
       relpath "/home/u" input_path "in" = Ok rel /\
       ext ∈ output_extensions /\
       relpath "/home/u" (join "OUT" ((splitext rel).1 +:+ "." +:+ ext)) "OUT"
       = Ok ((splitext rel).1 +:+ "." +:+ ext) /\
       resize_image fs0 input_path (join "OUT" rel) (Some 800) None false
       = Ok fs1 /\
       files fs1
       = <[join "OUT" ((splitext rel).1 +:+ "." +:+ ext) := file]>
           (files fs0) /\
       files sample_dataset_out
         !! join "OUT" ((splitext rel).1 +:+ "." +:+ ext)
       = Some file' /\
       output_at (join "OUT" ((splitext rel).1 +:+ "." +:+ ext)) file').
Proof.
  pose proof (C6_output_tree_mirrors_input "/home/u" sample_tree
                sample_dataset_fs "in" "OUT" (Some 800) None false
                eq_refl eq_refl) as H.
  cbn zeta in H. rewrite sample_dataset_run in H. cbn [final_fs] in H.
  destruct H as [Hchanged Hdone].
  split; [exact Hchanged|].
  exact (Hdone sample_dataset_out eq_refl).
Defined.

(** * Further properties of the program *)

(** ** Rounding a mantissa of any length *)

Lemma shr_1_div2 (mrs : shr_record) :
  0 <= shr_m mrs -> shr_m (shr_1 mrs) = shr_m mrs / 2.
Proof.
  destruct mrs as [m r s]. cbn [shr_m shr_1]. intros Hm.
  destruct m as [|[p|p|]|p]; try lia; cbn [shr_m].
  - reflexivity.
  - rewrite (Pos2Z.inj_xI p). apply Z.div_unique with 1; lia.
  - rewrite (Pos2Z.inj_xO p). apply Z.div_unique with 0; lia.
  - reflexivity.
Qed.

Lemma iter_shr_1_div (n : positive) :
  forall mrs : shr_record,
    0 <= shr_m mrs ->
    shr_m (SpecFloat.iter_pos shr_1 n mrs) = shr_m mrs / 2 ^ Z.pos n.
Proof.
  induction n as [n IH|n IH|]; intros mrs Hm; cbn [SpecFloat.iter_pos].
  - assert (H1 : 0 <= shr_m (shr_1 mrs))
      by (rewrite shr_1_div2 by assumption; apply Z.div_pos; lia).
    assert (H2 : 0 <= shr_m (SpecFloat.iter_pos shr_1 n (shr_1 mrs)))
      by (rewrite IH by assumption; apply Z.div_pos; lia).
    rewrite IH, IH, shr_1_div2 by assumption.
    rewrite !Z.div_div by lia. f_equal.
    rewrite (Pos2Z.inj_xI n), <- Z.pow_add_r, <- (Z.pow_1_r 2) at 1 by lia.
    rewrite <- Z.pow_add_r by lia. f_equal. lia.
  - assert (H2 : 0 <= shr_m (SpecFloat.iter_pos shr_1 n mrs))
      by (rewrite IH by assumption; apply Z.div_pos; lia).
    rewrite IH, IH by assumption.
    rewrite !Z.div_div by lia. f_equal.
    rewrite (Pos2Z.inj_xO n), <- Z.pow_add_r by lia. f_equal. lia.
  - apply shr_1_div2. assumption.
Qed.

(** The first stage of rounding keeps the 53 leading bits of a long
    mantissa. *)
Lemma shr_fexp_long (q e d : Z) (l : location) :
  2 ^ (d - 1) <= q < 2 ^ d -> 53 <= d -> -1074 <= e ->
  exists mrs : shr_record,
    shr_fexp prec emax q e l = (mrs, e + (d - 53)) /\
    shr_m mrs = q / 2 ^ (d - 53).
Proof.
  intros Hq Hd He. unfold shr_fexp.
  rewrite (Zdigits2_unique q d) by (assumption || lia).
  rewrite fexp_normal by lia.
  replace (d + e - 53 - e) with (d - 53) by lia.
  unfold shr. destruct (d - 53) as [|n|n] eqn:Hn; try lia.
  - eexists. split; [f_equal; lia|].
    rewrite shr_m_of_loc, Z.div_1_r. reflexivity.
  - eexists. split; [reflexivity|].
    rewrite iter_shr_1_div; rewrite shr_m_of_loc; [reflexivity|].
    pose proof (Z.pow_pos_nonneg 2 (d - 1)). lia.
Qed.

(** Rounding is faithful: the float kept for a mantissa [q] of at least
    53 bits lies within one unit in the last place of it, on either
    side. *)
Lemma binary_round_aux_faithful (s : bool) (q e d : Z) (l : location) :
  2 ^ (d - 1) <= q < 2 ^ d -> 53 <= d -> -1074 <= e -> e + d <= 1000 ->
  exists (m2 : positive) (k : Z),
    binary_round_aux prec emax s q e l = S754_finite s m2 (e + k) /\
    2 ^ 52 <= Z.pos m2 < 2 ^ 53 /\
    d - 53 <= k <= d - 52 /\
    (Z.pos m2 - 1) * 2 ^ k <= q /\ q + 1 <= (Z.pos m2 + 1) * 2 ^ k.
Proof.
  intros Hq Hd He Hmax. unfold binary_round_aux.
  destruct (shr_fexp_long q e d l Hq Hd He) as (mrs1 & -> & Hm1).
  set (n := d - 53) in *.
  assert (Hn : 0 <= n) by (subst n; lia).
  assert (Hpn : 0 < 2 ^ n) by (apply Z.pow_pos_nonneg; lia).
  assert (Hlo : 2 ^ 52 * 2 ^ n = 2 ^ (d - 1))
    by (rewrite <- Z.pow_add_r by lia; f_equal; subst n; lia).
  assert (Hhi : 2 ^ 53 * 2 ^ n = 2 ^ d)
    by (rewrite <- Z.pow_add_r by lia; f_equal; subst n; lia).
  assert (Hdm : shr_m mrs1 * 2 ^ n <= q < (shr_m mrs1 + 1) * 2 ^ n).
  { rewrite Hm1. pose proof (Z.mul_div_le q (2 ^ n) Hpn).
    pose proof (Z.mul_succ_div_gt q (2 ^ n) Hpn). lia. }
  assert (Hm1' : 2 ^ 52 <= shr_m mrs1 < 2 ^ 53) by nia.
  pose proof (round_nearest_even_bounds (shr_m mrs1) (loc_of_shr_record mrs1))
    as Hrne.
  remember (round_nearest_even (shr_m mrs1) (loc_of_shr_record mrs1)) as q1
    eqn:Hq1def.
  destruct (Z.eq_dec q1 (2 ^ 53)) as [Hcarry|Hnocarry].
  - rewrite Hcarry, (shr_fexp_54 (2 ^ 53) (e + n) loc_Exact) by lia.
    cbn [shr_record_of_loc shr_1 shr_m Z.pow Z.pow_pos Pos.iter Z.mul Pos.mul].
    replace (e + n + 1 <=? emax - prec) with true
      by (symmetry; apply Z.leb_le; unfold emax, prec; lia).
    exists 4503599627370496%positive, (n + 1).
    split; [f_equal; lia|]. split; [simpl; lia|]. split; [lia|].
    rewrite Z.pow_add_r, Z.pow_1_r by lia.
    change (Z.pos 4503599627370496) with (2 ^ 52).
    assert (Hm1eq : shr_m mrs1 = 2 ^ 53 - 1) by lia.
    rewrite Hm1eq in Hdm. lia.
  - rewrite (shr_fexp_53 q1 (e + n) loc_Exact) by lia.
    cbn [shr_record_of_loc shr_m].
    destruct q1 as [|m2|m2]; try lia.
    replace (e + n <=? emax - prec) with true
      by (symmetry; apply Z.leb_le; unfold emax, prec; lia).
    exists m2, n. split; [reflexivity|]. split; [lia|]. split; [lia|]. nia.
Qed.

(** ** Division and multiplication within one unit in the last place *)

Lemma digits_below (p : positive) (n : Z) :
  0 <= n -> Z.pos p < 2 ^ n -> Z.pos (digits2_pos p) <= n.
Proof.
  intros Hn Hp.
  pose proof (digits2_pos_bounds p) as [Hlo _].
  destruct (Z_le_gt_dec (Z.pos (digits2_pos p)) n) as [|Hgt]; [assumption|].
  pose proof (Z.pow_le_mono_r 2 n (Z.pos (digits2_pos p) - 1)). lia.
Qed.

(** [a / b] for ints below 2^50: a normal float [m * 2^-E] within one unit
    in the last place of the quotient. *)
Lemma truediv_near (a b : positive) :
  Z.pos a < 2 ^ 50 -> Z.pos b < 2 ^ 50 ->
  exists (m : positive) (E : Z),
    truediv_int (Z.pos a) (Z.pos b) = Ok (S754_finite false m (- E)) /\
    2 ^ 52 <= Z.pos m < 2 ^ 53 /\ 2 <= E <= 105 /\
    near (Z.pos a) (Z.pos b) m E.
Proof.
  intros Ha Hb.
  destruct (SFdiv_core_small a b) as [Hcore Hq]; [lia|lia|].
  pose proof (digits_below a 50 ltac:(lia) Ha) as Hda.
  pose proof (digits_below b 50 ltac:(lia) Hb) as Hdb.
  cbv zeta in Hcore, Hq.
  set (e' := Z.pos (digits2_pos a) - Z.pos (digits2_pos b) - 53) in *.
  set (q := Z.pos a * 2 ^ (- e') / Z.pos b) in *.
  assert (Hpe : 0 < 2 ^ (- e')) by (apply Z.pow_pos_nonneg; subst e'; lia).
  assert (Hqb : q * Z.pos b <= Z.pos a * 2 ^ (- e') < (q + 1) * Z.pos b).
  { subst q. pose proof (Z.mul_div_le (Z.pos a * 2 ^ (- e')) (Z.pos b)).
    pose proof (Z.mul_succ_div_gt (Z.pos a * 2 ^ (- e')) (Z.pos b)). lia. }
  assert (Hd : exists d, 2 ^ (d - 1) <= q < 2 ^ d /\ 53 <= d <= 54).
  { destruct (Z_lt_le_dec q (2 ^ 53)); [exists 53|exists 54]; simpl; lia. }
  destruct Hd as (d & Hqd & Hd).
  destruct (binary_round_aux_faithful false q e' d
              (new_location (Z.pos b) ((Z.pos a * 2 ^ (- e')) mod Z.pos b)))
    as (m & k & Hround & Hm & Hk & Hlo & Hhi);
    [exact Hqd|lia|subst e'; lia|subst e'; lia|].
  exists m, (- (e' + k)). rewrite Z.opp_involutive.
  split; [|split; [exact Hm|split; [subst e'; lia|]]].
  - unfold truediv_int. cbn [Z.eqb Z.ltb Z.compare SFdiv xorb].
    change (Z.to_pos (Z.abs (Z.pos a))) with a.
    change (Z.to_pos (Z.abs (Z.pos b))) with b.
    rewrite Hcore, Hround. reflexivity.
  - unfold near.
    assert (Hpk : 0 < 2 ^ k) by (apply Z.pow_pos_nonneg; lia).
    assert (Hsplit : 2 ^ (- e') = 2 ^ (- (e' + k)) * 2 ^ k)
      by (rewrite <- Z.pow_add_r by (subst e'; lia); f_equal; lia).
    rewrite Hsplit in Hqb.
    set (S := 2 ^ (- (e' + k))) in *.
    split.
    + apply (Z.mul_le_mono_pos_r _ _ (2 ^ k)); [exact Hpk|]. nia.
    + apply Z.lt_le_incl, (Z.mul_lt_mono_pos_r (2 ^ k)); [exact Hpk|]. nia.
Qed.

(** [w * x] for an int [w] below 2^53 and a normal float [x]: within one
    unit in the last place of the product. *)
Lemma int_mul_near (w m : positive) (E : Z) :
  Z.pos w < 2 ^ 53 -> 2 ^ 52 <= Z.pos m < 2 ^ 53 -> 0 <= E <= 900 ->
  exists (m' : positive) (z k : Z),
    int_mul (Z.pos w) (S754_finite false m (- E))
    = Ok (S754_finite false m' (k - z - E)) /\
    2 ^ 52 <= Z.pos m' < 2 ^ 53 /\ 0 <= z <= 52 /\ 52 <= k <= 54 /\
    (Z.pos m' - 1) * 2 ^ k <= Z.pos w * 2 ^ z * Z.pos m /\
    Z.pos w * 2 ^ z * Z.pos m + 1 <= (Z.pos m' + 1) * 2 ^ k.
Proof.
  intros Hw Hm HE.
  destruct (of_int_small w Hw) as (mz & ez & Hconv & Hmz & Hez & Hval).
  unfold int_mul. rewrite Hconv. simpl_bind.
  unfold mul, SFmul. cbn [xorb].
  assert (Hprod : Z.pos (mz * m) = Z.pos w * 2 ^ (- ez) * Z.pos m)
    by (rewrite Pos2Z.inj_mul, Hval; reflexivity).
  assert (Hd : exists d, 2 ^ (d - 1) <= Z.pos (mz * m) < 2 ^ d /\
                         105 <= d <= 106).
  { rewrite Pos2Z.inj_mul.
    destruct (Z_lt_le_dec (Z.pos mz * Z.pos m) (2 ^ 105));
      [exists 105|exists 106]; simpl in *; nia. }
  destruct Hd as (d & Hqd & Hd).
  destruct (binary_round_aux_faithful false (Z.pos (mz * m)) (ez + - E) d
              loc_Exact)
    as (m' & k & Hround & Hm' & Hk & Hlo & Hhi); [exact Hqd|lia|lia|lia|].
  exists m', (- ez), k. rewrite Hround.
  split; [do 2 f_equal; lia|]. split; [exact Hm'|].
  split; [lia|]. split; [lia|]. rewrite <- Hprod. split; assumption.
Qed.

(** ** One scaled dimension *)

(** The arithmetic behind a scaled dimension: with the ratio within one
    unit in the last place of [a / b] and the product within one unit in
    the last place of [w * ratio], the error stays far below [1 / b]. *)
Lemma scaled_error_small (a b w m m' S Zz K : Z) :
  0 < a -> 0 < b -> 0 < w -> 0 < S -> 0 < Zz -> 0 < K ->
  2 ^ 52 <= m < 2 ^ 53 -> 2 ^ 52 <= m' < 2 ^ 53 ->
  (m - 1) * b <= a * S ->
  (m' - 1) * K <= w * Zz * m ->
  w * a < 2 ^ 50 ->
  b * (w * Zz + K) < Zz * S.
Proof.
  intros Ha Hb Hw HS HZ HK Hm Hm' Hdiv Hmul Hwa.
  set (X := w * Zz) in *.
  assert (HX : 0 < X) by (subst X; nia).
  assert (HK3 : K <= 3 * X).
  { assert ((2 ^ 52 - 1) * K <= X * m) by nia.
    assert (X * m <= X * 2 ^ 53) by nia.
    change (2 ^ 52) with 4503599627370496 in *.
    change (2 ^ 53) with 9007199254740992 in *. lia. }
  set (P := Zz * b).
  assert (HP : 0 < P) by (subst P; nia).
  assert (H1 : a * (b * (X + K)) <= 4 * (w * a) * P).
  { subst X P. nia. }
  assert (H2 : (2 ^ 52 - 1) * P <= a * (Zz * S)).
  { assert ((2 ^ 52 - 1) * b <= a * S) by nia. subst P. nia. }
  assert (H3 : 4 * (w * a) * P < (2 ^ 52 - 1) * P).
  { apply Z.mul_lt_mono_pos_r; [exact HP|].
    change (2 ^ 52) with 4503599627370496.
    change (2 ^ 50) with 1125899906842624 in Hwa. lia. }
  apply (Z.mul_lt_mono_pos_l a); [exact Ha|]. lia.
Qed.

Lemma scaled_dimension (a b w m : positive) (E : Z) :
  near (Z.pos a) (Z.pos b) m E ->
  2 ^ 52 <= Z.pos m < 2 ^ 53 -> 0 <= E <= 900 ->
  Z.pos w * Z.pos a < 2 ^ 50 ->
  exists (p : float) (n : Z),
    int_mul (Z.pos w) (S754_finite false m (- E)) = Ok p /\
    to_int p = Ok n /\
    Z.pos w * Z.pos a / Z.pos b - 1 <= n <= Z.pos w * Z.pos a / Z.pos b /\
    ((Z.pos w * Z.pos a) mod Z.pos b <> 0 ->
     n = Z.pos w * Z.pos a / Z.pos b).
Proof.
  intros [Hlo Hhi] Hm HE Hwa.
  assert (Hw : Z.pos w < 2 ^ 53).
  { change (2 ^ 50) with 1125899906842624 in Hwa.
    change (2 ^ 53) with 9007199254740992. nia. }
  destruct (int_mul_near w m E Hw Hm HE)
    as (m' & z & k & Hmul & Hm' & Hz & Hk & Hplo & Hphi).
  set (S := 2 ^ E) in *. set (Zz := 2 ^ z) in *. set (K := 2 ^ k) in *.
  assert (HS : 0 < S) by (apply Z.pow_pos_nonneg; lia).
  assert (HZ : 0 < Zz) by (apply Z.pow_pos_nonneg; lia).
  assert (HK : 0 < K) by (apply Z.pow_pos_nonneg; lia).
  pose proof (scaled_error_small (Z.pos a) (Z.pos b) (Z.pos w) (Z.pos m)
                (Z.pos m') S Zz K ltac:(lia) ltac:(lia) ltac:(lia) HS HZ HK
                Hm Hm' Hlo Hplo Hwa) as Herr.
  (* the product is below 2^52, so its exponent is negative *)
  assert (HT : k < z + E).
  { apply (Z.pow_lt_mono_r_iff 2); [lia|lia|].
    rewrite Z.pow_add_r by lia. fold K Zz S. nia. }
  set (T := z + E - k).
  assert (HKT : K * 2 ^ T = Zz * S).
  { subst K Zz S T. rewrite <- !Z.pow_add_r by lia. f_equal. lia. }
  assert (HpT : 0 < 2 ^ T) by (apply Z.pow_pos_nonneg; subst T; lia).
  set (n := Z.pos m' / 2 ^ T).
  assert (Hn : n * 2 ^ T <= Z.pos m' < (n + 1) * 2 ^ T).
  { subst n. pose proof (Z.mul_div_le (Z.pos m') (2 ^ T) HpT).
    pose proof (Z.mul_succ_div_gt (Z.pos m') (2 ^ T) HpT). lia. }
  exists (S754_finite false m' (k - z - E)), n.
  split; [exact Hmul|]. split.
  { unfold to_int, cond_Zopp. f_equal.
    replace (k - z - E) with (- T) by (subst T; lia).
    rewrite Z.shiftl_div_pow2 by (subst T; lia).
    rewrite Z.opp_involutive. reflexivity. }
  set (u := Z.pos w * Z.pos a) in *.
  set (Tt := 2 ^ T) in *.
  set (KT := K * Tt) in *.
  assert (HKTpos : 0 < KT) by (subst KT; nia).
  (* n * b * KT <= u * KT + (w * b * Zz + K * b) *)
  assert (Hup : n * Z.pos b * KT < (u + 1) * KT).
  { assert (n * Tt * (K * Z.pos b) <= Z.pos m' * (K * Z.pos b)) by nia.
    assert ((Z.pos m' - 1) * K * Z.pos b
            <= Z.pos w * Zz * Z.pos m * Z.pos b) by nia.
    assert (Z.pos w * Zz * (Z.pos m * Z.pos b)
            <= Z.pos w * Zz * (Z.pos a * S + Z.pos b)) by nia.
    assert (Z.pos w * Zz * (Z.pos a * S) = u * KT)
      by (subst u KT; rewrite HKT; ring).
    nia. }
  assert (Hdown : u * KT - Z.pos w * Z.pos b * Zz < (n + 1) * Z.pos b * KT).
  { assert ((Z.pos m' + 1) * (K * Z.pos b) <= (n + 1) * Tt * (K * Z.pos b))
      by nia.
    assert (Z.pos w * Zz * Z.pos m * Z.pos b
            < (Z.pos m' + 1) * K * Z.pos b) by nia.
    assert (Z.pos w * Zz * (Z.pos a * S - Z.pos b)
            <= Z.pos w * Zz * (Z.pos m * Z.pos b)) by nia.
    assert (Z.pos w * Zz * (Z.pos a * S) = u * KT)
      by (subst u KT; rewrite HKT; ring).
    nia. }
  assert (Hnb : n * Z.pos b <= u) by nia.
  assert (Hsmall : Z.pos w * Z.pos b * Zz < KT) by (subst KT; nia).
  pose proof (Z.mul_div_le u (Z.pos b) ltac:(lia)) as HX1.
  pose proof (Z.mul_succ_div_gt u (Z.pos b) ltac:(lia)) as HX2.
  set (X := u / Z.pos b) in *.
  split; [split|].
  - assert (Hlt : X * (Z.pos b * KT) < (n + 2) * (Z.pos b * KT)) by nia.
    apply Z.mul_lt_mono_pos_r in Hlt; [lia|nia].
  - subst X. apply Z.div_le_lower_bound; lia.
  - intros Hmod.
    assert (HX3 : Z.pos b * X + 1 <= u).
    { pose proof (Z.div_mod u (Z.pos b) ltac:(lia)).
      pose proof (Z.mod_pos_bound u (Z.pos b) ltac:(lia)). subst X. lia. }
    assert ((Z.pos b * X + 1) * KT <= u * KT)
      by (apply Z.mul_le_mono_nonneg_r; lia).
    assert (Hlt : X * (Z.pos b * KT) < (n + 1) * (Z.pos b * KT)) by lia.
    apply Z.mul_lt_mono_pos_r in Hlt; [|nia].
    assert (n <= X) by (subst X; apply Z.div_le_lower_bound; lia).
    lia.
Qed.

(** ** The ratio [min] and [max] pick *)

(** A float that is not above one near [a / d] and that is itself near
    [a / bo], a quotient that is not below [a / d], is near [a / d]. *)
Lemma near_smaller (a d bo : Z) (md mo : positive) (Ed Eo : Z) :
  0 < a -> 0 < bo <= d ->
  2 ^ 52 <= Z.pos md < 2 ^ 53 -> 2 ^ 52 <= Z.pos mo < 2 ^ 53 ->
  0 <= Ed -> 0 <= Eo ->
  near a d md Ed -> near a bo mo Eo ->
  - Eo < - Ed \/ (- Eo = - Ed /\ Z.pos mo <= Z.pos md) ->
  near a d mo Eo.
Proof.
  intros Ha Hb Hmd Hmo HEd HEo [Hdlo Hdhi] [Holo Hohi] Hle. unfold near.
  split; [|nia].
  destruct Hle as [Hlt|[Heq Hm]].
  - assert (Hpow : 2 * 2 ^ Ed <= 2 ^ Eo).
    { replace (2 * 2 ^ Ed) with (2 ^ (Ed + 1))
        by (rewrite Z.pow_add_r by lia; lia).
      apply Z.pow_le_mono_r; lia. }
    assert (2 * (a * 2 ^ Ed) <= a * 2 ^ Eo) by nia.
    assert ((Z.pos mo - 1) * d <= 2 * ((Z.pos md - 1) * d)) by nia.
    lia.
  - replace Eo with Ed by lia. nia.
Qed.

(** The same from above. *)
Lemma near_larger (a d bo : Z) (md mo : positive) (Ed Eo : Z) :
  0 < a -> 0 < d <= bo ->
  2 ^ 52 <= Z.pos md < 2 ^ 53 -> 2 ^ 52 <= Z.pos mo < 2 ^ 53 ->
  0 <= Ed -> 0 <= Eo ->
  near a d md Ed -> near a bo mo Eo ->
  - Ed < - Eo \/ (- Ed = - Eo /\ Z.pos md <= Z.pos mo) ->
  near a d mo Eo.
Proof.
  intros Ha Hb Hmd Hmo HEd HEo [Hdlo Hdhi] [Holo Hohi] Hle. unfold near.
  split; [nia|].
  destruct Hle as [Hlt|[Heq Hm]].
  - assert (Hpow : 2 * 2 ^ Eo <= 2 ^ Ed).
    { replace (2 * 2 ^ Eo) with (2 ^ (Eo + 1))
        by (rewrite Z.pow_add_r by lia; lia).
      apply Z.pow_le_mono_r; lia. }
    assert (2 * (a * 2 ^ Eo) <= a * 2 ^ Ed) by nia.
    assert ((Z.pos md + 1) * d <= 2 * ((Z.pos mo + 1) * d)) by nia.
    lia.
  - replace Eo with Ed by lia. nia.
Qed.

(** With [max_size], the ratio is near [max_size / max(w, h)] ... *)
Lemma scale_ratio_max_near (w h M : positive) (min_size : option Z) :
  Z.pos w < 2 ^ 50 -> Z.pos h < 2 ^ 50 -> Z.pos M < 2 ^ 50 ->
  exists (m : positive) (E : Z),
    scale_ratio (Z.pos w) (Z.pos h) (Some (Z.pos M)) min_size
    = Ok (S754_finite false m (- E)) /\
    2 ^ 52 <= Z.pos m < 2 ^ 53 /\ 2 <= E <= 105 /\
    near (Z.pos M) (Z.max (Z.pos w) (Z.pos h)) m E.
Proof.
  intros Hw Hh HM. unfold scale_ratio.
  destruct (truediv_near M w HM Hw) as (mw & Ew & -> & Hmw & HEw & Hnw).
  destruct (truediv_near M h HM Hh) as (mh & Eh & -> & Hmh & HEh & Hnh).
  simpl_bind. unfold py_min.
  destruct (ltb (S754_finite false mh (- Eh)) (S754_finite false mw (- Ew)))
    eqn:Hcmp.
  - exists mh, Eh. split; [reflexivity|]. split; [exact Hmh|].
    split; [exact HEh|].
    apply ltb_finite in Hcmp.
    destruct (Z.max_spec (Z.pos w) (Z.pos h)) as [[Hlt ->]|[Hle ->]];
      [exact Hnh|].
    apply (near_smaller _ _ (Z.pos h) mw mh Ew Eh); try assumption; lia.
  - exists mw, Ew. split; [reflexivity|]. split; [exact Hmw|].
    split; [exact HEw|].
    apply ltb_finite_false in Hcmp.
    destruct (Z.max_spec (Z.pos w) (Z.pos h)) as [[Hlt ->]|[Hle ->]];
      [|exact Hnw].
    apply (near_smaller _ _ (Z.pos w) mh mw Eh Ew); try assumption; lia.
Qed.

(** ... and with [min_size] alone, near [min_size / min(w, h)]. *)
Lemma scale_ratio_min_near (w h M : positive) :
  Z.pos w < 2 ^ 50 -> Z.pos h < 2 ^ 50 -> Z.pos M < 2 ^ 50 ->
  exists (m : positive) (E : Z),
    scale_ratio (Z.pos w) (Z.pos h) None (Some (Z.pos M))
    = Ok (S754_finite false m (- E)) /\
    2 ^ 52 <= Z.pos m < 2 ^ 53 /\ 2 <= E <= 105 /\
    near (Z.pos M) (Z.min (Z.pos w) (Z.pos h)) m E.
Proof.
  intros Hw Hh HM. unfold scale_ratio.
  destruct (truediv_near M w HM Hw) as (mw & Ew & -> & Hmw & HEw & Hnw).
  destruct (truediv_near M h HM Hh) as (mh & Eh & -> & Hmh & HEh & Hnh).
  simpl_bind. unfold py_max.
  destruct (ltb (S754_finite false mw (- Ew)) (S754_finite false mh (- Eh)))
    eqn:Hcmp.
  - exists mh, Eh. split; [reflexivity|]. split; [exact Hmh|].
    split; [exact HEh|].
    apply ltb_finite in Hcmp.
    destruct (Z.min_spec (Z.pos w) (Z.pos h)) as [[Hlt ->]|[Hle ->]];
      [|exact Hnh].
    apply (near_larger _ _ (Z.pos h) mw mh Ew Eh); try assumption; lia.
  - exists mw, Ew. split; [reflexivity|]. split; [exact Hmw|].
    split; [exact HEw|].
    apply ltb_finite_false in Hcmp.
    destruct (Z.min_spec (Z.pos w) (Z.pos h)) as [[Hlt ->]|[Hle ->]];
      [exact Hnw|].
    apply (near_larger _ _ (Z.pos w) mh mw Eh Ew); try assumption; lia.
Qed.

(** Both dimensions, for a ratio near [a / d]. *)
Lemma new_size_near (w h a d m : positive) (E : Z) :
  near (Z.pos a) (Z.pos d) m E ->
  2 ^ 52 <= Z.pos m < 2 ^ 53 -> 0 <= E <= 900 ->
  Z.pos w * Z.pos a < 2 ^ 50 -> Z.pos h * Z.pos a < 2 ^ 50 ->
  exists nw nh : Z,
    new_size (Z.pos w) (Z.pos h) (S754_finite false m (- E)) = Ok (nw, nh) /\
    exact_or_one_less (Z.pos w * Z.pos a) (Z.pos d) nw /\
    exact_or_one_less (Z.pos h * Z.pos a) (Z.pos d) nh.
Proof.
  intros Hnear Hm HE Hwa Hha. unfold new_size.
  destruct (scaled_dimension a d w m E Hnear Hm HE Hwa)
    as (pw & nw & -> & Hnw & Hw1 & Hw2).
  destruct (scaled_dimension a d h m E Hnear Hm HE Hha)
    as (ph & nh & -> & Hnh & Hh1 & Hh2).
  simpl_bind. rewrite Hnw. simpl_bind. rewrite Hnh. simpl_bind.
  exists nw, nh. split; [reflexivity|]. split; split; assumption.
Qed.

(** ** The size within one pixel of the exact one *)

Lemma target_size_max_near (w h M : Z) (min_size : option Z) :
  0 < w -> 0 < h -> 0 < M -> Z.max w h * M < 2 ^ 50 ->
  exists nw nh : Z,
    target_size w h (Some M) min_size = Ok (nw, nh) /\
    exact_or_one_less (w * M) (Z.max w h) nw /\
    exact_or_one_less (h * M) (Z.max w h) nh.
Proof.
  intros Hw Hh HM Hbound.
  destruct w as [|w|w]; try lia. destruct h as [|h|h]; try lia.
  destruct M as [|M|M]; try lia.
  rewrite <- Pos2Z.inj_max in *.
  assert (Hd : Z.pos w <= Z.pos (Pos.max w h) /\ Z.pos h <= Z.pos (Pos.max w h))
    by lia.
  change (2 ^ 50) with 1125899906842624 in *.
  destruct (scale_ratio_max_near w h M min_size)
    as (m & E & Hratio & Hm & HE & Hnear); [nia|nia|nia|].
  rewrite <- Pos2Z.inj_max in Hnear.
  unfold target_size. rewrite Hratio. simpl_bind.
  apply (new_size_near w h M (Pos.max w h) m E); try assumption; try lia; nia.
Qed.

Lemma target_size_min_near (w h m : Z) :
  0 < w -> 0 < h -> 0 < m -> Z.max w h * m < 2 ^ 50 ->
  exists nw nh : Z,
    target_size w h None (Some m) = Ok (nw, nh) /\
    exact_or_one_less (w * m) (Z.min w h) nw /\
    exact_or_one_less (h * m) (Z.min w h) nh.
Proof.
  intros Hw Hh HM Hbound.
  destruct w as [|w|w]; try lia. destruct h as [|h|h]; try lia.
  destruct m as [|M|M]; try lia.
  rewrite <- Pos2Z.inj_min.
  assert (Hd : Z.pos w <= Z.max (Z.pos w) (Z.pos h) /\
               Z.pos h <= Z.max (Z.pos w) (Z.pos h)) by lia.
  change (2 ^ 50) with 1125899906842624 in *.
  destruct (scale_ratio_min_near w h M)
    as (m & E & Hratio & Hm & HE & Hnear); [nia|nia|nia|].
  rewrite <- Pos2Z.inj_min in Hnear.
  unfold target_size. rewrite Hratio. simpl_bind.
  apply (new_size_near w h M (Pos.min w h) m E); try assumption; try lia; nia.
Qed.

(** Either way: for the bound in force [b] and the side [d] it applies
    to, each new side is [side * b / d] rounded down, or one less where
    the division is exact. *)
Lemma target_size_near (w h b d : Z) (max_size min_size : option Z) :
  0 < w -> 0 < h -> 0 < b -> Z.max w h * b < 2 ^ 50 ->
  bound_in_force max_size min_size w h b d ->
  exists nw nh : Z,
    target_size w h max_size min_size = Ok (nw, nh) /\
    exact_or_one_less (w * b) d nw /\
    exact_or_one_less (h * b) d nh.
Proof.
  intros Hw Hh Hb Hbound [[-> ->]|(-> & -> & ->)].
  - by apply target_size_max_near.
  - by apply target_size_min_near.
Qed.

(** A bound that the image meets already leaves its size as it is. *)
Lemma target_size_bound_met (w h d : Z) (max_size min_size : option Z) :
  0 < w < 2 ^ 53 -> 0 < h < 2 ^ 53 ->
  bound_in_force max_size min_size w h d d ->
  target_size w h max_size min_size = Ok (w, h).
Proof.
  intros Hw Hh [[-> ->]|(-> & -> & ->)]; unfold target_size.
  - rewrite scale_ratio_max_met by assumption.
    simpl_bind. by apply new_size_one.
  - rewrite scale_ratio_min_met by assumption.
    simpl_bind. by apply new_size_one.
Qed.

Lemma bound_in_force_side (w h b d : Z) (max_size min_size : option Z) :
  0 < w -> 0 < h -> bound_in_force max_size min_size w h b d ->
  0 < d <= Z.max w h.
Proof. intros Hw Hh [[_ ->]|(_ & _ & ->)]; lia. Qed.

(** Scaling by [a / d] with [a <= d] does not enlarge, by [a / d] with
    [d < a] does not shrink. *)
Lemma exact_or_one_less_direction (w a d n : Z) :
  0 < w -> 0 < a -> 0 < d -> exact_or_one_less (w * a) d n ->
  (a <= d -> n <= w) /\ (d < a -> w <= n).
Proof.
  intros Hw Ha Hd [Hn Hexact]. split.
  - intros Hle.
    assert (w * a / d <= w) by (apply Z.div_le_upper_bound; nia). lia.
  - intros Hlt.
    assert (Hge : w <= w * a / d) by (apply Z.div_le_lower_bound; nia).
    destruct (Z.eq_dec ((w * a) mod d) 0) as [Hmod|Hmod].
    + pose proof (Z.div_mod (w * a) d ltac:(lia)) as Hdm.
      rewrite Hmod, Z.add_0_r in Hdm.
      assert (w < w * a / d) by nia. lia.
    + rewrite (Hexact Hmod). exact Hge.
Qed.

(** X1: with [max_size = M], for an image whose sides times [M] stay
    below 2^50, a size is computed (no exception), each side of it is the
    exact scaled side [side * M / max(w, h)] rounded down, or one less
    than that where the division leaves no remainder, and so the longer
    side of the result is [M] or [M - 1]: it never exceeds [M]. *)
Theorem max_size_longer_edge_within_one (w h M : Z) (min_size : option Z) :
  0 < w -> 0 < h -> 0 < M -> Z.max w h * M < 2 ^ 50 ->
  exists nw nh : Z,
    target_size w h (Some M) min_size = Ok (nw, nh) /\
    exact_or_one_less (w * M) (Z.max w h) nw /\
    exact_or_one_less (h * M) (Z.max w h) nh /\
    M - 1 <= Z.max nw nh <= M.
Proof.
  intros Hw Hh HM Hbound.
  destruct (target_size_max_near w h M min_size Hw Hh HM Hbound)
    as (nw & nh & Hsize & Hnw & Hnh).
  exists nw, nh. split; [exact Hsize|]. split; [exact Hnw|].
  split; [exact Hnh|].
  destruct Hnw as [Hnw _], Hnh as [Hnh _].
  assert (Hwd : w * M / Z.max w h <= M)
    by (apply Z.div_le_upper_bound; nia).
  assert (Hhd : h * M / Z.max w h <= M)
    by (apply Z.div_le_upper_bound; nia).
  destruct (Z.max_spec w h) as [[Hlt Hmax]|[Hle Hmax]]; rewrite Hmax in *.
  - rewrite (Z.mul_comm h M), Z.div_mul in Hnh by lia. lia.
  - rewrite (Z.mul_comm w M), Z.div_mul in Hnw by lia. lia.
Qed.

Lemma max_size_longer_edge_within_one_witness :
  exists nw nh : Z,
    target_size 1920 1080 (Some 512) None = Ok (nw, nh) /\
    exact_or_one_less (1920 * 512) (Z.max 1920 1080) nw /\
    exact_or_one_less (1080 * 512) (Z.max 1920 1080) nh /\
    512 - 1 <= Z.max nw nh <= 512.
Proof.
  apply (max_size_longer_edge_within_one 1920 1080 512 None); simpl; lia.
Defined.

(** X2: with [min_size = m] alone, under the same range condition, each
    side is the exact scaled side [side * m / min(w, h)] rounded down, or
    one less than that where the division leaves no remainder, and so the
    shorter side of the result is [m] or [m - 1]. *)
Theorem min_size_shorter_edge_within_one (w h m : Z) :
  0 < w -> 0 < h -> 0 < m -> Z.max w h * m < 2 ^ 50 ->
  exists nw nh : Z,
    target_size w h None (Some m) = Ok (nw, nh) /\
    exact_or_one_less (w * m) (Z.min w h) nw /\
    exact_or_one_less (h * m) (Z.min w h) nh /\
    m - 1 <= Z.min nw nh <= m.
Proof.
  intros Hw Hh HM Hbound.
  destruct (target_size_min_near w h m Hw Hh HM Hbound)
    as (nw & nh & Hsize & Hnw & Hnh).
  exists nw, nh. split; [exact Hsize|]. split; [exact Hnw|].
  split; [exact Hnh|].
  destruct Hnw as [Hnw _], Hnh as [Hnh _].
  assert (Hwd : m <= w * m / Z.min w h)
    by (apply Z.div_le_lower_bound; nia).
  assert (Hhd : m <= h * m / Z.min w h)
    by (apply Z.div_le_lower_bound; nia).
  destruct (Z.min_spec w h) as [[Hlt Hmin]|[Hle Hmin]]; rewrite Hmin in *.
  - rewrite (Z.mul_comm w m), Z.div_mul in Hnw by lia. lia.
  - rewrite (Z.mul_comm h m), Z.div_mul in Hnh by lia. lia.
Qed.

Lemma min_size_shorter_edge_within_one_witness :
  exists nw nh : Z,
    target_size 1920 1080 None (Some 256) = Ok (nw, nh) /\
    exact_or_one_less (1920 * 256) (Z.min 1920 1080) nw /\
    exact_or_one_less (1080 * 256) (Z.min 1920 1080) nh /\
    256 - 1 <= Z.min nw nh <= 256.
Proof.
  apply (min_size_shorter_edge_within_one 1920 1080 256); simpl; lia.
Defined.

(** X3: a bound at most the side it applies to never enlarges a side
    of the image, and a bound at least that side never shrinks one:
    nothing restricts the program to shrinking, images below the bound are
    scaled up. *)
Theorem scaling_direction (w h b d : Z) (max_size min_size : option Z)
    (nw nh : Z) :
  0 < w -> 0 < h -> 0 < b -> Z.max w h * b < 2 ^ 50 ->
  bound_in_force max_size min_size w h b d ->
  target_size w h max_size min_size = Ok (nw, nh) ->
  (b <= d -> nw <= w /\ nh <= h) /\ (d <= b -> w <= nw /\ h <= nh).
Proof.
  intros Hw Hh Hb Hbound Hforce Hsize.
  pose proof (bound_in_force_side w h b d _ _ Hw Hh Hforce) as Hd.
  destruct (target_size_near w h b d _ _ Hw Hh Hb Hbound Hforce)
    as (nw' & nh' & Hsize' & Hnw & Hnh).
  rewrite Hsize in Hsize'. injection Hsize' as <- <-.
  destruct (exact_or_one_less_direction w b d nw) as [Hw1 Hw2];
    try assumption; try lia.
  destruct (exact_or_one_less_direction h b d nh) as [Hh1 Hh2];
    try assumption; try lia.
  split; [auto|]. intros Hge.
  destruct (Z.eq_dec b d) as [->|Hne];
    [|split; [apply Hw2|apply Hh2]; lia].
  change (2 ^ 50) with 1125899906842624 in Hbound.
  rewrite (target_size_bound_met w h d) in Hsize
    by (try assumption; simpl; nia).
  injection Hsize as <- <-. lia.
Qed.

Lemma scaling_direction_witness :
  (800 <= 644 -> 799 <= 644 /\ 600 <= 483) /\
  (644 <= 800 -> 644 <= 799 /\ 483 <= 600).
Proof.
  apply (scaling_direction 644 483 800 644 (Some 800) None 799 600);
    try (simpl; lia).
  - left. split; reflexivity.
  - vm_compute. reflexivity.
Defined.

(** ** Aspect ratio, growing bounds, transposed images *)

Lemma exact_or_one_less_bounds (u d n : Z) :
  0 < d -> exact_or_one_less u d n -> n * d <= u < (n + 2) * d.
Proof.
  intros Hd [Hn _].
  pose proof (Z.mul_div_le u d Hd). pose proof (Z.mul_succ_div_gt u d Hd).
  nia.
Qed.

(** X4: the aspect ratio is kept up to truncation: cross-multiplied,
    the new sides differ from the old proportion by less than two pixels
    of the other side. *)
Theorem aspect_ratio_kept (w h b d : Z) (max_size min_size : option Z)
    (nw nh : Z) :
  0 < w -> 0 < h -> 0 < b -> Z.max w h * b < 2 ^ 50 ->
  bound_in_force max_size min_size w h b d ->
  target_size w h max_size min_size = Ok (nw, nh) ->
  - (2 * h) < nw * h - nh * w < 2 * w.
Proof.
  intros Hw Hh Hb Hbound Hforce Hsize.
  pose proof (bound_in_force_side w h b d _ _ Hw Hh Hforce) as [Hd _].
  destruct (target_size_near w h b d _ _ Hw Hh Hb Hbound Hforce)
    as (nw' & nh' & Hsize' & Hnw & Hnh).
  rewrite Hsize in Hsize'. injection Hsize' as <- <-.
  apply exact_or_one_less_bounds in Hnw as [Hw1 Hw2]; [|exact Hd].
  apply exact_or_one_less_bounds in Hnh as [Hh1 Hh2]; [|exact Hd].
  split.
  - assert (H1 : nh * w * d <= h * (w * b)) by nia.
    assert (H2 : h * (w * b) < (nw + 2) * h * d) by nia.
    assert (H3 : (nh * w) * d < ((nw + 2) * h) * d) by nia.
    apply Z.mul_lt_mono_pos_r in H3; [lia|exact Hd].
  - assert (H1 : nw * h * d <= h * (w * b)) by nia.
    assert (H2 : h * (w * b) < (nh + 2) * w * d) by nia.
    assert (H3 : (nw * h) * d < ((nh + 2) * w) * d) by nia.
    apply Z.mul_lt_mono_pos_r in H3; [lia|exact Hd].
Qed.

Lemma aspect_ratio_kept_witness :
  - (2 * 483) < 799 * 483 - 600 * 644 < 2 * 644.
Proof.
  apply (aspect_ratio_kept 644 483 800 644 (Some 800) None 799 600);
    try (simpl; lia).
  - left. split; reflexivity.
  - vm_compute. reflexivity.
Defined.

Lemma exact_or_one_less_mono (u u' d n n' : Z) :
  0 < d -> u < u' ->
  exact_or_one_less u d n -> exact_or_one_less u' d n' -> n <= n'.
Proof.
  intros Hd Hu [Hn _] [Hn' Hexact].
  assert (Hdiv : u / d <= u' / d) by (apply Z.div_le_mono; lia).
  destruct (Z.eq_dec (u' mod d) 0) as [Hmod|Hmod].
  - pose proof (Z.div_mod u' d ltac:(lia)) as Hdm.
    rewrite Hmod, Z.add_0_r in Hdm.
    assert (u / d < u' / d) by (apply Z.div_lt_upper_bound; lia).
    lia.
  - rewrite (Hexact Hmod). lia.
Qed.

(** X5: a larger bound on the same side never gives a smaller width or
    height, float rounding included. *)
Theorem larger_bound_larger_size (w h b b' d : Z)
    (max_size min_size max_size' min_size' : option Z)
    (nw nh nw' nh' : Z) :
  0 < w -> 0 < h -> 0 < b < b' -> Z.max w h * b' < 2 ^ 50 ->
  bound_in_force max_size min_size w h b d ->
  bound_in_force max_size' min_size' w h b' d ->
  target_size w h max_size min_size = Ok (nw, nh) ->
  target_size w h max_size' min_size' = Ok (nw', nh') ->
  nw <= nw' /\ nh <= nh'.
Proof.
  intros Hw Hh Hb Hbound Hforce Hforce' Hsize Hsize'.
  pose proof (bound_in_force_side w h b d _ _ Hw Hh Hforce) as [Hd _].
  assert (Hbound0 : Z.max w h * b < 2 ^ 50) by nia.
  destruct (target_size_near w h b d _ _ Hw Hh ltac:(lia) Hbound0 Hforce)
    as (x & y & Hxy & Hnw & Hnh).
  rewrite Hsize in Hxy. injection Hxy as <- <-.
  destruct (target_size_near w h b' d _ _ Hw Hh ltac:(lia) Hbound Hforce')
    as (x' & y' & Hxy' & Hnw' & Hnh').
  rewrite Hsize' in Hxy'. injection Hxy' as <- <-.
  split.
  - apply (exact_or_one_less_mono (w * b) (w * b') d);
      try assumption; nia.
  - apply (exact_or_one_less_mono (h * b) (h * b') d);
      try assumption; nia.
Qed.

Lemma larger_bound_larger_size_witness :
  799 <= 1023 /\ 600 <= 768.
Proof.
  apply (larger_bound_larger_size 644 483 800 1024 644 (Some 800) None
           (Some 1024) None 799 600 1023 768); try (simpl; lia).
  - left. split; reflexivity.
  - left. split; reflexivity.
  - vm_compute. reflexivity.
  - vm_compute. reflexivity.
Defined.

Lemma py_min_comm (m1 m2 : positive) (e1 e2 : Z) :
  py_min (S754_finite false m1 e1) (S754_finite false m2 e2)
  = py_min (S754_finite false m2 e2) (S754_finite false m1 e1).
Proof.
  unfold py_min.
  destruct (ltb (S754_finite false m2 e2) (S754_finite false m1 e1)) eqn:H21;
    destruct (ltb (S754_finite false m1 e1) (S754_finite false m2 e2)) eqn:H12;
    try reflexivity.
  - apply ltb_finite in H21, H12. lia.
  - apply ltb_finite_false in H21, H12.
    assert (e1 = e2) by lia. assert (Hm : Z.pos m1 = Z.pos m2) by lia.
    injection Hm as ->. by subst.
Qed.

Lemma py_max_comm (m1 m2 : positive) (e1 e2 : Z) :
  py_max (S754_finite false m1 e1) (S754_finite false m2 e2)
  = py_max (S754_finite false m2 e2) (S754_finite false m1 e1).
Proof.
  unfold py_max.
  destruct (ltb (S754_finite false m2 e2) (S754_finite false m1 e1)) eqn:H21;
    destruct (ltb (S754_finite false m1 e1) (S754_finite false m2 e2)) eqn:H12;
    try reflexivity.
  - apply ltb_finite in H21, H12. lia.
  - apply ltb_finite_false in H21, H12.
    assert (e1 = e2) by lia. assert (Hm : Z.pos m1 = Z.pos m2) by lia.
    injection Hm as ->. by subst.
Qed.

Lemma scale_ratio_transposed (w h b : positive)
    (max_size min_size : option Z) :
  Z.pos w < 2 ^ 50 -> Z.pos h < 2 ^ 50 -> Z.pos b < 2 ^ 50 ->
  max_size = Some (Z.pos b) \/
  (max_size = None /\ min_size = Some (Z.pos b)) ->
  scale_ratio (Z.pos h) (Z.pos w) max_size min_size
  = scale_ratio (Z.pos w) (Z.pos h) max_size min_size.
Proof.
  intros Hw Hh Hb Hcase. unfold scale_ratio.
  destruct (truediv_near b w Hb Hw) as (mw & Ew & Hdw & _).
  destruct (truediv_near b h Hb Hh) as (mh & Eh & Hdh & _).
  destruct Hcase as [->|[-> ->]]; rewrite Hdw, Hdh; simpl_bind; f_equal.
  - apply py_min_comm.
  - apply py_max_comm.
Qed.

(** X6: the computation treats width and height alike: for the image
    turned by a quarter, the size computed is the turned size. *)
Theorem target_size_transposed (w h b : Z) (max_size min_size : option Z) :
  0 < w -> 0 < h -> 0 < b -> Z.max w h * b < 2 ^ 50 ->
  max_size = Some b \/ (max_size = None /\ min_size = Some b) ->
  exists nw nh : Z,
    target_size w h max_size min_size = Ok (nw, nh) /\
    target_size h w max_size min_size = Ok (nh, nw).
Proof.
  intros Hw Hh Hb Hbound Hcase.
  assert (Hsize : exists nw nh,
             target_size w h max_size min_size = Ok (nw, nh)).
  { destruct Hcase as [->|[-> ->]].
    - destruct (target_size_max_near w h b min_size) as (nw & nh & H & _);
        eauto.
    - destruct (target_size_min_near w h b) as (nw & nh & H & _); eauto. }
  destruct Hsize as (nw & nh & Hsize). exists nw, nh.
  split; [exact Hsize|].
  destruct w as [|w|w]; try lia. destruct h as [|h|h]; try lia.
  destruct b as [|b|b]; try lia.
  change (2 ^ 50) with 1125899906842624 in Hbound.
  unfold target_size in *.
  rewrite (scale_ratio_transposed w h b) by (simpl; nia || assumption).
  destruct (scale_ratio (Z.pos w) (Z.pos h) max_size min_size) as [ratio|];
    [|discriminate].
  simpl_bind. simpl_bind in Hsize. unfold new_size in *.
  destruct (int_mul (Z.pos w) ratio) as [pw|] eqn:Hpw; [|discriminate].
  simpl_bind in Hsize.
  destruct (to_int pw) as [nw'|] eqn:Hnw; [|discriminate].
  simpl_bind in Hsize.
  destruct (int_mul (Z.pos h) ratio) as [ph|] eqn:Hph; [|discriminate].
  simpl_bind in Hsize.
  destruct (to_int ph) as [nh'|] eqn:Hnh; [|discriminate].
  simpl_bind in Hsize. injection Hsize as <- <-.
  simpl_bind. rewrite Hnh. simpl_bind. rewrite Hnw. reflexivity.
Qed.

Lemma target_size_transposed_witness :
  exists nw nh : Z,
    target_size 644 483 (Some 800) None = Ok (nw, nh) /\
    target_size 483 644 (Some 800) None = Ok (nh, nw).
Proof.
  apply (target_size_transposed 644 483 800 (Some 800) None);
    try (simpl; lia). left. reflexivity.
Defined.

(** ** Exact quotients and products *)

Lemma shr_1_exact (m : Z) :
  0 <= m -> m mod 2 = 0 ->
  shr_1 {| shr_m := m; shr_r := false; shr_s := false |}
  = {| shr_m := m / 2; shr_r := false; shr_s := false |}.
Proof.
  intros Hm Heven. destruct m as [|[p|p|]|p]; try lia; cbn [shr_1 orb].
  - reflexivity.
  - exfalso. rewrite (Pos2Z.inj_xI p) in Heven.
    rewrite Z.add_comm, Z.mul_comm, Z.mod_add in Heven by lia.
    discriminate.
  - f_equal. rewrite (Pos2Z.inj_xO p), Z.mul_comm, Z.div_mul by lia.
    reflexivity.
  - discriminate.
Qed.

Lemma pow2_divide_half (m n : Z) :
  0 <= n -> m mod 2 ^ (n + 1) = 0 -> m mod 2 = 0 /\ (m / 2) mod 2 ^ n = 0.
Proof.
  intros Hn Hm.
  assert (Hp : 0 < 2 ^ n) by (apply Z.pow_pos_nonneg; lia).
  apply Z.mod_divide in Hm; [|rewrite Z.pow_add_r by lia; lia].
  destruct Hm as [c ->].
  rewrite Z.pow_add_r, Z.pow_1_r by lia.
  replace (c * (2 ^ n * 2)) with ((c * 2 ^ n) * 2) by ring.
  rewrite Z.mod_mul, Z.div_mul by lia. split; [reflexivity|].
  apply Z.mod_mul. lia.
Qed.

Lemma iter_shr_1_exact (n : positive) :
  forall m : Z,
    0 <= m -> m mod 2 ^ Z.pos n = 0 ->
    SpecFloat.iter_pos shr_1 n
      {| shr_m := m; shr_r := false; shr_s := false |}
    = {| shr_m := m / 2 ^ Z.pos n; shr_r := false; shr_s := false |}.
Proof.
  induction n as [n IH|n IH|]; intros m Hm Hdiv; cbn [SpecFloat.iter_pos].
  - assert (Hpn : 0 < 2 ^ Z.pos n) by (apply Z.pow_pos_nonneg; lia).
    rewrite (Pos2Z.inj_xI n) in Hdiv.
    destruct (pow2_divide_half m (2 * Z.pos n) ltac:(lia) Hdiv) as [H2 Hrest].
    rewrite shr_1_exact by assumption.
    replace (2 * Z.pos n) with (Z.pos n + Z.pos n) in Hrest by lia.
    rewrite Z.pow_add_r in Hrest by lia.
    apply Z.mod_divide in Hrest; [|lia]. destruct Hrest as [c Hc].
    assert (H0 : 0 <= m / 2) by (apply Z.div_pos; lia).
    assert (Hc0 : 0 <= c) by nia.
    rewrite IH; [|exact H0|rewrite Hc, Z.mul_assoc; apply Z.mod_mul; lia].
    rewrite IH;
      [|apply Z.div_pos; lia
       |rewrite Hc, Z.mul_assoc, Z.div_mul by lia; apply Z.mod_mul; lia].
    f_equal. rewrite !Z.div_div by lia. f_equal.
    rewrite (Pos2Z.inj_xI n).
    replace (2 * Z.pos n + 1) with (1 + Z.pos n + Z.pos n) by lia.
    rewrite !Z.pow_add_r by lia. lia.
  - assert (Hpn : 0 < 2 ^ Z.pos n) by (apply Z.pow_pos_nonneg; lia).
    rewrite (Pos2Z.inj_xO n) in Hdiv.
    replace (2 * Z.pos n) with (Z.pos n + Z.pos n) in Hdiv by lia.
    rewrite Z.pow_add_r in Hdiv by lia.
    apply Z.mod_divide in Hdiv; [|lia]. destruct Hdiv as [c Hc].
    assert (Hc0 : 0 <= c) by nia.
    rewrite IH; [|exact Hm|rewrite Hc, Z.mul_assoc; apply Z.mod_mul; lia].
    rewrite IH;
      [|apply Z.div_pos; lia
       |rewrite Hc, Z.mul_assoc, Z.div_mul by lia; apply Z.mod_mul; lia].
    f_equal. rewrite !Z.div_div by lia. f_equal.
    rewrite (Pos2Z.inj_xO n).
    replace (2 * Z.pos n) with (Z.pos n + Z.pos n) by lia.
    rewrite !Z.pow_add_r by lia. lia.
  - rewrite shr_1_exact; [reflexivity|exact Hm|exact Hdiv].
Qed.

(** A mantissa that is a 53-bit number followed by zeros is rounded to
    that number. *)
Lemma binary_round_aux_exact (s : bool) (m : positive) (k e : Z) :
  2 ^ 52 <= Z.pos m < 2 ^ 53 -> 0 <= k -> -1074 <= e -> e + k <= 900 ->
  binary_round_aux prec emax s (Z.pos m * 2 ^ k) e loc_Exact
  = S754_finite s m (e + k).
Proof.
  intros Hm Hk He Hmax.
  assert (Hpk : 0 < 2 ^ k) by (apply Z.pow_pos_nonneg; lia).
  assert (Hq : 2 ^ (53 + k - 1) <= Z.pos m * 2 ^ k < 2 ^ (53 + k)).
  { replace (53 + k - 1) with (52 + k) by lia.
    rewrite !Z.pow_add_r by lia. nia. }
  unfold binary_round_aux, shr_fexp at 1.
  rewrite (Zdigits2_unique (Z.pos m * 2 ^ k) (53 + k)) by (assumption || lia).
  rewrite fexp_normal by lia.
  replace (53 + k + e - 53 - e) with k by lia.
  assert (Hshift : shr (shr_record_of_loc (Z.pos m * 2 ^ k) loc_Exact) e k
                   = ({| shr_m := Z.pos m; shr_r := false; shr_s := false |},
                      e + k)).
  { unfold shr. cbn [shr_record_of_loc].
    destruct k as [|n|n]; try lia.
    - rewrite Z.mul_1_r, Z.add_0_r. reflexivity.
    - rewrite iter_shr_1_exact; [|lia|apply Z.mod_mul; lia].
      rewrite Z.div_mul by lia. reflexivity. }
  rewrite Hshift. cbn [shr_m loc_of_shr_record round_nearest_even].
  rewrite (shr_fexp_53 (Z.pos m) (e + k) loc_Exact) by lia.
  cbn [shr_record_of_loc shr_m].
  replace (e + k <=? emax - prec) with true
    by (symmetry; apply Z.leb_le; unfold emax, prec; lia).
  reflexivity.
Qed.

Lemma new_location_exact (b : Z) : new_location b 0 = loc_Exact.
Proof.
  unfold new_location, new_location_even, new_location_odd.
  destruct (Z.even b); reflexivity.
Qed.

(** A quotient that is a double is computed exactly. *)
Lemma truediv_exact (a b m : positive) (E : Z) :
  Z.pos a < 2 ^ 53 -> Z.pos b < 2 ^ 53 ->
  2 ^ 52 <= Z.pos m < 2 ^ 53 -> 0 <= E ->
  Z.pos m * Z.pos b = Z.pos a * 2 ^ E ->
  truediv_int (Z.pos a) (Z.pos b) = Ok (S754_finite false m (- E)).
Proof.
  intros Ha Hb Hm HE Hexact.
  destruct (SFdiv_core_small a b Ha Hb) as [Hcore Hq].
  pose proof (digits_small a Ha) as Hda.
  pose proof (digits_small b Hb) as Hdb.
  cbv zeta in Hcore, Hq.
  set (e' := Z.pos (digits2_pos a) - Z.pos (digits2_pos b) - 53) in *.
  assert (He' : 0 <= - e') by (subst e'; lia).
  assert (Hpe : 0 < 2 ^ (- e')) by (apply Z.pow_pos_nonneg; lia).
  assert (HpE : 0 < 2 ^ E) by (apply Z.pow_pos_nonneg; lia).
  set (q := Z.pos a * 2 ^ (- e') / Z.pos b) in *.
  assert (Hqb : q * Z.pos b <= Z.pos a * 2 ^ (- e') < (q + 1) * Z.pos b).
  { subst q. pose proof (Z.mul_div_le (Z.pos a * 2 ^ (- e')) (Z.pos b)).
    pose proof (Z.mul_succ_div_gt (Z.pos a * 2 ^ (- e')) (Z.pos b)). lia. }
  (* the core quotient is the mantissa followed by at most one zero *)
  assert (Ht : 0 <= - e' - E).
  { destruct (Z_lt_le_dec (- e' - E) 0) as [Hneg|]; [exfalso|assumption].
    assert (Hsplit : 2 ^ E = 2 ^ (- e') * 2 ^ (E + e'))
      by (rewrite <- Z.pow_add_r by lia; f_equal; lia).
    assert (Hp2 : 2 <= 2 ^ (E + e')).
    { change 2 with (2 ^ 1) at 1. apply Z.pow_le_mono_r; lia. }
    assert (q * Z.pos b * 2 ^ (E + e') <= Z.pos m * Z.pos b) by nia.
    assert (q * 2 <= Z.pos m) by nia.
    lia. }
  set (t := - e' - E) in *.
  assert (Hpt : 0 < 2 ^ t) by (apply Z.pow_pos_nonneg; lia).
  assert (Hsplit : 2 ^ (- e') = 2 ^ E * 2 ^ t)
    by (rewrite <- Z.pow_add_r by lia; f_equal; subst t; lia).
  assert (Hnum : Z.pos a * 2 ^ (- e') = Z.pos m * 2 ^ t * Z.pos b)
    by (rewrite Hsplit; nia).
  assert (Hqm : q = Z.pos m * 2 ^ t)
    by (subst q; rewrite Hnum; apply Z.div_mul; lia).
  assert (Hrem : (Z.pos a * 2 ^ (- e')) mod Z.pos b = 0)
    by (rewrite Hnum; apply Z.mod_mul; lia).
  assert (Ht1 : t <= 1).
  { destruct (Z_le_gt_dec t 1) as [|Hgt]; [assumption|exfalso].
    assert (2 ^ 2 <= 2 ^ t) by (apply Z.pow_le_mono_r; lia).
    change (2 ^ 2) with 4 in *. nia. }
  unfold truediv_int. cbn [Z.eqb Z.ltb Z.compare SFdiv xorb].
  change (Z.to_pos (Z.abs (Z.pos a))) with a.
  change (Z.to_pos (Z.abs (Z.pos b))) with b.
  fold q in Hcore. rewrite Hcore, Hrem, new_location_exact, Hqm.
  rewrite binary_round_aux_exact by (subst e' t; lia).
  do 2 f_equal. subst t. lia.
Qed.

(** A product that is a double is computed exactly. *)
Lemma int_mul_exact (w m m' : positive) (E T : Z) :
  Z.pos w < 2 ^ 53 ->
  2 ^ 52 <= Z.pos m < 2 ^ 53 -> 2 ^ 52 <= Z.pos m' < 2 ^ 53 ->
  0 <= E <= 900 -> 0 <= T <= 900 ->
  Z.pos w * Z.pos m * 2 ^ T = Z.pos m' * 2 ^ E ->
  int_mul (Z.pos w) (S754_finite false m (- E))
  = Ok (S754_finite false m' (- T)).
Proof.
  intros Hw Hm Hm' HE HT Hexact.
  destruct (of_int_small w Hw) as (mz & ez & Hconv & Hmz & Hez & Hval).
  unfold int_mul. rewrite Hconv. simpl_bind.
  unfold mul, SFmul. cbn [xorb]. f_equal.
  set (z := - ez) in *.
  assert (Hpz : 0 < 2 ^ z) by (apply Z.pow_pos_nonneg; subst z; lia).
  assert (HpE : 0 < 2 ^ E) by (apply Z.pow_pos_nonneg; lia).
  assert (HpT : 0 < 2 ^ T) by (apply Z.pow_pos_nonneg; lia).
  assert (HQ : Z.pos (mz * m) * 2 ^ T = Z.pos m' * 2 ^ (E + z)).
  { rewrite Pos2Z.inj_mul, Hval, Z.pow_add_r by (subst z; lia). nia. }
  assert (Hk : 0 <= E + z - T).
  { destruct (Z_lt_le_dec (E + z - T) 0) as [Hneg|]; [exfalso|assumption].
    assert (Hsplit : 2 ^ T = 2 ^ (E + z) * 2 ^ (T - E - z))
      by (rewrite <- Z.pow_add_r by (subst z; lia); f_equal; lia).
    assert (0 < 2 ^ (E + z)) by (apply Z.pow_pos_nonneg; subst z; lia).
    assert (0 < 2 ^ (T - E - z)) by (apply Z.pow_pos_nonneg; lia).
    rewrite Hsplit in HQ.
    assert (Z.pos (mz * m) * 2 ^ (T - E - z) = Z.pos m') by nia.
    assert (2 ^ 104 <= Z.pos (mz * m))
      by (rewrite Pos2Z.inj_mul; simpl in *; nia).
    simpl in *. nia. }
  set (k := E + z - T) in *.
  assert (Hpk : 0 < 2 ^ k) by (apply Z.pow_pos_nonneg; lia).
  assert (Hprod : Z.pos (mz * m) = Z.pos m' * 2 ^ k).
  { assert (Hsplit : 2 ^ (E + z) = 2 ^ k * 2 ^ T)
      by (rewrite <- Z.pow_add_r by lia; f_equal; subst k; lia).
    rewrite Hsplit in HQ. nia. }
  rewrite Hprod, binary_round_aux_exact by (subst k z; lia).
  f_equal. subst k z. lia.
Qed.

Lemma div_cross (a b c d : Z) :
  0 < b -> 0 < d -> a * d = c * b -> a / b = c / d.
Proof.
  intros Hb Hd Heq.
  rewrite <- (Z.div_mul_cancel_r a b d), <- (Z.div_mul_cancel_r c d b) by lia.
  rewrite Heq, (Z.mul_comm d b). reflexivity.
Qed.

(** One side, for a ratio that is exactly [K / 2^j]. *)
Lemma scaled_dimension_exact (w K mK : positive) (j cK : Z) :
  Z.pos w * Z.pos K < 2 ^ 53 ->
  2 ^ 52 <= Z.pos mK < 2 ^ 53 -> 0 <= j <= 100 -> 0 <= cK <= 52 ->
  Z.pos mK = Z.pos K * 2 ^ cK ->
  exists p : float,
    int_mul (Z.pos w) (S754_finite false mK (- (j + cK))) = Ok p /\
    to_int p = Ok (Z.pos w * Z.pos K / 2 ^ j).
Proof.
  intros HP HmK Hj HcK HK.
  assert (Hw : Z.pos w < 2 ^ 53) by nia.
  destruct (of_int_small (w * K)%positive) as (mP & eP & _ & HmP & HeP & HvP);
    [by rewrite Pos2Z.inj_mul|].
  rewrite Pos2Z.inj_mul in HvP.
  set (cP := - eP) in *.
  assert (Hpj : 0 < 2 ^ j) by (apply Z.pow_pos_nonneg; lia).
  assert (HpP : 0 < 2 ^ cP) by (apply Z.pow_pos_nonneg; subst cP; lia).
  exists (S754_finite false mP (- (j + cP))). split.
  - apply int_mul_exact; try assumption; try (subst cP; lia).
    rewrite HK, HvP, !Z.pow_add_r by (subst cP; lia). ring.
  - unfold to_int, cond_Zopp. f_equal.
    rewrite Z.shiftl_div_pow2 by (subst cP; lia).
    rewrite Z.opp_involutive, HvP, Z.pow_add_r by (subst cP; lia).
    apply Z.div_mul_cancel_r; lia.
Qed.

(** ** Ratios that are doubles *)

(** A float near [a / bo] cannot be below the exact quotient [a / d] when
    [bo <= d], unless [bo] is [d]. *)
Lemma exact_not_above (a d bo : Z) (md mo : positive) (Ed Eo : Z) :
  0 < a -> 0 < bo <= d ->
  2 ^ 52 <= Z.pos md < 2 ^ 53 -> 2 ^ 52 <= Z.pos mo < 2 ^ 53 ->
  0 <= Ed -> 0 <= Eo ->
  Z.pos md * d = a * 2 ^ Ed -> near a bo mo Eo ->
  - Eo < - Ed \/ (- Eo = - Ed /\ Z.pos mo < Z.pos md) ->
  bo = d.
Proof.
  intros Ha Hb Hmd Hmo HEd HEo Hexact [_ Hhi] Hlt.
  destruct (Z.eq_dec bo d) as [|Hne]; [assumption|exfalso].
  assert (Hbd : bo + 1 <= d) by lia.
  destruct Hlt as [Hlt|[Heq Hm]].
  - assert (Hpow : 2 * 2 ^ Ed <= 2 ^ Eo).
    { replace (2 * 2 ^ Ed) with (2 ^ (Ed + 1))
        by (rewrite Z.pow_add_r by lia; lia).
      apply Z.pow_le_mono_r; lia. }
    assert (2 * (a * 2 ^ Ed) <= a * 2 ^ Eo) by nia.
    assert ((Z.pos mo + 1) * bo < 2 * (Z.pos md * d)) by nia.
    lia.
  - replace Eo with Ed in Hhi by lia.
    assert ((Z.pos mo + 1) * bo < Z.pos md * d) by nia. lia.
Qed.

(** The same from the other side, for [d <= bo] below 2^50. *)
Lemma exact_not_below (a d bo : Z) (md mo : positive) (Ed Eo : Z) :
  0 < a -> 0 < d <= bo -> d < 2 ^ 50 ->
  2 ^ 52 <= Z.pos md < 2 ^ 53 -> 2 ^ 52 <= Z.pos mo < 2 ^ 53 ->
  0 <= Ed -> 0 <= Eo ->
  Z.pos md * d = a * 2 ^ Ed -> near a bo mo Eo ->
  - Ed < - Eo \/ (- Ed = - Eo /\ Z.pos md < Z.pos mo) ->
  bo = d.
Proof.
  intros Ha Hb Hd Hmd Hmo HEd HEo Hexact [Hlo _] Hlt.
  destruct (Z.eq_dec bo d) as [|Hne]; [assumption|exfalso].
  assert (Hbd : d + 1 <= bo) by lia.
  change (2 ^ 50) with 1125899906842624 in Hd.
  change (2 ^ 52) with 4503599627370496 in *.
  change (2 ^ 53) with 9007199254740992 in *.
  destruct Hlt as [Hlt|[Heq Hm]].
  - assert (Hpow : 2 * 2 ^ Eo <= 2 ^ Ed).
    { replace (2 * 2 ^ Eo) with (2 ^ (Eo + 1))
        by (rewrite Z.pow_add_r by lia; lia).
      apply Z.pow_le_mono_r; lia. }
    assert (2 * (a * 2 ^ Eo) <= a * 2 ^ Ed) by nia.
    assert (H1 : 2 * ((Z.pos mo - 1) * bo) <= Z.pos md * d) by lia.
    assert (H2 : 2 * (4503599627370495 * (d + 1))
                 <= 2 * ((Z.pos mo - 1) * bo)) by nia.
    assert (H3 : Z.pos md * d <= 9007199254740991 * d) by nia.
    lia.
  - replace Eo with Ed in Hlo by lia.
    assert (Z.pos md * d < (Z.pos mo - 1) * bo) by nia. lia.
Qed.

(** With [max_size = M] and [M / max(w, h)] a double [mK * 2^-E], that
    double is the ratio. *)
Lemma scale_ratio_max_exact (w h M mK : positive) (E : Z)
    (min_size : option Z) :
  Z.pos w < 2 ^ 50 -> Z.pos h < 2 ^ 50 -> Z.pos M < 2 ^ 50 ->
  2 ^ 52 <= Z.pos mK < 2 ^ 53 -> 0 <= E ->
  Z.pos mK * Z.max (Z.pos w) (Z.pos h) = Z.pos M * 2 ^ E ->
  scale_ratio (Z.pos w) (Z.pos h) (Some (Z.pos M)) min_size
  = Ok (S754_finite false mK (- E)).
Proof.
  intros Hw Hh HM HmK HE Hexact. unfold scale_ratio.
  change (2 ^ 50) with 1125899906842624 in *.
  destruct (Z.max_spec (Z.pos w) (Z.pos h)) as [[Hlt Hmax]|[Hle Hmax]];
    rewrite Hmax in Hexact.
  - rewrite (truediv_exact M h mK E) by (try assumption; simpl; lia).
    destruct (truediv_near M w) as (mo & Eo & -> & Hmo & HEo & Hnear);
      [simpl; lia|simpl; lia|].
    simpl_bind. f_equal. unfold py_min.
    destruct (ltb _ _) eqn:Hcmp; [reflexivity|].
    apply ltb_finite_false in Hcmp.
    destruct (Z.eq_dec (- Eo) (- E)) as [HeqE|HneE].
    + destruct (Z.eq_dec (Z.pos mo) (Z.pos mK)) as [HeqM|HneM].
      * injection HeqM as ->. by replace Eo with E by lia.
      * exfalso.
        pose proof (exact_not_above (Z.pos M) (Z.pos h) (Z.pos w) mK mo E Eo
                      ltac:(lia) ltac:(lia) HmK Hmo HE ltac:(lia) Hexact Hnear
                      ltac:(lia)). lia.
    + exfalso.
      pose proof (exact_not_above (Z.pos M) (Z.pos h) (Z.pos w) mK mo E Eo
                    ltac:(lia) ltac:(lia) HmK Hmo HE ltac:(lia) Hexact Hnear
                    ltac:(lia)). lia.
  - rewrite (truediv_exact M w mK E) by (try assumption; simpl; lia).
    destruct (truediv_near M h) as (mo & Eo & Hdiv & Hmo & HEo & Hnear);
      [simpl; lia|simpl; lia|].
    rewrite Hdiv. simpl_bind. f_equal. unfold py_min.
    destruct (ltb _ _) eqn:Hcmp; [|reflexivity].
    apply ltb_finite in Hcmp.
    pose proof (exact_not_above (Z.pos M) (Z.pos w) (Z.pos h) mK mo E Eo
                  ltac:(lia) ltac:(lia) HmK Hmo HE ltac:(lia) Hexact Hnear
                  Hcmp) as Hsame.
    injection Hsame as ->.
    rewrite (truediv_exact M w mK E) in Hdiv by (try assumption; simpl; lia).
    by injection Hdiv as <- <-.
Qed.

Lemma scale_ratio_min_exact (w h M mK : positive) (E : Z) :
  Z.pos w < 2 ^ 50 -> Z.pos h < 2 ^ 50 -> Z.pos M < 2 ^ 50 ->
  2 ^ 52 <= Z.pos mK < 2 ^ 53 -> 0 <= E ->
  Z.pos mK * Z.min (Z.pos w) (Z.pos h) = Z.pos M * 2 ^ E ->
  scale_ratio (Z.pos w) (Z.pos h) None (Some (Z.pos M))
  = Ok (S754_finite false mK (- E)).
Proof.
  intros Hw Hh HM HmK HE Hexact. unfold scale_ratio.
  destruct (Z.min_spec (Z.pos w) (Z.pos h)) as [[Hlt Hmin]|[Hle Hmin]];
    rewrite Hmin in Hexact.
  - rewrite (truediv_exact M w mK E)
      by (try assumption; change (2 ^ 50) with 1125899906842624 in *;
          simpl; lia).
    destruct (truediv_near M h) as (mo & Eo & -> & Hmo & HEo & Hnear);
      [assumption|assumption|].
    simpl_bind. f_equal. unfold py_max.
    destruct (ltb _ _) eqn:Hcmp; [|reflexivity].
    apply ltb_finite in Hcmp. exfalso.
    pose proof (exact_not_below (Z.pos M) (Z.pos w) (Z.pos h) mK mo E Eo
                  ltac:(lia) ltac:(lia) Hw HmK Hmo HE ltac:(lia) Hexact Hnear
                  Hcmp). lia.
  - rewrite (truediv_exact M h mK E)
      by (try assumption; change (2 ^ 50) with 1125899906842624 in *;
          simpl; lia).
    destruct (truediv_near M w) as (mo & Eo & Hdiv & Hmo & HEo & Hnear);
      [assumption|assumption|].
    rewrite Hdiv. simpl_bind. f_equal. unfold py_max.
    destruct (ltb _ _) eqn:Hcmp; [reflexivity|].
    apply ltb_finite_false in Hcmp.
    destruct (Z.eq_dec (- Eo) (- E)) as [HeqE|HneE].
    + destruct (Z.eq_dec (Z.pos mo) (Z.pos mK)) as [HeqM|HneM].
      * injection HeqM as ->. by replace Eo with E by lia.
      * pose proof (exact_not_below (Z.pos M) (Z.pos h) (Z.pos w) mK mo E Eo
                      ltac:(lia) ltac:(lia) Hh HmK Hmo HE ltac:(lia) Hexact
                      Hnear ltac:(lia)) as Hsame.
        injection Hsame as ->.
        rewrite (truediv_exact M h mK E) in Hdiv
          by (try assumption; change (2 ^ 50) with 1125899906842624 in *;
              simpl; lia).
        by injection Hdiv as <- <-.
    + pose proof (exact_not_below (Z.pos M) (Z.pos h) (Z.pos w) mK mo E Eo
                    ltac:(lia) ltac:(lia) Hh HmK Hmo HE ltac:(lia) Hexact
                    Hnear ltac:(lia)) as Hsame.
      injection Hsame as ->.
      rewrite (truediv_exact M h mK E) in Hdiv
        by (try assumption; change (2 ^ 50) with 1125899906842624 in *;
            simpl; lia).
      injection Hdiv as <- HE'. lia.
Qed.

(** X7: when the ratio bound / side is a dyadic fraction [K / 2^j]
    (the bound is a multiple of the reference side, or the side is the
    bound times a power of two, or a mix), no rounding takes place and the
    size is exactly [(w * bound / side, h * bound / side)]; the reference
    side is the longer one under [max_size], the shorter one under
    [min_size] alone. *)
Theorem dyadic_ratio_exact (w h b K j d : Z) (max_size min_size : option Z) :
  0 < w -> 0 < h -> 0 < b -> Z.max w h * b < 2 ^ 50 ->
  bound_in_force max_size min_size w h b d ->
  0 <= j -> 2 ^ j <= d -> b * 2 ^ j = K * d ->
  target_size w h max_size min_size = Ok (w * b / d, h * b / d).
Proof.
  intros Hw Hh Hb Hbound Hcase Hj Hjd Hratio.
  pose proof (bound_in_force_side w h b d _ _ Hw Hh Hcase) as Hd.
  assert (Hpj : 0 < 2 ^ j) by (apply Z.pow_pos_nonneg; lia).
  assert (HK : 0 < K <= b) by nia.
  change (2 ^ 50) with 1125899906842624 in Hbound.
  assert (Hj50 : j <= 50).
  { destruct (Z_le_gt_dec j 50) as [|Hgt]; [assumption|exfalso].
    assert (2 ^ 51 <= 2 ^ j) by (apply Z.pow_le_mono_r; lia).
    change (2 ^ 51) with 2251799813685248 in *. nia. }
  destruct w as [|w|w]; try lia. destruct h as [|h|h]; try lia.
  destruct b as [|b|b]; try lia. destruct K as [|K|K]; try lia.
  destruct (of_int_small K) as (mK & eK & _ & HmK & HeK & HvK);
    [change (2 ^ 53) with 9007199254740992; nia|].
  set (cK := - eK) in *.
  assert (HpK : 0 < 2 ^ cK) by (apply Z.pow_pos_nonneg; subst cK; lia).
  assert (Hexact : Z.pos mK * d = Z.pos b * 2 ^ (j + cK)).
  { rewrite HvK, Z.pow_add_r by (subst cK; lia). nia. }
  assert (Hratio' : scale_ratio (Z.pos w) (Z.pos h) max_size min_size
                    = Ok (S754_finite false mK (- (j + cK)))).
  { destruct Hcase as [[-> ->]|(-> & -> & ->)].
    - apply scale_ratio_max_exact; try assumption;
        try (change (2 ^ 50) with 1125899906842624; nia); subst cK; lia.
    - apply scale_ratio_min_exact; try assumption;
        try (change (2 ^ 50) with 1125899906842624; nia); subst cK; lia. }
  unfold target_size. rewrite Hratio'. simpl_bind. unfold new_size.
  destruct (scaled_dimension_exact w K mK j cK) as (pw & -> & Hnw);
    try assumption; try (subst cK; lia);
    [change (2 ^ 53) with 9007199254740992; nia|].
  destruct (scaled_dimension_exact h K mK j cK) as (ph & -> & Hnh);
    try assumption; try (subst cK; lia);
    [change (2 ^ 53) with 9007199254740992; nia|].
  simpl_bind. rewrite Hnw. simpl_bind. rewrite Hnh. simpl_bind.
  do 2 f_equal; apply div_cross; lia || nia.
Qed.

Lemma dyadic_ratio_exact_witness :
  target_size 4096 3072 (Some 1024) None
  = Ok (4096 * 1024 / 4096, 3072 * 1024 / 4096) /\
  target_size 640 480 (Some 1920) None
  = Ok (640 * 1920 / 640, 480 * 1920 / 640).
Proof.
  split.
  - apply (dyadic_ratio_exact 4096 3072 1024 1 2 4096 (Some 1024) None);
      try (simpl; lia). left. split; reflexivity.
  - apply (dyadic_ratio_exact 640 480 1920 3 0 640 (Some 1920) None);
      try (simpl; lia). left. split; reflexivity.
Defined.

(** ** Calls that raise, and sizes that [resize] accepts *)

Lemma save_error (fs : fsys) (img : Image) (path : string)
    (params : gmap string param) (e : exn) :
  save fs img path params = Err e ->
  e = IsADirectoryError \/ e = NotADirectoryError \/ e = FileNotFoundError.
Proof.
  unfold save. destruct (isdir fs path); [intros [= <-]; auto|].
  destruct (dir_check fs (dirname path)) as [[]|e0] eqn:Hdir; simpl_bind;
    [discriminate|].
  intros [= <-]. destruct (dir_check_error _ _ _ Hdir) as [->| ->]; auto.
Qed.

(** X8: with [max_size = M], an image so thin that its shorter side
    times [M] is below its longer side gets a side of zero, and
    [resize_image] ends in the ValueError of [resize]; nothing is
    written. *)
Theorem max_size_thin_image_raises (fs : fsys) (image_path output_path : string)
    (M : Z) (min_size : option Z) (keep_format : bool)
    (img : Image) (params0 : gmap string param) :
  files fs !! image_path = Some (Encoded img params0) ->
  0 < width img -> 0 < height img -> 0 < M ->
  Z.max (width img) (height img) * M < 2 ^ 50 ->
  Z.min (width img) (height img) * M < Z.max (width img) (height img) ->
  resize_image fs image_path output_path (Some M) min_size keep_format
  = Err (ValueError "height and width must be > 0").
Proof.
  intros Hfile Hw Hh HM Hbound Hthin.
  destruct (target_size_max_near _ _ M min_size Hw Hh HM Hbound)
    as (nw & nh & Hsize & [Hnw Hnw'] & [Hnh Hnh']).
  rewrite (resize_image_of_size _ _ _ _ _ _ img params0 nw nh Hfile Hsize).
  set (d := Z.max (width img) (height img)) in *.
  assert (Hd : 0 < d) by (subst d; lia).
  assert (HM25 : M < 2 ^ 25) by nia.
  assert (Hwd : 0 <= width img * M / d <= M).
  { split; [apply Z.div_pos; nia|apply Z.div_le_upper_bound; nia]. }
  assert (Hhd : 0 <= height img * M / d <= M).
  { split; [apply Z.div_pos; nia|apply Z.div_le_upper_bound; nia]. }
  replace (negb (c_int nw && c_int nh)) with false.
  2:{ symmetry. apply negb_false_iff, andb_true_iff. unfold c_int.
      split; apply andb_true_iff; split;
        first [apply Z.leb_le|apply Z.ltb_lt]; lia. }
  replace ((nw <? 1) || (nh <? 1)) with true; [reflexivity|].
  symmetry. apply orb_true_iff. subst d.
  destruct (Z.min_spec (width img) (height img)) as [[Hlt Hmin]|[Hle Hmin]];
    rewrite Hmin in Hthin.
  - left. apply Z.ltb_lt. rewrite Z.div_small in Hnw by lia. lia.
  - right. apply Z.ltb_lt. rewrite Z.div_small in Hnh by lia. lia.
Qed.

Lemma max_size_thin_image_raises_witness :
  resize_image (single_image_fs "in.png" "PNG" "RGB" 3000 20) "in.png"
               "out.png" (Some 100) None false
  = Err (ValueError "height and width must be > 0").
Proof.
  apply (max_size_thin_image_raises
           (single_image_fs "in.png" "PNG" "RGB" 3000 20) "in.png" "out.png"
           100 None false
           {| format := Some "PNG"; mode := "RGB"; width := 3000;
              height := 20; info := {[ "exif" := "Exif" ]} |} ∅);
    try reflexivity; simpl; lia.
Defined.

(** X9: with [max_size = M], an image whose shorter side times [M] is
    at least twice its longer side gets a size of at least 1x1, with a
    longer side of [M] or [M - 1]: the size handed to [resize] has no
    side of zero, and the call does not end in the ValueError that
    [resize] raises on such a side. *)
Theorem max_size_room_no_empty_side (fs : fsys)
    (image_path output_path : string)
    (M : Z) (min_size : option Z) (keep_format : bool)
    (img : Image) (params0 : gmap string param) :
  files fs !! image_path = Some (Encoded img params0) ->
  0 < width img -> 0 < height img -> 0 < M ->
  Z.max (width img) (height img) * M < 2 ^ 50 ->
  2 * Z.max (width img) (height img) <= Z.min (width img) (height img) * M ->
  (exists nw nh : Z,
     target_size (width img) (height img) (Some M) min_size = Ok (nw, nh) /\
     1 <= Z.min nw nh /\ M - 1 <= Z.max nw nh <= M) /\
  resize_image fs image_path output_path (Some M) min_size keep_format
  <> Err (ValueError "height and width must be > 0").
Proof.
  intros Hfile Hw Hh HM Hbound Hroom.
  set (d := Z.max (width img) (height img)) in *.
  destruct (target_size_max_near _ _ M min_size Hw Hh HM Hbound)
    as (nw & nh & Hsize & Hnw & Hnh). fold d in Hnw, Hnh.
  assert (Hd : 0 < d) by (subst d; lia).
  assert (Hedge : M - 1 <= Z.max nw nh <= M).
  { destruct Hnw as [Hnw _], Hnh as [Hnh _].
    assert (width img * M / d <= M) by (apply Z.div_le_upper_bound; nia).
    assert (height img * M / d <= M) by (apply Z.div_le_upper_bound; nia).
    subst d.
    destruct (Z.max_spec (width img) (height img)) as [[Hlt Hmax]|[Hle Hmax]];
      rewrite Hmax in *.
    - rewrite (Z.mul_comm (height img) M), Z.div_mul in Hnh by lia. lia.
    - rewrite (Z.mul_comm (width img) M), Z.div_mul in Hnw by lia. lia. }
  assert (Hw1 : 1 <= nw).
  { destruct Hnw as [Hnw _].
    assert (2 <= width img * M / d) by (apply Z.div_le_lower_bound; nia).
    lia. }
  assert (Hh1 : 1 <= nh).
  { destruct Hnh as [Hnh _].
    assert (2 <= height img * M / d) by (apply Z.div_le_lower_bound; nia).
    lia. }
  split; [exists nw, nh; split; [exact Hsize|]; split; [lia|exact Hedge]|].
  rewrite (resize_image_of_size _ _ _ _ _ _ img params0 nw nh Hfile Hsize).
  destruct (negb (c_int nw && c_int nh)); [discriminate|].
  replace ((nw <? 1) || (nh <? 1)) with false
    by (symmetry; apply orb_false_iff; split; apply Z.ltb_ge; lia).
  cbn zeta. intros Hsave. apply save_error in Hsave.
  destruct Hsave as [H|[H|H]]; discriminate.
Qed.

Lemma max_size_room_no_empty_side_witness :
  (exists nw nh : Z,
     target_size 4000 2000 (Some 800) None = Ok (nw, nh) /\
     1 <= Z.min nw nh /\ 800 - 1 <= Z.max nw nh <= 800) /\
  resize_image sample_fs "in/c.jpg" "c_small.jpg" (Some 800) None true
  <> Err (ValueError "height and width must be > 0").
Proof.
  apply (max_size_room_no_empty_side sample_fs "in/c.jpg" "c_small.jpg" 800
           None true sample_image ∅);
    try reflexivity; simpl; lia.
Defined.

(** X10: with [min_size = m >= 2] alone, every image with positive
    sides (in the range where sides times [m] stay below 2^50) gets a
    size whose shorter side is [m] or [m - 1], so no side is zero and the
    call does not end in the ValueError that [resize] raises on such a
    side. *)
Theorem min_size_no_empty_side (fs : fsys) (image_path output_path : string)
    (m : Z) (keep_format : bool)
    (img : Image) (params0 : gmap string param) :
  files fs !! image_path = Some (Encoded img params0) ->
  0 < width img -> 0 < height img -> 2 <= m ->
  Z.max (width img) (height img) * m < 2 ^ 50 ->
  (exists nw nh : Z,
     target_size (width img) (height img) None (Some m) = Ok (nw, nh) /\
     m - 1 <= Z.min nw nh <= m) /\
  resize_image fs image_path output_path None (Some m) keep_format
  <> Err (ValueError "height and width must be > 0").
Proof.
  intros Hfile Hw Hh Hm Hbound.
  set (d := Z.min (width img) (height img)) in *.
  destruct (target_size_min_near _ _ m Hw Hh ltac:(lia) Hbound)
    as (nw & nh & Hsize & Hnw & Hnh). fold d in Hnw, Hnh.
  assert (Hd : 0 < d) by (subst d; lia).
  assert (Hedge : m - 1 <= Z.min nw nh <= m).
  { destruct Hnw as [Hnw _], Hnh as [Hnh _].
    assert (m <= width img * m / d) by (apply Z.div_le_lower_bound; nia).
    assert (m <= height img * m / d) by (apply Z.div_le_lower_bound; nia).
    subst d.
    destruct (Z.min_spec (width img) (height img)) as [[Hlt Hmin]|[Hle Hmin]];
      rewrite Hmin in *.
    - rewrite (Z.mul_comm (width img) m), Z.div_mul in Hnw by lia. lia.
    - rewrite (Z.mul_comm (height img) m), Z.div_mul in Hnh by lia. lia. }
  split; [exists nw, nh; split; [exact Hsize|exact Hedge]|].
  rewrite (resize_image_of_size _ _ _ _ _ _ img params0 nw nh Hfile Hsize).
  destruct (negb (c_int nw && c_int nh)); [discriminate|].
  replace ((nw <? 1) || (nh <? 1)) with false
    by (symmetry; apply orb_false_iff; split; apply Z.ltb_ge; lia).
  cbn zeta. intros Hsave. apply save_error in Hsave.
  destruct Hsave as [H|[H|H]]; discriminate.
Qed.

Lemma min_size_no_empty_side_witness :
  (exists nw nh : Z,
     target_size 4000 2000 None (Some 224) = Ok (nw, nh) /\
     224 - 1 <= Z.min nw nh <= 224) /\
  resize_image sample_fs "in/c.jpg" "c_small.jpg" None (Some 224) false
  <> Err (ValueError "height and width must be > 0").
Proof.
  apply (min_size_no_empty_side sample_fs "in/c.jpg" "c_small.jpg" 224
           false sample_image ∅);
    try reflexivity; simpl; lia.
Defined.

(** ** A bound that is not positive *)

Lemma binary_round_aux_not_positive (m e : Z) (l : location) :
  not_positive (binary_round_aux prec emax true m e l).
Proof.
  destruct (binary_round_aux_cases true m e l) as [H|[H|[H|(m' & e' & H)]]];
    rewrite H; exact I.
Qed.

Lemma truediv_not_positive (M w : Z) (x : float) :
  M <= 0 -> 0 < w -> truediv_int M w = Ok x -> not_positive x.
Proof.
  intros HM Hw. unfold truediv_int.
  destruct w as [|w|w]; try lia. destruct M as [|M|M]; try lia.
  - intros [= <-]. exact I.
  - cbn [Z.eqb Z.ltb Z.compare SFdiv xorb].
    destruct (SFdiv_core_binary _ _ _ _ _ _) as [[mz ez] lz].
    pose proof (binary_round_aux_not_positive mz ez lz) as Hsign.
    destruct (binary_round_aux prec emax true mz ez lz);
      try discriminate; intros [= <-]; exact Hsign.
Qed.

Lemma py_min_not_positive (x y : float) :
  not_positive x -> not_positive y -> not_positive (py_min x y).
Proof. intros Hx Hy. unfold py_min. destruct (ltb y x); assumption. Qed.

Lemma int_mul_not_positive (n : Z) (x p : float) :
  0 <= n -> not_positive x -> int_mul n x = Ok p -> not_positive p.
Proof.
  intros Hn Hx. unfold int_mul.
  destruct (of_int n) as [fn|] eqn:Hfn; [|discriminate].
  simpl_bind. intros [= <-].
  destruct (of_int_nonneg n fn Hn Hfn) as [->|[->|(m & e & ->)]].
  - destruct x as [s|s| |s m' e']; exact I.
  - exact I.
  - destruct x as [s|s| |[] m' e']; try exact I; try contradiction.
    apply binary_round_aux_not_positive.
Qed.

Lemma to_int_not_positive (x : float) (n : Z) :
  not_positive x -> to_int x = Ok n -> n <= 0.
Proof.
  destruct x as [s|s| |[] m e]; try discriminate.
  - intros _ [= <-]. lia.
  - intros _ [= <-]. cbn [cond_Zopp].
    pose proof (proj2 (Z.shiftl_nonneg (Z.pos m) e) ltac:(lia)). lia.
  - contradiction.
Qed.

(** With [max_size <= 0] no size of at least 1x1 comes out. *)
Lemma target_size_not_positive (w h M : Z) (min_size : option Z) (nw nh : Z) :
  M <= 0 -> 0 <= w -> 0 <= h ->
  target_size w h (Some M) min_size = Ok (nw, nh) -> nw <= 0 /\ nh <= 0.
Proof.
  intros HM Hw Hh. unfold target_size, scale_ratio.
  destruct (truediv_int M w) as [a|] eqn:Ha; [|discriminate]. simpl_bind.
  destruct (truediv_int M h) as [b|] eqn:Hb; [|discriminate]. simpl_bind.
  assert (Hw' : 0 < w).
  { destruct (Z.eq_dec w 0) as [->|]; [|lia].
    unfold truediv_int in Ha. discriminate. }
  assert (Hh' : 0 < h).
  { destruct (Z.eq_dec h 0) as [->|]; [|lia].
    unfold truediv_int in Hb. discriminate. }
  pose proof (py_min_not_positive a b
                (truediv_not_positive M w a HM Hw' Ha)
                (truediv_not_positive M h b HM Hh' Hb)) as Hratio.
  unfold new_size.
  destruct (int_mul w (py_min a b)) as [pw|] eqn:Hpw; [|discriminate].
  simpl_bind.
  destruct (to_int pw) as [nw'|] eqn:Hnw; [|discriminate]. simpl_bind.
  destruct (int_mul h (py_min a b)) as [ph|] eqn:Hph; [|discriminate].
  simpl_bind.
  destruct (to_int ph) as [nh'|] eqn:Hnh; [|discriminate]. simpl_bind.
  intros [= <- <-]. split.
  - apply (to_int_not_positive pw); [|exact Hnw].
    exact (int_mul_not_positive w _ pw Hw Hratio Hpw).
  - apply (to_int_not_positive ph); [|exact Hnh].
    exact (int_mul_not_positive h _ ph Hh Hratio Hph).
Qed.

Lemma resize_image_not_positive (fs : fsys) (image_path output_path : string)
    (M : Z) (min_size : option Z) (keep_format : bool) :
  M <= 0 -> sizes_nonneg fs ->
  exists e : exn,
    resize_image fs image_path output_path (Some M) min_size keep_format
    = Err e.
Proof.
  intros HM Hfs.
  destruct (resize_image fs image_path output_path (Some M) min_size
              keep_format) as [fs'|e] eqn:Hrun; [|eauto].
  exfalso.
  destruct (resize_image_Ok _ _ _ _ _ _ _ Hrun)
    as (img & params0 & nw & nh & Hfile & Hsize & Hnw & Hnh & _).
  destruct (Hfs _ _ _ Hfile) as [Hw Hh].
  destruct (target_size_not_positive _ _ M min_size nw nh HM Hw Hh Hsize).
  lia.
Qed.

(** X11: with a [max_size] that is zero or negative, [resize_dataset]
    writes no file at all, whatever [min_size] is: every call of
    [resize_image] raises, so the run ends in an exception as soon as one
    path was collected. *)
Theorem nonpositive_max_size_writes_nothing (cwd : string) (tree : dir_tree)
    (fs : fsys) (input_dir output_dir : string) (M : Z)
    (min_size : option Z) (keep_format : bool) :
  M <= 0 -> sizes_nonneg fs ->
  let r := resize_dataset cwd tree fs input_dir output_dir (Some M) min_size
             keep_format in
  files (final_fs r) = files fs /\
  (all_image_paths input_dir tree <> [] -> exists e fs', r = Raised e fs').
Proof.
  intros HM Hfs. cbn zeta. unfold resize_dataset.
  pose proof (ensure_dir_files fs output_dir) as Hfiles0.
  destruct (ensure_dir fs output_dir) as [fs0|e0 fs0]; cbn [final_fs] in *;
    [|split; [exact Hfiles0|eauto]].
  assert (Hfs0 : sizes_nonneg fs0).
  { intros p img params. rewrite Hfiles0. apply Hfs. }
  destruct (all_image_paths input_dir tree) as [|input_path rest].
  - split; [exact Hfiles0|]. intros H. contradiction.
  - cbn [resize_all].
    destruct (relpath cwd input_path input_dir) as [rel|e];
      [|split; [exact Hfiles0|eauto]].
    pose proof (ensure_dir_files fs0 (dirname (join output_dir rel)))
      as Hfiles1.
    destruct (ensure_dir fs0 (dirname (join output_dir rel)))
      as [fs1|e1 fs1]; cbn [final_fs] in *;
      [|split; [congruence|eauto]].
    assert (Hfs1 : sizes_nonneg fs1).
    { intros p img params. rewrite Hfiles1. apply Hfs0. }
    destruct (resize_image_not_positive fs1 input_path (join output_dir rel)
                M min_size keep_format HM Hfs1) as [e ->].
    cbn [final_fs]. split; [congruence|eauto].
Qed.

Lemma nonpositive_max_size_writes_nothing_witness :
  let r := resize_dataset "/home/u" sample_tree sample_dataset_fs "in" "OUT"
             (Some 0) (Some 5) false in
  files (final_fs r) = files sample_dataset_fs /\
  (all_image_paths "in" sample_tree <> [] -> exists e fs', r = Raised e fs').
Proof.
  apply (nonpositive_max_size_writes_nothing "/home/u" sample_tree
           sample_dataset_fs "in" "OUT" 0 (Some 5) false); [lia|].
  intros p img params. unfold sample_dataset_fs. cbn [files].
  intros H.
  apply lookup_insert_Some in H as [[_ H]|[_ H]];
    [injection H as <- _; simpl; lia|].
  apply lookup_insert_Some in H as [[_ H]|[_ H]]; [discriminate|].
  apply lookup_singleton_Some in H as [_ H].
  injection H as <- _. simpl. lia.
Defined.

(** ** Names that count as images *)

Lemma map_chars_app (f : ascii -> ascii) (a b : string) :
  map_chars f (a +:+ b) = map_chars f a +:+ map_chars f b.
Proof.
  induction a as [|c a IH]; [reflexivity|].
  rewrite str_app_cons. cbn [map_chars]. by rewrite str_app_cons, IH.
Qed.

Lemma map_chars_length (f : ascii -> ascii) (s : string) :
  String.length (map_chars f s) = String.length s.
Proof. induction s as [|c s IH]; [reflexivity|]. cbn. by rewrite IH. Qed.

Lemma substring_all (s : string) : String.substring 0 (String.length s) s = s.
Proof. induction s as [|c s IH]; [reflexivity|]. cbn. by rewrite IH. Qed.

Lemma substring_app_suffix (p t : string) :
  String.substring (String.length p) (String.length t) (p +:+ t) = t.
Proof.
  induction p as [|c p IH]; [apply substring_all|].
  rewrite str_app_cons. cbn [String.length String.substring]. exact IH.
Qed.

Lemma str_split_at (i : nat) (s : string) :
  (i <= String.length s)%nat ->
  exists a : string,
    s = a +:+ String.substring i (String.length s - i) s /\
    String.length a = i.
Proof.
  revert s. induction i as [|i IH]; intros s Hi.
  - exists "". rewrite Nat.sub_0_r, substring_all. by split.
  - destruct s as [|c s]; [cbn in Hi; lia|].
    cbn [String.length] in Hi.
    destruct (IH s ltac:(lia)) as (a & Hs & Ha).
    exists (String c a). split; [|cbn; by rewrite Ha].
    rewrite str_app_cons. cbn [String.length String.substring Nat.sub].
    by rewrite <- Hs.
Qed.

Lemma str_app_inj_suffix (a1 b1 a2 b2 : string) :
  a1 +:+ b1 = a2 +:+ b2 -> String.length b1 = String.length b2 -> b1 = b2.
Proof.
  revert a2. induction a1 as [|c a1 IH]; intros a2 Heq Hlen.
  - destruct a2 as [|c2 a2]; [exact Heq|].
    change ("" +:+ b1) with b1 in Heq. rewrite Heq in Hlen.
    rewrite str_app_cons in Hlen. cbn [String.length] in Hlen.
    rewrite str_length_app in Hlen. lia.
  - destruct a2 as [|c2 a2].
    + change ("" +:+ b2) with b2 in Heq. rewrite <- Heq in Hlen.
      rewrite str_app_cons in Hlen. cbn [String.length] in Hlen.
      rewrite str_length_app in Hlen. lia.
    + rewrite !str_app_cons in Heq. injection Heq as _ Heq.
      by apply (IH a2).
Qed.

(** [s.endswith(suffix)] holds exactly when [s] is some text followed by
    [suffix]. *)
Lemma endswith_iff (s suffix : string) :
  endswith s suffix = true <-> exists p, s = p +:+ suffix.
Proof.
  unfold endswith. rewrite andb_true_iff, Nat.leb_le, bool_decide_eq_true.
  split.
  - intros [Hlen Hsub].
    destruct (str_split_at (String.length s - String.length suffix) s)
      as (a & Hs & _); [lia|].
    exists a. rewrite <- Hsub. rewrite Hs at 1. do 2 f_equal. lia.
  - intros [p ->]. rewrite str_length_app. split; [lia|].
    replace (String.length p + String.length suffix - String.length suffix)%nat
      with (String.length p) by lia.
    apply substring_app_suffix.
Qed.

(** X12: a file name is taken for an image exactly when it ends, in any
    mix of upper and lower case, in png, jpg, jpeg, bmp or gif; no dot is
    asked for before the suffix. *)
Theorem is_image_name_iff (file : string) :
  is_image_name file = true <->
  exists s t : string, file = s +:+ t /\ lower t ∈ image_suffixes.
Proof.
  unfold is_image_name, endswith_any. rewrite existsb_exists. split.
  - intros (suffix & Hin & Hends).
    apply endswith_iff in Hends as [p Hp].
    assert (Hlen : (String.length suffix <= String.length file)%nat).
    { rewrite <- (map_chars_length lower_char file).
      fold (lower file). rewrite Hp, str_length_app. lia. }
    destruct (str_split_at (String.length file - String.length suffix) file)
      as (s & Hs & Hslen); [lia|].
    set (t := String.substring _ _ file) in Hs.
    exists s, t. split; [exact Hs|].
    assert (Htlen : String.length t = String.length suffix).
    { pose proof (f_equal String.length Hs) as Hl.
      rewrite str_length_app in Hl. lia. }
    assert (Ht : lower t = suffix).
    { apply (str_app_inj_suffix (lower s) _ p).
      - unfold lower in *. rewrite <- map_chars_app, <- Hs. exact Hp.
      - unfold lower. by rewrite map_chars_length. }
    rewrite Ht. by apply list_elem_of_In.
  - intros (s & t & -> & Hin).
    exists (lower t). split; [by apply list_elem_of_In|].
    apply endswith_iff. exists (lower s). apply map_chars_app.
Qed.

(** ** The loop over the collected paths *)

(** X13: the loop over a list of paths is the loop over a first part
    followed, if that completed, by the loop over the rest on the file
    system left by the first part; once a path has raised, the paths after
    it are not processed and the files written before it stay. *)
Theorem resize_all_app (cwd : string) (l1 l2 : list string)
    (input_dir output_dir : string) (max_size min_size : option Z)
    (keep : bool) :
  forall fs : fsys,
    resize_all cwd fs (l1 ++ l2) input_dir output_dir max_size min_size keep
    = match resize_all cwd fs l1 input_dir output_dir max_size min_size keep
      with
      | Done fs1 =>
          resize_all cwd fs1 l2 input_dir output_dir max_size min_size keep
      | Raised e fs1 => Raised e fs1
      end.
Proof.
  induction l1 as [|p l1 IH]; intros fs; [reflexivity|].
  cbn [app resize_all].
  destruct (relpath cwd p input_dir) as [rel|e]; [|reflexivity].
  destruct (ensure_dir fs _) as [fs0|e fs0]; [|reflexivity].
  destruct (resize_image _ p _ _ _ _) as [fs1|e]; [|reflexivity].
  apply IH.
Qed.

Lemma filter_no_image_names (l : list string) :
  Forall (fun f => is_image_name f = false) l -> filter is_image_name l = [].
Proof.
  induction 1 as [|f l Hf Hl IH]; [reflexivity|].
  rewrite filter_cons_False; [exact IH|]. rewrite Hf. exact id.
Qed.

Lemma all_image_paths_no_names (t : dir_tree) :
  forall top : string,
    Forall (fun f => is_image_name f = false) (file_names t) ->
    all_image_paths top t = [].
Proof.
  induction t as [fnames subdirs IH] using dir_tree_nested_ind.
  intros top Hnames. unfold all_image_paths.
  cbn [walk flat_map file_names] in *.
  apply Forall_app in Hnames as [Hfiles Hsubs].
  rewrite filter_no_image_names by assumption. cbn [map app].
  revert Hsubs. induction IH as [|[d t'] l Ht' Hl IHl]; intros Hsubs;
    [reflexivity|].
  apply Forall_app in Hsubs as [Hhere Hrest].
  rewrite flat_map_app.
  pose proof (Ht' (join top d) Hhere) as Hnone.
  unfold all_image_paths in Hnone. cbn [snd] in Hnone.
  rewrite Hnone. cbn [app]. apply IHl. exact Hrest.
Qed.

(** X14: when no file in the tree has an image name, [resize_dataset]
    does nothing but make sure that the output directory exists (lines
    52-53): it ends as that step ends, with the exception of
    [os.makedirs] if there is one, and no file is read or written.  Where
    the output directory exists already, nothing changes at all. *)
Theorem no_image_names_nothing_written (cwd : string) (tree : dir_tree)
    (fs : fsys) (input_dir output_dir : string)
    (max_size min_size : option Z) (keep : bool) :
  Forall (fun f => is_image_name f = false) (file_names tree) ->
  let r := resize_dataset cwd tree fs input_dir output_dir
             max_size min_size keep in
  r = ensure_dir fs output_dir /\
  files (final_fs r) = files fs /\
  (path_exists fs output_dir = true -> r = Done fs).
Proof.
  intros Hnames. cbn zeta.
  assert (Hrun : resize_dataset cwd tree fs input_dir output_dir
                   max_size min_size keep = ensure_dir fs output_dir).
  { unfold resize_dataset.
    rewrite all_image_paths_no_names by assumption.
    by destruct (ensure_dir fs output_dir). }
  rewrite Hrun. split; [reflexivity|].
  split; [apply ensure_dir_files|].
  intros Hthere. unfold ensure_dir. by rewrite Hthere.
Qed.

Lemma no_image_names_nothing_written_witness :
  resize_dataset "/home/u"
    (Dir ["notes.txt"; "png.txt"] [("a", Dir ["README"] [])])
    sample_dataset_fs "in" "OUT/new" None None false
  = Done {| files := files sample_dataset_fs;
            dirs := {[ "OUT"; "OUT/new" ]} ∪ dirs sample_dataset_fs |} /\
  resize_dataset "/home/u"
    (Dir ["notes.txt"; "png.txt"] [("a", Dir ["README"] [])])
    sample_dataset_fs "in" "in/notes.txt/new" None None false
  = Raised NotADirectoryError sample_dataset_fs /\
  resize_dataset "/home/u"
    (Dir ["notes.txt"; "png.txt"] [("a", Dir ["README"] [])])
    sample_dataset_fs "in" "in/a" None None false
  = Done sample_dataset_fs.
Proof.
  assert (Hnames : Forall (fun f => is_image_name f = false)
                     (file_names
                        (Dir ["notes.txt"; "png.txt"]
                           [("a", Dir ["README"] [])])))
    by repeat constructor.
  split; [|split].
  - destruct (no_image_names_nothing_written "/home/u" _ sample_dataset_fs
                "in" "OUT/new" None None false Hnames) as (-> & _).
    vm_compute. reflexivity.
  - destruct (no_image_names_nothing_written "/home/u" _ sample_dataset_fs
                "in" "in/notes.txt/new" None None false Hnames) as (-> & _).
    vm_compute. reflexivity.
  - destruct (no_image_names_nothing_written "/home/u" _ sample_dataset_fs
                "in" "in/a" None None false Hnames) as (_ & _ & Hthere).
    apply Hthere. reflexivity.
Defined.

(** X15: every file with an image name is collected once: the paths
    collected from a tree are as many as its files with an image
    name. *)
Theorem all_image_paths_count (t : dir_tree) :
  forall top : string,
    length (all_image_paths top t)
    = length (filter is_image_name (file_names t)).
Proof.
  induction t as [fnames subdirs IH] using dir_tree_nested_ind.
  intros top. unfold all_image_paths.
  cbn [walk flat_map file_names].
  rewrite filter_app, !length_app, length_map. f_equal.
  induction IH as [|[d t'] l Ht' Hl IHl]; [reflexivity|].
  rewrite flat_map_app, filter_app, !length_app.
  pose proof (Ht' (join top d)) as Hhere.
  unfold all_image_paths in Hhere. cbn [snd] in Hhere.
  rewrite Hhere, IHl. reflexivity.
Qed.

(** ** The directory of an output *)

Lemma rsplit_at_sep_no_sep (s : string) :
  no_sep s = true -> rsplit_at "/" s = None.
Proof.
  induction s as [|x s IH]; [reflexivity|].
  cbn [no_sep rsplit_at]. intros H. apply andb_true_iff in H as [Hx Hs].
  rewrite (IH Hs). unfold is_sep in Hx.
  by rewrite bool_decide_eq_false_2
    by (intros ->; by rewrite bool_decide_eq_true_2 in Hx).
Qed.

Lemma rsplit_at_sep_after (s before after : string) :
  rsplit_at "/" s = Some (before, after) -> no_sep after = true.
Proof.
  revert before after. induction s as [|x s IH]; intros before after;
    [discriminate|].
  cbn [rsplit_at]. destruct (rsplit_at "/" s) as [[b a]|] eqn:Hs.
  - intros [= <- <-]. by apply (IH b a).
  - case_bool_decide; [|discriminate]. intros [= <- <-].
    clear IH. induction s as [|y s IHs]; [reflexivity|].
    cbn [rsplit_at] in Hs. cbn [no_sep].
    destruct (rsplit_at "/" s) as [[b a]|]; [discriminate|].
    unfold is_sep. case_bool_decide; [discriminate|]. by rewrite IHs.
Qed.

(** Replacing the extension leaves the directory as it is. *)
Lemma dirname_replace_ext (p ext : string) :
  no_sep ext = true ->
  dirname ((splitext p).1 +:+ "." +:+ ext) = dirname p.
Proof.
  intros Hext. unfold dirname.
  destruct (rsplit_at "/" p) as [[before after]|] eqn:Hsep.
  - pose proof (rsplit_at_sep_after _ _ _ Hsep) as Hafter.
    apply rsplit_at_spec in Hsep. subst p.
    rewrite splitext_app_sep. cbn [fst].
    rewrite str_app_assoc, str_app_cons, rsplit_at_app_char.
    rewrite rsplit_at_sep_no_sep; [reflexivity|].
    rewrite !no_sep_app, no_sep_stem by assumption. by rewrite Hext.
  - assert (Hp : no_sep p = true).
    { clear Hext. induction p as [|y p IHp]; [reflexivity|].
      cbn [rsplit_at] in Hsep. cbn [no_sep].
      destruct (rsplit_at "/" p) as [[b a]|]; [discriminate|].
      unfold is_sep. case_bool_decide; [discriminate|]. by rewrite IHp. }
    rewrite rsplit_at_sep_no_sep; [reflexivity|].
    rewrite !no_sep_app, no_sep_stem by assumption. by rewrite Hext.
Qed.

Lemma output_extension_no_sep (ext : string) :
  ext ∈ output_extensions -> no_sep ext = true.
Proof.
  unfold output_extensions. rewrite !elem_of_cons, elem_of_nil.
  intros [->|[->|[->|[->|[]]]]]; reflexivity.
Qed.

Lemma isdir_mono (fs fs' : fsys) (q : string) :
  dirs fs ⊆ dirs fs' -> isdir fs q = true -> isdir fs' q = true.
Proof.
  intros Hdirs. unfold isdir. rewrite !andb_true_iff, !orb_true_iff.
  intros [Hq [H|H]]; (split; [exact Hq|]); [by left|right].
  apply bool_decide_eq_true_1 in H. apply bool_decide_eq_true_2. auto.
Qed.

Lemma isdir_dirs (fs fs' : fsys) (q : string) :
  dirs fs' = dirs fs -> isdir fs' q = isdir fs q.
Proof. intros Hdirs. unfold isdir. by rewrite Hdirs. Qed.

Lemma dir_check_dirs (fs fs' : fsys) (d : string) :
  dirs fs' = dirs fs -> dir_check fs d = Ok tt -> dir_check fs' d = Ok tt.
Proof.
  intros Hdirs. unfold dir_check. rewrite (isdir_dirs fs fs') by exact Hdirs.
  destruct (_ || _); [reflexivity|]. destruct (existsb _ _); discriminate.
Qed.

(** [os.makedirs] raises on the empty path, so that a directory made sure
    of has a name. *)
Lemma ensure_dir_Done_name (fs fs0 : fsys) (d : string) :
  ensure_dir fs d = Done fs0 -> d <> "".
Proof. intros Hd ->. discriminate. Qed.

Lemma resize_all_parents (cwd input_dir output_dir : string)
    (max_size min_size : option Z) (keep : bool)
    (paths : list string) (fs : fsys) :
  let r := resize_all cwd fs paths input_dir output_dir
             max_size min_size keep in
  forall p, files (final_fs r) !! p <> files fs !! p ->
    isdir (final_fs r) (dirname p) = true.
Proof.
  cbn zeta. revert paths fs.
  apply (resize_all_run_ind cwd input_dir output_dir max_size min_size keep
           (fun fs paths r =>
    forall p, files (final_fs r) !! p <> files fs !! p ->
      isdir (final_fs r) (dirname p) = true)).
  - intros fs p Hp. contradiction.
  - intros fs ip rest e _ p Hp. contradiction.
  - intros fs ip rest rel e fs0 _ Hd p.
    pose proof (ensure_dir_files fs (dirname (join output_dir rel))) as Hf.
    rewrite Hd in Hf. cbn [final_fs] in *. rewrite Hf. contradiction.
  - intros fs ip rest rel fs0 e _ Hd _ p.
    pose proof (ensure_dir_files fs (dirname (join output_dir rel))) as Hf.
    rewrite Hd in Hf. cbn [final_fs] in *. rewrite Hf. contradiction.
  - intros fs ip rest rel fs0 fs1 _ Hd Hstep IH p Hp.
    pose proof (ensure_dir_files fs (dirname (join output_dir rel))) as Hf.
    rewrite Hd in Hf. cbn [final_fs] in Hf.
    apply ensure_dir_Done_name in Hd as Hname.
    destruct (resize_image_Ok _ _ _ _ _ _ _ Hstep)
      as (img & params0 & nw & nh & _ & _ & _ & _ & Hsave & _).
    cbn zeta in Hsave. apply save_Ok in Hsave as (_ & Hparent & Hfs1).
    pose proof (select_format_extension keep (original_format_of img))
      as Hext.
    set (ext := (select_format keep (original_format_of img)).1) in *.
    set (out := (splitext (join output_dir rel)).1 +:+ "." +:+ ext) in *.
    assert (Hfiles : files fs1 = <[out := encode
              {| format := None; mode := "RGB"; width := nw; height := nh;
                 info := ∅ |}
              (save_params_for ext
                 (select_format keep (original_format_of img)).2)]>
              (files fs0)) by (by rewrite Hfs1).
    assert (Hdirs : dirs fs1 = dirs fs0) by (by rewrite Hfs1).
    destruct (resize_all_spec cwd input_dir output_dir max_size min_size keep
                rest fs1) as (_ & Hgrow & _).
    destruct (decide (out = p)) as [<-|Hne].
    + apply (isdir_mono fs1); [exact Hgrow|].
      apply (isdir_mono fs0); [by rewrite Hdirs|].
      apply dir_check_Ok in Hparent as [Hempty|Hparent]; [|exact Hparent].
      subst out.
      rewrite dirname_replace_ext in Hempty
        by (by apply output_extension_no_sep).
      contradiction.
    + apply IH. by rewrite Hfiles, lookup_insert_ne, Hf.
Qed.

(** X16: after [resize_dataset], completed or ended by an exception,
    every file the run wrote lies in a directory: the path that
    [os.path.dirname] gives for it names a directory, not a regular file
    and not a missing entry.  Replacing the extension in line 40 does not
    move the output out of the directory made sure of in lines 66-69, and
    [save] raises where that path is a regular file. *)
Theorem output_parent_directory_exists (cwd : string) (tree : dir_tree)
    (fs : fsys) (input_dir output_dir : string)
    (max_size min_size : option Z) (keep : bool) :
  let r := resize_dataset cwd tree fs input_dir output_dir
             max_size min_size keep in
  (forall p, files (final_fs r) !! p <> files fs !! p ->
     isdir (final_fs r) (dirname p) = true) /\
  dirs fs ⊆ dirs (final_fs r).
Proof.
  cbn zeta. unfold resize_dataset.
  pose proof (ensure_dir_files fs output_dir) as Hf.
  pose proof (ensure_dir_dirs fs output_dir) as Hs.
  destruct (ensure_dir fs output_dir) as [fs0|e fs0]; cbn [final_fs] in *.
  - split.
    + intros p Hp. apply resize_all_parents. by rewrite Hf.
    + etrans; [exact Hs|]. apply resize_all_spec.
  - split; [|exact Hs]. intros p Hp. rewrite Hf in Hp. contradiction.
Qed.

Lemma output_parent_directory_exists_witness :
  isdir sample_dataset_out (dirname "OUT/a/b/c.png") = true /\
  isdir sample_dataset_out (dirname "OUT/x.png") = true /\
  dirs sample_dataset_fs ⊆ dirs sample_dataset_out.
Proof.
  pose proof (output_parent_directory_exists "/home/u" sample_tree
                sample_dataset_fs "in" "OUT" (Some 800) None false) as H.
  cbn zeta in H. rewrite sample_dataset_run in H. cbn [final_fs] in H.
  destruct H as [Hparent Hdirs].
  split; [apply Hparent; discriminate|].
  split; [apply Hparent; discriminate|exact Hdirs].
Defined.

(** A source [a.jpg] beside a directory [a.png] that holds [b.png]: the
    output of the first is the regular file [OUT/a.png], which line 68
    then finds to exist, and the output of the second has no directory to
    go to.  The run ends in NotADirectoryError with one file written. *)
Example output_below_an_output :
  resize_dataset "/home/u"
    (Dir ["a.jpg"] [("a.png", Dir ["b.png"] [])])
    {| files := {[ "in/a.jpg" := Encoded sample_image ∅;
                   "in/a.png/b.png" := Encoded sample_image ∅ ]};
       dirs := {[ "in"; "in/a.png" ]} |}
    "in" "OUT" (Some 800) None false
  = Raised NotADirectoryError
      {| files := {[ "in/a.jpg" := Encoded sample_image ∅;
                     "in/a.png/b.png" := Encoded sample_image ∅;
                     "OUT/a.png" :=
                       Encoded {| format := Some "PNG"; mode := "RGB";
                                  width := 800; height := 400; info := ∅ |}
                               png_options ]};
         dirs := {[ "in"; "in/a.png"; "OUT" ]} |}.
Proof. vm_compute. reflexivity. Qed.

(** ** Output beside the source, and outputs that collide *)

(** X17: when the output directory is the input directory, the output
    path computed for a collected file (line 65) is the path of the file
    itself, so each file written lies beside its source under the source's
    name with the extension replaced; a source that already has that
    extension is overwritten. *)
Theorem same_directory_outputs_beside_sources (cwd : string)
    (tree : dir_tree) (fs : fsys) (dir : string)
    (max_size min_size : option Z) (keep : bool) :
  isabs cwd = true -> tree_names_ok tree = true ->
  let r := resize_dataset cwd tree fs dir dir max_size min_size keep in
  (forall input_path, input_path ∈ all_image_paths dir tree ->
     exists rel,
       relpath cwd input_path dir = Ok rel /\ join dir rel = input_path) /\
  (forall p, files (final_fs r) !! p <> files fs !! p ->
     exists input_path ext,
       input_path ∈ all_image_paths dir tree /\
       ext ∈ output_extensions /\
       p = (splitext input_path).1 +:+ "." +:+ ext).
Proof.
  intros Hcwd Hok. cbn zeta.
  assert (Hround : forall input_path,
             input_path ∈ all_image_paths dir tree ->
             exists rel,
               relpath cwd input_path dir = Ok rel /\
               join dir rel = input_path).
  { intros ip Hip.
    destruct (all_image_paths_below tree dir ip Hok Hip)
      as (ds & f & Hds & Hf & ->).
    eexists. split; [|reflexivity].
    apply relpath_join; [exact Hcwd|by destruct ds|].
    apply Forall_app. split; [exact Hds|by constructor]. }
  split; [exact Hround|].
  unfold resize_dataset.
  pose proof (ensure_dir_files fs dir) as Hf.
  destruct (ensure_dir fs dir) as [fs0|e fs0]; cbn [final_fs] in *.
  2:{ intros p Hp. rewrite Hf in Hp. contradiction. }
  destruct (resize_all_spec cwd dir dir max_size min_size keep
              (all_image_paths dir tree) fs0) as (_ & _ & Hchanged).
  rewrite Hf in Hchanged.
  intros p Hp.
  destruct (Hchanged p Hp) as (ip & rel & ext & Hip & Hrel & Hext & ->).
  destruct (Hround ip Hip) as (rel' & Hrel' & Hjoin).
  rewrite Hrel in Hrel'. injection Hrel' as <-.
  exists ip, ext. rewrite Hjoin. auto.
Qed.

Lemma same_directory_outputs_beside_sources_witness :
  let r := resize_dataset "/home/u" sample_tree sample_dataset_fs "in" "in"
             (Some 800) None false in
  (forall input_path, input_path ∈ all_image_paths "in" sample_tree ->
     exists rel,
       relpath "/home/u" input_path "in" = Ok rel /\
       join "in" rel = input_path) /\
  (forall p, files (final_fs r) !! p <> files sample_dataset_fs !! p ->
     exists input_path ext,
       input_path ∈ all_image_paths "in" sample_tree /\
       ext ∈ output_extensions /\
       p = (splitext input_path).1 +:+ "." +:+ ext).
Proof.
  apply (same_directory_outputs_beside_sources "/home/u" sample_tree
           sample_dataset_fs "in" (Some 800) None false); reflexivity.
Defined.

Lemma select_format_no_keep (recorded : option string) :
  select_format false recorded = ("png", "PNG").
Proof. reflexivity. Qed.

(** X18: without [keep_format], two calls whose output paths differ
    only in the extension write the same file: after both, the file system
    is what the second call alone would have left, and the output of the
    first is lost. *)
Theorem same_stem_second_output_wins (fs fs1 fs2 : fsys)
    (p1 o1 p2 o2 : string) (max_size min_size : option Z) :
  (splitext o1).1 = (splitext o2).1 ->
  p2 <> (splitext o1).1 +:+ ".png" ->
  resize_image fs p1 o1 max_size min_size false = Ok fs1 ->
  resize_image fs1 p2 o2 max_size min_size false = Ok fs2 ->
  resize_image fs p2 o2 max_size min_size false = Ok fs2.
Proof.
  intros Hstem Hp2 Hrun1 Hrun2.
  destruct (resize_image_Ok _ _ _ _ _ _ _ Hrun1)
    as (img1 & q1 & nw1 & nh1 & _ & _ & _ & _ & _ & Hfs1).
  destruct (resize_image_Ok _ _ _ _ _ _ _ Hrun2)
    as (img2 & q2 & nw2 & nh2 & Hfile2 & Hsize2 & Hnw2 & Hnh2 & _ & Hfs2).
  cbn zeta in Hfs1, Hfs2. rewrite select_format_no_keep in Hfs1, Hfs2.
  cbn [fst snd] in Hfs1, Hfs2.
  change ("." +:+ "png") with ".png" in Hfs1, Hfs2.
  assert (Hfile : files fs !! p2 = Some (Encoded img2 q2)).
  { rewrite Hfs1 in Hfile2. cbn [files write_files] in Hfile2.
    by rewrite lookup_insert_ne in Hfile2. }
  rewrite (resize_image_of_size _ _ _ _ _ _ img2 q2 nw2 nh2 Hfile2 Hsize2)
    in Hrun2.
  rewrite (resize_image_of_size _ _ _ _ _ _ img2 q2 nw2 nh2 Hfile Hsize2).
  destruct (negb (c_int nw2 && c_int nh2)); [discriminate|].
  destruct ((nw2 <? 1) || (nh2 <? 1)); [discriminate|].
  cbn zeta in *. rewrite select_format_no_keep in *. cbn [fst snd] in *.
  change ("." +:+ "png") with ".png" in *.
  apply save_Ok in Hrun2 as (Hnodir & Hparent & _).
  assert (Hdirs : dirs fs = dirs fs1) by (by rewrite Hfs1).
  unfold save.
  rewrite (isdir_dirs fs1 fs) by exact Hdirs. rewrite Hnodir.
  rewrite (dir_check_dirs fs1 fs _ Hdirs Hparent).
  simpl_bind. rewrite encode_rgb.
  rewrite Hfs2, Hfs1. unfold write_files. cbn [files dirs].
  rewrite <- Hstem, insert_insert_eq. reflexivity.
Qed.

Lemma same_stem_second_output_wins_witness :
  resize_image sample_dataset_fs "in/a/b/c.jpg" "in/x.jpg" (Some 800) None
               false
  = Ok (write_files sample_dataset_fs
          (<["in/x.png" :=
               Encoded {| format := Some "PNG"; mode := "RGB";
                          width := 800; height := 400; info := ∅ |}
                       (save_params_for "png" "PNG")]>
             (files sample_dataset_fs))).
Proof.
  apply (same_stem_second_output_wins sample_dataset_fs
           (write_files sample_dataset_fs
              (<["in/x.png" :=
                   Encoded {| format := Some "PNG"; mode := "RGB";
                              width := 400; height := 800; info := ∅ |}
                           (save_params_for "png" "PNG")]>
                 (files sample_dataset_fs)))
           _ "in/x.PNG" "in/x.PNG" "in/a/b/c.jpg" "in/x.jpg" (Some 800) None).
  - reflexivity.
  - discriminate.
  - vm_compute. reflexivity.
  - vm_compute. reflexivity.
Defined.

(** ** Outputs and their sources *)







(** ** Both bounds, and neither *)

Lemma target_size_max_longer_side (w h M : Z) (min_size : option Z)
    (nw nh : Z) :
  0 < w -> 0 < h -> 0 < M -> Z.max w h * M < 2 ^ 50 ->
  target_size w h (Some M) min_size = Ok (nw, nh) ->
  M - 1 <= Z.max nw nh <= M.
Proof.
  intros Hw Hh HM Hbound Hsize.
  destruct (target_size_max_near w h M min_size Hw Hh HM Hbound)
    as (nw' & nh' & Hsize' & [Hnw _] & [Hnh _]).
  rewrite Hsize in Hsize'. injection Hsize' as <- <-.
  assert (Hwd : w * M / Z.max w h <= M)
    by (apply Z.div_le_upper_bound; nia).
  assert (Hhd : h * M / Z.max w h <= M)
    by (apply Z.div_le_upper_bound; nia).
  destruct (Z.max_spec w h) as [[Hlt Hmax]|[Hle Hmax]]; rewrite Hmax in *.
  - rewrite (Z.mul_comm h M), Z.div_mul in Hnh by lia. lia.
  - rewrite (Z.mul_comm w M), Z.div_mul in Hnw by lia. lia.
Qed.

(** The steps of a call after the size is known: [resize], then
    [save]. *)
Lemma resize_image_steps (fs : fsys) (image_path output_path : string)
    (max_size min_size : option Z) (keep_format : bool)
    (img : Image) (params0 : gmap string param) (size : Z * Z) :
  files fs !! image_path = Some (Encoded img params0) ->
  target_size (width img) (height img) max_size min_size = Ok size ->
  resize_image fs image_path output_path max_size min_size keep_format
  = (resized_img ← resize (convert img "RGB") size BILINEAR;
     save fs (set_info resized_img ∅)
          ((splitext output_path).1 +:+ "." +:+
           (select_format keep_format (original_format_of img)).1)
          (save_params_for
             (select_format keep_format (original_format_of img)).1
             (select_format keep_format (original_format_of img)).2)).
Proof.
  intros Hfile Hsize. unfold resize_image, Image_open. rewrite Hfile.
  cbn [mbind result_bind convert width height]. rewrite Hsize.
  simpl_bind.
  destruct (resize _ size BILINEAR) as [resized_img|e]; simpl_bind;
    [|reflexivity].
  by destruct (select_format keep_format (original_format_of img)).
Qed.

Lemma resize_error (img : Image) (size : Z * Z) (r : resampling) (e : exn) :
  resize img size r = Err e ->
  e = OverflowError \/ e = ValueError "height and width must be > 0".
Proof.
  unfold resize. destruct (negb _); [intros [= <-]; auto|].
  destruct (_ || _); [|discriminate]. intros [= <-]. auto.
Qed.

(** The ValueError of line 21 comes out only when both bounds are
    [None]. *)
Lemma resize_image_missing_bound (fs : fsys)
    (image_path output_path : string) (max_size min_size : option Z)
    (keep_format : bool) :
  resize_image fs image_path output_path max_size min_size keep_format
  = Err (ValueError "Either max_size or min_size must be specified.") ->
  max_size = None /\ min_size = None.
Proof.
  unfold resize_image, Image_open.
  destruct (files fs !! image_path) as [[img params0|]|]; try discriminate.
  cbn [mbind result_bind convert width height].
  unfold target_size.
  destruct (scale_ratio _ _ _ _) as [ratio|e] eqn:Hratio; simpl_bind.
  - destruct (new_size _ _ _) as [[nw nh]|e] eqn:Hsize; simpl_bind.
    + destruct (resize _ _ _) as [resized_img|e] eqn:Hresize; simpl_bind.
      * destruct (select_format _ _). intros Hsave.
        apply save_error in Hsave as [H|[H|H]]; discriminate.
      * intros [= ->].
        destruct (resize_error _ _ _ _ Hresize); discriminate.
    + intros [= ->].
      destruct (new_size_error _ _ _ _ Hsize); discriminate.
  - intros [= ->].
    destruct (scale_ratio_error _ _ _ _ _ Hratio) as [H|[H|(_ & H)]];
      [discriminate|discriminate|exact H].
Qed.

(** C9: in a call with both bounds, [max_size = M] and [min_size = m],
    the ratio is the smaller of [M / width] and [M / height], as with
    [max_size] alone: [m] is not read.  For a readable image with positive
    sides (sides times [M] below 2^50) a size comes out, and it is the one
    the max rule gives whatever [m] is: each side is the side times [M]
    over the longer side, rounded down, or one less where that division is
    exact, so that the longer side is [M] or [M - 1]; this size goes to
    [resize], the call is the call without [min_size], and it does not end
    in the ValueError of line 21.  With both bounds [None] the call on a
    readable image ends in that ValueError, and no call ends in it
    otherwise. *)
Theorem C9_max_size_shadows_min_size (fs : fsys)
    (image_path output_path : string) (M m : Z) (keep_format : bool)
    (img : Image) (params0 : gmap string param) :
  files fs !! image_path = Some (Encoded img params0) ->
  0 < width img -> 0 < height img -> 0 < M ->
  Z.max (width img) (height img) * M < 2 ^ 50 ->
  scale_ratio (width img) (height img) (Some M) (Some m)
  = (a ← truediv_int M (width img);
     b ← truediv_int M (height img);
     Ok (py_min a b)) /\
  (exists nw nh : Z,
     target_size (width img) (height img) (Some M) (Some m) = Ok (nw, nh) /\
     exact_or_one_less (width img * M) (Z.max (width img) (height img)) nw /\
     exact_or_one_less (height img * M) (Z.max (width img) (height img)) nh /\
     M - 1 <= Z.max nw nh <= M /\
     resize_image fs image_path output_path (Some M) (Some m) keep_format
     = (resized_img ← resize (convert img "RGB") (nw, nh) BILINEAR;
        save fs (set_info resized_img ∅)
             ((splitext output_path).1 +:+ "." +:+
              (select_format keep_format (original_format_of img)).1)
             (save_params_for
                (select_format keep_format (original_format_of img)).1
                (select_format keep_format (original_format_of img)).2))) /\
  resize_image fs image_path output_path (Some M) (Some m) keep_format
  = resize_image fs image_path output_path (Some M) None keep_format /\
  resize_image fs image_path output_path (Some M) (Some m) keep_format
  <> Err (ValueError "Either max_size or min_size must be specified.") /\
  resize_image fs image_path output_path None None keep_format
  = Err (ValueError "Either max_size or min_size must be specified.") /\
  (forall max_size min_size : option Z,
     resize_image fs image_path output_path max_size min_size keep_format
     = Err (ValueError "Either max_size or min_size must be specified.") ->
     max_size = None /\ min_size = None).
Proof.
  intros Hfile Hw Hh HM Hbound.
  split; [reflexivity|].
  split.
  { destruct (target_size_max_near _ _ M (Some m) Hw Hh HM Hbound)
      as (nw & nh & Hsize & Hnw & Hnh).
    exists nw, nh. split; [exact Hsize|]. split; [exact Hnw|].
    split; [exact Hnh|].
    split; [exact (target_size_max_longer_side _ _ M (Some m) nw nh
                     Hw Hh HM Hbound Hsize)|].
    by apply (resize_image_steps _ _ _ _ _ _ img params0). }
  split; [reflexivity|].
  split.
  { intros Herr. apply resize_image_missing_bound in Herr as [Hmax _].
    discriminate. }
  split; [|intros max_size min_size; apply resize_image_missing_bound].
  unfold resize_image, Image_open. rewrite Hfile. reflexivity.
Qed.

Lemma C9_max_size_shadows_min_size_witness :
  (target_size 4000 2000 (Some 800) (Some 5) = Ok (800, 400) /\
   target_size 4000 2000 None (Some 5) = Ok (10, 5) /\
   resize_image sample_fs "in/c.jpg" "OUT/c.jpg" (Some 800) (Some 5) true
   = Ok sample_resized_fs) /\
  scale_ratio 4000 2000 (Some 800) (Some 5)
  = (a ← truediv_int 800 4000; b ← truediv_int 800 2000; Ok (py_min a b)) /\
  (exists nw nh : Z,
     target_size 4000 2000 (Some 800) (Some 5) = Ok (nw, nh) /\
     exact_or_one_less (4000 * 800) (Z.max 4000 2000) nw /\
     exact_or_one_less (2000 * 800) (Z.max 4000 2000) nh /\
     800 - 1 <= Z.max nw nh <= 800 /\
     resize_image sample_fs "in/c.jpg" "OUT/c.jpg" (Some 800) (Some 5) true
     = (resized_img ← resize (convert sample_image "RGB") (nw, nh) BILINEAR;
        save sample_fs (set_info resized_img ∅)
             ((splitext "OUT/c.jpg").1 +:+ "." +:+
              (select_format true (original_format_of sample_image)).1)
             (save_params_for
                (select_format true (original_format_of sample_image)).1
                (select_format true (original_format_of sample_image)).2))) /\
  resize_image sample_fs "in/c.jpg" "OUT/c.jpg" (Some 800) (Some 5) true
  = resize_image sample_fs "in/c.jpg" "OUT/c.jpg" (Some 800) None true /\
  resize_image sample_fs "in/c.jpg" "OUT/c.jpg" (Some 800) (Some 5) true
  <> Err (ValueError "Either max_size or min_size must be specified.") /\
  resize_image sample_fs "in/c.jpg" "OUT/c.jpg" None None true
  = Err (ValueError "Either max_size or min_size must be specified.") /\
  (forall max_size min_size : option Z,
     resize_image sample_fs "in/c.jpg" "OUT/c.jpg" max_size min_size true
     = Err (ValueError "Either max_size or min_size must be specified.") ->
     max_size = None /\ min_size = None).
Proof.
  split.
  - split; [vm_compute; reflexivity|].
    split; vm_compute; reflexivity.
  - apply (C9_max_size_shadows_min_size sample_fs "in/c.jpg" "OUT/c.jpg"
             800 5 true sample_image ∅);
      try reflexivity; simpl; lia.
Defined.

(** ** The missing-bound error and the command line *)

Lemma resize_all_raised (cwd : string) (paths : list string)
    (input_dir output_dir : string) (max_size min_size : option Z)
    (keep : bool) (e : exn) (fs' : fsys) :
  forall fs : fsys,
    resize_all cwd fs paths input_dir output_dir max_size min_size keep
    = Raised e fs' ->
    e = ValueError "no path specified" \/
    (e = FileNotFoundError \/ e = FileExistsError \/
     e = NotADirectoryError) \/
    exists fs0 image_path output_path,
      resize_image fs0 image_path output_path max_size min_size keep = Err e.
Proof.
  induction paths as [|ip rest IH]; intros fs; [discriminate|].
  cbn [resize_all].
  destruct (relpath cwd ip input_dir) as [rel|e0] eqn:Hrel.
  - pose proof (ensure_dir_spec fs (dirname (join output_dir rel)))
      as (_ & _ & Hraise).
    destruct (ensure_dir fs _) as [fs0|e0 fs0].
    + destruct (resize_image _ ip _ _ _ _) as [fs1|e1] eqn:Hstep.
      * apply IH.
      * intros [= <- <-]. right. right. eauto.
    + intros [= <- <-]. right. left. eapply Hraise. reflexivity.
  - intros [= <- <-]. left. unfold relpath in Hrel.
    case_bool_decide; [by injection Hrel as <-|].
    destruct (_ ++ _); discriminate.
Qed.

(** X20: the ValueError of line 21 (neither bound given) cannot be
    reached from the command line: a run that line 87-91 let through never
    ends in it. *)
Theorem missing_bound_error_unreachable (cwd : string) (tree : dir_tree)
    (fs : fsys) (a : args) (e : exn) (fs' : fsys) :
  main cwd tree fs a = Finished (Raised e fs') ->
  e <> ValueError "Either max_size or min_size must be specified.".
Proof.
  unfold main.
  destruct (truthy (max_size a) && truthy (min_size a)); [discriminate|].
  destruct (negb (truthy (max_size a)) && negb (truthy (min_size a)))
    eqn:Hnone; [discriminate|].
  intros [= Hrun] ->. unfold resize_dataset in Hrun.
  pose proof (ensure_dir_spec fs (output_directory a)) as (_ & _ & Hraise).
  destruct (ensure_dir fs (output_directory a)) as [fs0|e0 fs0].
  - apply resize_all_raised in Hrun
      as [Hrun|[[Hrun|[Hrun|Hrun]]|(fs1 & ip & op & Hrun)]];
      try discriminate.
    apply resize_image_missing_bound in Hrun as [Hmax Hmin].
    rewrite Hmax, Hmin in Hnone. discriminate.
  - injection Hrun as -> _.
    destruct (Hraise _ _ eq_refl) as [H|[H|H]]; discriminate.
Qed.

Lemma missing_bound_error_unreachable_witness :
  main "/home/u" (Dir ["notes.png"] [])
       {| files := {[ "in/notes.png" := Undecodable ]}; dirs := {[ "in" ]} |}
       {| input_directory := "in"; output_directory := "OUT";
          max_size := Some 800; min_size := None; keep_format := false |}
  = Finished (Raised UnidentifiedImageError
                {| files := {[ "in/notes.png" := Undecodable ]};
                   dirs := {[ "OUT"; "in" ]} |}) /\
  UnidentifiedImageError
  <> ValueError "Either max_size or min_size must be specified.".
Proof.
  assert (Hrun :
    main "/home/u" (Dir ["notes.png"] [])
         {| files := {[ "in/notes.png" := Undecodable ]};
            dirs := {[ "in" ]} |}
         {| input_directory := "in"; output_directory := "OUT";
            max_size := Some 800; min_size := None; keep_format := false |}
    = Finished (Raised UnidentifiedImageError
                  {| files := {[ "in/notes.png" := Undecodable ]};
                     dirs := {[ "OUT"; "in" ]} |}))
    by (vm_compute; reflexivity).
  split; [exact Hrun|].
  exact (missing_bound_error_unreachable _ _ _ _ _ _ Hrun).
Defined.

(** ** What holds of every file a run writes *)




